(** * github_branch_manager: the stale-branch manager, embedded and verified

    The development follows [src/github_branch_manager.py]:

    - [Datetime]: the part of Python's [datetime] and of
      [dateutil.relativedelta] that [__init__] uses for the cutoff;
    - [Gateway]: the remote state the PyGithub client reads and changes,
      and the requests the manager sends;
    - the class [GithubBranchManager] with its three methods, written in a
      small monad for remote state, exceptions and the log;
    - the theorems about the staleness filter and the two drivers. *)

From Stdlib Require Import ZArith List String Bool Lia.
Import ListNotations.

Local Open Scope string_scope.
Local Open Scope Z_scope.

(** ** Exceptions *)

Inductive Exn : Type :=
| UnknownObjectException          (* github: the requested object is not there (404) *)
| BadCredentialsException         (* github: the token is not accepted (401) *)
| GithubException (status : Z)    (* github: the request is refused, e.g. 403 *)
| OverflowError.                  (* datetime: date value out of range *)

Inductive Res (A : Type) : Type :=
| Ok (a : A)
| Raise (e : Exn).
Arguments Ok {A} a.
Arguments Raise {A} e.

(** ** Dates and [relativedelta] *)

Module Datetime.

(** A [datetime.date] is its proleptic ordinal; a [datetime.datetime]
    adds the hour of the day.  The manager only ever builds whole hours
    ([date.today()] minus an [int] number of hours), so minutes and
    below stay zero and are not carried. *)
Inductive pydate : Type :=
| date (ordinal : Z)
| datetime (ordinal : Z) (hour : Z).

Definition _MAXORDINAL : Z := 3652059.          (* date(9999, 12, 31) *)
Definition _MAXDELTADAYS : Z := 999999999.      (* timedelta.max.days *)

(** The instant a value denotes, in hours since midnight of ordinal 0.
    A bare date stands for its midnight, which is also how the search
    qualifier [created:<YYYY-MM-DD] reads it. *)
Definition instant (d : pydate) : Z :=
  match d with
  | date o => 24 * o
  | datetime o h => 24 * o + h
  end.

(** [relativedelta] restricted to the relative fields that
    [relativedelta(hours=...)] and its negation can set. *)
Record relativedelta : Type := mk_relativedelta {
  days : Z;
  hours : Z;
  _has_time : bool
}.

Definition _sign (x : Z) : Z := if x <? 0 then -1 else 1.

(** [relativedelta.__init__] followed by [_fix]: an hour count beyond
    23 is carried into days, sign kept; [_has_time] records whether a
    time field is left. *)
Definition new_relativedelta (days0 hours0 : Z) : relativedelta :=
  let '(days1, hours1) :=
    if Z.abs hours0 >? 23 then
      let s := _sign hours0 in
      let div := (hours0 * s) / 24 in
      let mod_ := (hours0 * s) mod 24 in
      (days0 + div * s, mod_ * s)
    else (days0, hours0) in
  mk_relativedelta days1 hours1 (negb (hours1 =? 0)).

(** [relativedelta.__neg__] *)
Definition neg (r : relativedelta) : relativedelta :=
  new_relativedelta (- days r) (- hours r).

(** [x + timedelta(days=d, hours=h)] for a date or a datetime.
    [timedelta] refuses more than [_MAXDELTADAYS] days; the sum must
    fall on an ordinal in [1 .. _MAXORDINAL]. *)
Definition add_timedelta (x : pydate) (d h : Z) : Res pydate :=
  let total := 24 * d + h in
  let delta_days := total / 24 in
  if Z.abs delta_days >? _MAXDELTADAYS then Raise OverflowError
  else
    match x with
    | date o =>
        (* date.__add__ uses the days of the timedelta only *)
        let o' := o + delta_days in
        if (0 <? o') && (o' <=? _MAXORDINAL) then Ok (date o')
        else Raise OverflowError
    | datetime o hr =>
        let t := 24 * o + hr + total in
        let o' := t / 24 in
        if (0 <? o') && (o' <=? _MAXORDINAL) then Ok (datetime o' (t mod 24))
        else Raise OverflowError
    end.

(** [relativedelta.__add__] on a date: a delta that carries a time
    turns the date into the datetime of its midnight first; year,
    month and day are replaced by themselves, as no absolute or
    month-level field is set. *)
Definition add (r : relativedelta) (other : pydate) : Res pydate :=
  let other1 :=
    match other with
    | date o => if _has_time r then datetime o 0 else date o
    | datetime o h => datetime o h
    end in
  add_timedelta other1 (days r) (hours r).

(** [relativedelta.__rsub__]: [dt - r] is [(-r) + dt]. *)
Definition rsub (r : relativedelta) (dt : pydate) : Res pydate :=
  add (neg r) dt.

End Datetime.
Import Datetime.

(** ** The remote repository gateway *)

Module Gateway.

(** Modelled from the spec: the remote state behind the PyGithub client
    (sections 3 and 6 of the specification, "Remote Gateway contract
    consumed"), which is not part of the repository.  An issue or pull
    request has an open/closed state, a creation time, a set of labels
    and, if it is a pull request, a head branch. *)
Record Item : Type := mk_item {
  is_open : bool;
  created_at : Z;              (* hours, on the scale of [instant] *)
  labels : list string;
  head : option string         (* [Some b]: a pull request from branch b *)
}.

(** A repository object as [org.get_repos()] yields it. *)
Record Repository : Type := mk_repository {
  name : string;
  full_name : string           (* org/repo *)
}.

(** Objects handed out by the client. *)
Record Issue : Type := mk_issue {
  issue_repo : string;
  issue_number : Z;
  issue_item : Item
}.

Record PullRequest : Type := mk_pull {
  pr_repo : string;
  number : Z;
  pr_item : Item;
  head_ref : string            (* pull.head.ref *)
}.

Record GitRef : Type := mk_git_ref {
  ref_repo : string;
  ref : string;
  sha : string                 (* ref.object.sha *)
}.

(** Modelled from the spec: PyGithub compares two objects of one class
    by the URL of the entity they stand for, here repository and
    number, whatever else the two instances hold. *)
Definition issue_eq (x y : Issue) : bool :=
  (issue_repo x =? issue_repo y)%string && (issue_number x =? issue_number y).

(** Python's [x in xs] on a list. *)
Definition py_in (x : Issue) (xs : list Issue) : bool :=
  existsb (issue_eq x) xs.

(** Search queries: the repository qualifier and the other qualifiers
    of the query string, which all have to hold. *)
Inductive Qualifier : Type :=
| is_open_q                          (* is:open *)
| is_issue_or_pull_request           (* (is:issue OR is:pull-request) *)
| created_before (d : pydate)        (* created:<d *)
| label_q (l : string).              (* label:l *)

Record Query : Type := mk_query {
  q_repo : string;                   (* repo:full_name *)
  q_rest : list Qualifier
}.

(** What goes over the wire.  A search is read page by page, one
    request for each page. *)
Inductive Request : Type :=
| GetOrganization (org_name : string)
| ListRepos (org_name : string)
| CountBranches (repo : string)
| SearchIssues (q : Query) (page : nat)
| GetPull (repo : string) (n : Z)
| PutLabels (repo : string) (n : Z) (ls : list string)
| GetGitRef (repo : string) (r : string)
| DeleteGitRef (repo : string) (r : string).

Definition mutating (r : Request) : bool :=
  match r with
  | PutLabels _ _ _ | DeleteGitRef _ _ => true
  | _ => false
  end.

(** Modelled from the spec: the state of the remote host.  Issues are
    keyed by repository full name and number, so a number names one
    issue of a repository; [issue_numbers] is the order in which a
    search lists them.  Git references are keyed by their name under
    [refs/], e.g. [heads/main].

    The host also decides whom and what it serves (section 7 of the
    specification, authentication and authorization failures, rate
    limiting): [accepts_token] holds of the tokens it takes, and
    [refusal] gives the status with which it turns a request down
    although the object asked for is there, as it does for a write with
    a read-only token or on an archived repository (403), or for a
    search over the rate limit. *)
Record World : Type := mk_world {
  today : Z;                                       (* ordinal of the current day *)
  organizations : string -> option (list Repository);
  issue_numbers : string -> list Z;
  issue_at : string -> Z -> option Item;
  git_refs : string -> list (string * string);     (* name, sha *)
  accepts_token : string -> bool;
  refusal : Request -> option Z
}.

Definition has_label (l : string) (it : Item) : bool :=
  existsb (String.eqb l) (labels it).

Definition satisfies (it : Item) (q : Qualifier) : bool :=
  match q with
  | is_open_q => is_open it
  | is_issue_or_pull_request => true
  | created_before d => created_at it <? instant d
  | label_q l => has_label l it
  end.

Definition matches (q : Query) (it : Item) : bool :=
  forallb (satisfies it) (q_rest q).

(** Modelled from the spec: issue/PR search by a structured query. *)
Fixpoint search_numbers (w : World) (q : Query) (ns : list Z) : list Issue :=
  match ns with
  | [] => []
  | n :: ns' =>
      match issue_at w (q_repo q) n with
      | Some it =>
          if matches q it
          then mk_issue (q_repo q) n it :: search_numbers w q ns'
          else search_numbers w q ns'
      | None => search_numbers w q ns'
      end
  end.

Definition search (w : World) (q : Query) : list Issue :=
  search_numbers w q (issue_numbers w (q_repo q)).

(** Modelled from the spec: pull request lookup by number. *)
Definition find_pull (w : World) (repo : string) (n : Z) : option PullRequest :=
  match issue_at w repo n with
  | Some it =>
      match head it with
      | Some b => Some (mk_pull repo n it b)
      | None => None
      end
  | None => None
  end.

(** Modelled from the spec: git reference lookup by name. *)
Fixpoint lookup_ref (refs : list (string * string)) (r : string) : option string :=
  match refs with
  | [] => None
  | (k, s) :: refs' => if (k =? r)%string then Some s else lookup_ref refs' r
  end.

(** Modelled from the spec: branch-count retrieval, the references
    under [heads/]. *)
Definition count_branches (w : World) (repo : string) : Z :=
  Z.of_nat (List.length (filter (fun kv => prefix "heads/" (fst kv)) (git_refs w repo))).

(** Modelled from the spec: label-set mutation on a pull request; the
    labels given replace the ones the pull request had. *)
Definition with_labels (ls : list string) (it : Item) : Item :=
  mk_item (is_open it) (created_at it) ls (head it).

Definition put_labels (w : World) (repo : string) (n : Z) (ls : list string) : World :=
  mk_world (today w) (organizations w) (issue_numbers w)
    (fun repo' n' =>
       if (repo' =? repo)%string && (n' =? n)
       then option_map (with_labels ls) (issue_at w repo' n')
       else issue_at w repo' n')
    (git_refs w) (accepts_token w) (refusal w).

(** Modelled from the spec: git reference deletion. *)
Definition remove_ref (w : World) (repo : string) (r : string) : World :=
  mk_world (today w) (organizations w) (issue_numbers w) (issue_at w)
    (fun repo' =>
       if (repo' =? repo)%string
       then filter (fun kv => negb (fst kv =? r)%string) (git_refs w repo')
       else git_refs w repo')
    (accepts_token w) (refusal w).

(** Modelled from the spec: a search result comes in pages of thirty
    hits; there is always a first page, and a next one while hits are
    left. *)
Definition per_page : nat := 30.

Definition page_count (hits : nat) : nat := Nat.max 1 ((hits + 29) / per_page).

Definition page_of {A} (k : nat) (xs : list A) : list A :=
  firstn per_page (skipn (per_page * (k - 1)) xs).

End Gateway.
Import Gateway.

(** ** Log records, one constructor per [log.info] call of the source *)

Inductive LogRecord : Type :=
| log_initialized (org_name : string) (date_period : Z) (dry_run : bool)
| log_getting_branches (repo_name : string)
| log_processing (repo_name : string)
| log_total_branches (repo_name : string) (total_branches : Z)
| log_applying_label (pr_number : Z) (repo_name : string)
| log_branches_labeled (repo_name : string) (branches_labeled : list string)
| log_deleting_older (end_date : pydate) (repo_name : string)
| log_branch (branch_name : string) (sha : string).

(** What a run does that can be seen from outside: the requests it
    sends, the lines it logs, and its readings of the system clock, each
    with the day the clock showed. *)
Inductive Event : Type :=
| Sent (r : Request)
| Logged (l : LogRecord)
| ClockRead (ordinal : Z).

(** ** The monad of a run: remote state, exceptions, and the trace *)

Record Out (A : Type) : Type := mk_out {
  value : Res A;
  world : World;
  trace : list Event
}.
Arguments mk_out {A} value world trace.
Arguments value {A} o.
Arguments world {A} o.
Arguments trace {A} o.

Definition M (A : Type) : Type := World -> Out A.

Definition ret {A} (a : A) : M A := fun w => mk_out (Ok a) w [].

Definition raise {A} (e : Exn) : M A := fun w => mk_out (Raise e) w [].

Definition bind {A B} (m : M A) (k : A -> M B) : M B :=
  fun w =>
    let o := m w in
    match value o with
    | Ok a =>
        let o' := k a (world o) in
        mk_out (value o') (world o') (trace o ++ trace o')%list
    | Raise e => mk_out (Raise e) (world o) (trace o)
    end.

Declare Scope run_scope.
Delimit Scope run_scope with run.
Notation "x <- c1 ;; c2" := (bind c1 (fun x => c2))
  (at level 61, c1 at next level, right associativity) : run_scope.
Notation "' pat <- c1 ;; c2" := (bind c1 (fun x => match x with pat => c2 end))
  (at level 61, pat pattern, c1 at next level, right associativity) : run_scope.
Notation "c1 ;; c2" := (bind c1 (fun _ => c2))
  (at level 61, right associativity) : run_scope.
Local Open Scope run_scope.

Definition emit (e : Event) : M unit := fun w => mk_out (Ok tt) w [e].

Definition log_info (l : LogRecord) : M unit := emit (Logged l).

Definition send (r : Request) : M unit := emit (Sent r).

Definition read {A} (f : World -> A) : M A := fun w => mk_out (Ok (f w)) w [].

Definition write (f : World -> World) : M unit := fun w => mk_out (Ok tt) (f w) [].

Definition of_option {A} (o : option A) : M A :=
  match o with
  | Some a => ret a
  | None => raise UnknownObjectException
  end.

Definition of_res {A} (r : Res A) : M A :=
  match r with
  | Ok a => ret a
  | Raise e => raise e
  end.

(** A [for] loop that carries the variables it updates. *)
Fixpoint foldM {A B} (body : B -> A -> M B) (xs : list A) (acc : B) : M B :=
  match xs with
  | [] => ret acc
  | x :: xs' => acc' <- body acc x ;; foldM body xs' acc'
  end.

(** A [for] loop run for its effects. *)
Definition for_ {A} (xs : list A) (body : A -> M unit) : M unit :=
  foldM (fun _ x => body x) xs tt.

(** *** The client calls the manager makes *)

Module Client.

(** The host checks the token of the client that asks. *)
Definition authenticated (github_obj : string) : M unit :=
  ok <- read (fun w => accepts_token w github_obj) ;;
  if ok then ret tt else raise BadCredentialsException.

(** The host may turn the request down. *)
Definition served (r : Request) : M unit :=
  o <- read (fun w => refusal w r) ;;
  match o with
  | Some status => raise (GithubException status)
  | None => ret tt
  end.

(** [github_obj.get_organization(org_name)], where [github_obj] is
    [Github(github_token)]: the client is its token. *)
Definition get_organization (github_obj org_name : string) : M string :=
  send (GetOrganization org_name) ;;
  authenticated github_obj ;;
  served (GetOrganization org_name) ;;
  o <- read (fun w => organizations w org_name) ;;
  _ <- of_option o ;;
  ret org_name.

(** [org.get_repos()] *)
Definition get_repos (org : string) : M (list Repository) :=
  send (ListRepos org) ;;
  o <- read (fun w => organizations w org) ;;
  of_option o.

(** [repo.get_branches().totalCount] *)
Definition get_branches_totalCount (repo : Repository) : M Z :=
  send (CountBranches (full_name repo)) ;;
  read (fun w => count_branches w (full_name repo)).

(** One page of [github_obj.search_issues(query=q)]. *)
Definition get_page (github_obj : string) (q : Query) (k : nat) : M (list Issue) :=
  send (SearchIssues q k) ;;
  authenticated github_obj ;;
  served (SearchIssues q k) ;;
  read (fun w => page_of k (search w q)).

(** [list(github_obj.search_issues(query=q))]: the paginated result is
    read to the end, page after page. *)
Definition search_issues (github_obj : string) (q : Query) : M (list Issue) :=
  pages <- read (fun w => page_count (List.length (search w q))) ;;
  foldM (fun hits k => items <- get_page github_obj q k ;; ret (hits ++ items)%list)
        (seq 1 pages) [].

(** [issue.as_pull_request()]: fetches the pull request of the issue's
    number and fails when the issue is not a pull request. *)
Definition as_pull_request (x : Issue) : M PullRequest :=
  send (GetPull (issue_repo x) (issue_number x)) ;;
  o <- read (fun w => find_pull w (issue_repo x) (issue_number x)) ;;
  of_option o.

(** [repo.get_pull(number)] *)
Definition get_pull (repo : Repository) (n : Z) : M PullRequest :=
  send (GetPull (full_name repo) n) ;;
  o <- read (fun w => find_pull w (full_name repo) n) ;;
  of_option o.

(** [pull.set_labels(label, ...)] *)
Definition set_labels (p : PullRequest) (ls : list string) : M unit :=
  send (PutLabels (pr_repo p) (number p) ls) ;;
  served (PutLabels (pr_repo p) (number p) ls) ;;
  o <- read (fun w => issue_at w (pr_repo p) (number p)) ;;
  _ <- of_option o ;;
  write (fun w => put_labels w (pr_repo p) (number p) ls).

(** [repo.get_git_ref(r)] *)
Definition get_git_ref (repo : Repository) (r : string) : M GitRef :=
  send (GetGitRef (full_name repo) r) ;;
  o <- read (fun w => lookup_ref (git_refs w (full_name repo)) r) ;;
  s <- of_option o ;;
  ret (mk_git_ref (full_name repo) r s).

(** [ref.delete()] *)
Definition delete (g : GitRef) : M unit :=
  send (DeleteGitRef (ref_repo g) (ref g)) ;;
  served (DeleteGitRef (ref_repo g) (ref g)) ;;
  o <- read (fun w => lookup_ref (git_refs w (ref_repo g)) (ref g)) ;;
  _ <- of_option o ;;
  write (fun w => remove_ref w (ref_repo g) (ref g)).

(** [date.today()] *)
Definition date_today : M pydate :=
  ordinal <- read today ;;
  emit (ClockRead ordinal) ;;
  ret (date ordinal).

End Client.
Import Client.

(** ** class GithubBranchManager *)

(** The fields [__init__] sets.  [github_obj] is the client, which is
    its token, the remote state being the [World] of the monad; [org] is
    the organization it looked up.  No method assigns to a field after
    [__init__], so the methods take [self] as a value. *)
Record GithubBranchManager : Type := mk_manager {
  github_obj : string;
  org : string;
  end_date : pydate;
  dry_run : bool
}.

Definition __init__ (github_token org_name : string) (date_period : Z)
    (dry_run : bool) : M GithubBranchManager :=
  let github_obj := github_token in
  org <- get_organization github_obj org_name ;;
  today <- date_today ;;
  end_date <- of_res (rsub (new_relativedelta 0 date_period) today) ;;
  log_info (log_initialized org_name date_period dry_run) ;;
  ret (mk_manager github_obj org end_date dry_run).

Definition query_older_issues (self : GithubBranchManager) (repo : Repository) : Query :=
  mk_query (full_name repo)
    [is_open_q; is_issue_or_pull_request; created_before (end_date self)].

Definition query_issues_labelled_do_not_delete (self : GithubBranchManager)
    (repo : Repository) : Query :=
  mk_query (full_name repo)
    [is_open_q; created_before (end_date self); label_q "do-not-delete"].

(** [[x for x in issues_older_than_year if x not in do_not_del_issues]] *)
Definition issues_to_be_removed (issues_older_than_year do_not_del_issues : list Issue)
    : list Issue :=
  filter (fun x => negb (py_in x do_not_del_issues)) issues_older_than_year.

(** The body of the loop over [issues_to_be_removed]. *)
Definition convert (acc : list PullRequest * list string) (prs : Issue)
    : M (list PullRequest * list string) :=
  let '(prs_to_label, branches_to_delete) := acc in
  pull_req_name <- as_pull_request prs ;;
  let branch_name := head_ref pull_req_name in
  ret ((prs_to_label ++ [pull_req_name])%list,
       (branches_to_delete ++ [branch_name])%list).

Definition get_prs_branches_to_be_deleted (self : GithubBranchManager)
    (repo : Repository) : M (list PullRequest * list string) :=
  issues_older_than_year <-
    search_issues (github_obj self) (query_older_issues self repo) ;;
  do_not_del_issues <-
    search_issues (github_obj self) (query_issues_labelled_do_not_delete self repo) ;;
  log_info (log_getting_branches (name repo)) ;;
  foldM convert
    (issues_to_be_removed issues_older_than_year do_not_del_issues)
    ([], []).

(** The body of the loop over [prs_to_be_labelled]. *)
Definition label_one (self : GithubBranchManager) (repo : Repository)
    (branches_labeled : list string) (pr : PullRequest) : M (list string) :=
  pull_req <- get_pull repo (number pr) ;;
  log_info (log_applying_label (number pr) (name repo)) ;;
  if negb (dry_run self) then
    set_labels pull_req ["will-be-deleted-within-a-week"] ;;
    ret (branches_labeled ++ [head_ref pull_req])%list
  else ret branches_labeled.

(** The body of the loop over the repositories in [label_stale_branches]. *)
Definition label_repo (self : GithubBranchManager) (repo : Repository) : M unit :=
  log_info (log_processing (name repo)) ;;
  total_branches <- get_branches_totalCount repo ;;
  log_info (log_total_branches (name repo) total_branches) ;;
  '(prs_to_be_labelled, _) <- get_prs_branches_to_be_deleted self repo ;;
  branches_labeled <- foldM (label_one self repo) prs_to_be_labelled [] ;;
  log_info (log_branches_labeled (name repo) branches_labeled).

Definition label_stale_branches (self : GithubBranchManager) : M unit :=
  repos <- get_repos (org self) ;;
  for_ repos (label_repo self).

(** The body of the loop over [branches_to_be_deleted]. *)
Definition delete_one (self : GithubBranchManager) (repo : Repository)
    (branch_str : string) : M unit :=
  branch <- get_git_ref repo ("heads/" ++ branch_str)%string ;;
  log_info (log_branch branch_str (sha branch)) ;;
  if negb (dry_run self) then delete branch else ret tt.

(** The body of the loop over the repositories in [delete_stale_branches]. *)
Definition delete_repo (self : GithubBranchManager) (repo : Repository) : M unit :=
  log_info (log_processing (name repo)) ;;
  total_branches <- get_branches_totalCount repo ;;
  log_info (log_total_branches (name repo) total_branches) ;;
  '(_, branches_to_be_deleted) <- get_prs_branches_to_be_deleted self repo ;;
  log_info (log_deleting_older (end_date self) (name repo)) ;;
  for_ branches_to_be_deleted (delete_one self repo).

Definition delete_stale_branches (self : GithubBranchManager) : M unit :=
  repos <- get_repos (org self) ;;
  for_ repos (delete_repo self).

(** The script: a fresh manager, then the action the command line
    names; any other action does nothing more. *)
Definition main (github_token action org_name : string) (date_period : Z)
    (dry_run : bool) : M unit :=
  git_branch_manager <- __init__ github_token org_name date_period dry_run ;;
  if (action =? "label")%string then label_stale_branches git_branch_manager
  else if (action =? "delete")%string then delete_stale_branches git_branch_manager
  else ret tt.

(** ** Reading a trace *)

Definition requests (t : list Event) : list Request :=
  flat_map (fun e => match e with Sent r => [r] | _ => [] end) t.

Definition log_output (t : list Event) : list LogRecord :=
  flat_map (fun e => match e with Logged l => [l] | _ => [] end) t.

(** The days the clock showed, reading after reading. *)
Definition clock_reads (t : list Event) : list Z :=
  flat_map (fun e => match e with ClockRead d => [d] | _ => [] end) t.

Definition mutating_calls (t : list Event) : list Request :=
  filter mutating (requests t).

(** The queries sent, once for each page asked for. *)
Definition searches (t : list Event) : list Query :=
  flat_map (fun r => match r with SearchIssues q _ => [q] | _ => [] end) (requests t).

(** ** Scenarios of section 8 of the specification *)

Module Scenario.

Definition day0 : Z := 739000.                    (* the current day *)
Definition old : Z := 24 * (day0 - 400).           (* created 400 days ago *)

Definition repo_a : Repository := mk_repository "a" "acme/a".

Definition pr (ls : list string) (b : string) : Item := mk_item true old ls (Some b).

(** Scenario A: three open pull requests created 400 days ago, none
    labeled.  The host takes the one token [token] and refuses nothing. *)
Definition world_A : World :=
  mk_world day0
    (fun o => if (o =? "acme")%string then Some [repo_a] else None)
    (fun r => if (r =? "acme/a")%string then [1; 2; 3] else [])
    (fun r n =>
       if (r =? "acme/a")%string then
         if n =? 1 then Some (pr [] "feature-1")
         else if n =? 2 then Some (pr ["bug"] "feature-2")
         else if n =? 3 then Some (pr [] "feature-3")
         else None
       else None)
    (fun r =>
       if (r =? "acme/a")%string then
         [("heads/main", "c0"); ("heads/feature-1", "c1");
          ("heads/feature-2", "c2"); ("heads/feature-3", "c3")]
       else [])
    (fun tok => (tok =? "token")%string)
    (fun _ => None).

(** Scenario B: the second of them carries [do-not-delete]. *)
Definition world_B : World :=
  put_labels world_A "acme/a" 2 ["do-not-delete"].

(** Scenario D: the reference of the first candidate is gone already. *)
Definition world_D : World :=
  remove_ref world_A "acme/a" "heads/feature-1".

(** A cutoff of 365 days, that is 8760 hours. *)
Definition manager (dry : bool) : GithubBranchManager :=
  mk_manager "token" "acme" (date (day0 - 365)) dry.

End Scenario.

(** ** The vocabulary of the statements *)

(** A computation whose events all satisfy [P] and whose final state is
    related to the initial one by [R]. *)
Definition obeys (P : Event -> Prop) (R : World -> World -> Prop) {A} (m : M A)
    : Prop :=
  forall w, Forall P (trace (m w)) /\ R w (world (m w)).

(** What the manager's two queries have to satisfy. *)
Definition P_queries (P : Event -> Prop) (self : GithubBranchManager) : Prop :=
  forall repo k,
    P (Sent (SearchIssues (query_older_issues self repo) k)) /\
    P (Sent (SearchIssues (query_issues_labelled_do_not_delete self repo) k)).

Definition stale_label : list string := ["will-be-deleted-within-a-week"].

Definition only_labels (e : Event) : Prop :=
  match e with
  | Sent r => mutating r = true -> exists repo n, r = PutLabels repo n stale_label
  | _ => True
  end.

Definition same_refs (w w' : World) : Prop := git_refs w' = git_refs w.

(** The dates a query compares creation times with. *)
Definition cutoffs (q : Query) : list pydate :=
  flat_map (fun x => match x with created_before d => [d] | _ => [] end) (q_rest q).

Definition uses_cutoff (d : pydate) (e : Event) : Prop :=
  match e with
  | Sent (SearchIssues q _) => cutoffs q = [d]
  | _ => True
  end.

Definition any_world (w w' : World) : Prop := True.

(** What the host answers to the request for page [k] of the query [q],
    made with the token [github_obj], when it does not serve it. *)
Definition page_error (w : World) (github_obj : string) (q : Query) (k : nat)
    : option Exn :=
  if accepts_token w github_obj
  then option_map GithubException (refusal w (SearchIssues q k))
  else Some BadCredentialsException.

(** The pages [ks] asked for one after the other, until one is not
    served: the error that ended the reading, if any, and the requests
    sent. *)
Fixpoint pages_run (w : World) (github_obj : string) (q : Query) (ks : list nat)
    : option Exn * list Event :=
  match ks with
  | [] => (None, [])
  | k :: ks' =>
      match page_error w github_obj q k with
      | Some e => (Some e, [Sent (SearchIssues q k)])
      | None =>
          let '(r, t) := pages_run w github_obj q ks' in
          (r, Sent (SearchIssues q k) :: t)
      end
  end.

(** The pages of the result of [q]. *)
Definition pages_of (w : World) (q : Query) : list nat :=
  seq 1 (page_count (List.length (search w q))).

(** A search read to the end: the error that ended it, if any, and the
    requests it sent. *)
Definition search_error (w : World) (github_obj : string) (q : Query) : option Exn :=
  fst (pages_run w github_obj q (pages_of w q)).

Definition search_events (w : World) (github_obj : string) (q : Query) : list Event :=
  snd (pages_run w github_obj q (pages_of w q)).

(** The candidate set: what is left of the "older" result once the
    "protected" result is taken out. *)
Definition candidates (self : GithubBranchManager) (repo : Repository) (w : World)
    : list Issue :=
  issues_to_be_removed
    (search w (query_older_issues self repo))
    (search w (query_issues_labelled_do_not_delete self repo)).

(** The entity an object stands for. *)
Definition issue_key (x : Issue) : string * Z := (issue_repo x, issue_number x).

Definition pull_key (p : PullRequest) : string * Z := (pr_repo p, number p).

(** The pull request of a candidate, as the remote state has it. *)
Definition pull_of (w : World) (x : Issue) : option PullRequest :=
  find_pull w (issue_repo x) (issue_number x).

(** Two items that agree on everything the filter looks at: state,
    creation time, head branch, and whether [do-not-delete] is on. *)
Definition same_item (it it' : Item) : Prop :=
  is_open it = is_open it' /\ created_at it = created_at it' /\
  head it = head it' /\
  has_label "do-not-delete" it = has_label "do-not-delete" it'.

Definition same_entry (o o' : option Item) : Prop :=
  match o, o' with
  | Some it, Some it' => same_item it it'
  | None, None => True
  | _, _ => False
  end.

(** The two hosts serve alike: they take the same tokens and refuse
    the same requests. *)
Definition same_host (w w' : World) : Prop :=
  accepts_token w = accepts_token w' /\ refusal w = refusal w'.

(** The issues of [w'] are those of [w] up to their labels, the
    protective one excepted, and the two hosts serve alike. *)
Definition same_issues (w w' : World) : Prop :=
  same_host w w' /\ issue_numbers w = issue_numbers w' /\
  forall repo n, same_entry (issue_at w repo n) (issue_at w' repo n).

(** [w'] is [w] up to the labels of its issues, the protective one
    excepted. *)
Definition relabelled (w w' : World) : Prop :=
  same_host w w' /\
  today w = today w' /\ organizations w = organizations w' /\
  issue_numbers w = issue_numbers w' /\ git_refs w = git_refs w' /\
  forall repo n, same_entry (issue_at w repo n) (issue_at w' repo n).

(** An issue that does not carry the protective label (or is not there). *)
Definition unprotected (w : World) (repo : string) (n : Z) : Prop :=
  match issue_at w repo n with
  | Some it => has_label "do-not-delete" it = false
  | None => True
  end.

(** The candidates by number: listed, open, old, and not protected. *)
Definition is_candidate (self : GithubBranchManager) (w : World) (repo : string)
    (n : Z) : bool :=
  match issue_at w repo n with
  | Some it =>
      is_open it && (created_at it <? instant (end_date self)) &&
      negb (has_label "do-not-delete" it)
  | None => false
  end.

Definition any_event (e : Event) : Prop := True.

(** What is compared of an event.  Strictly: the event.  Otherwise the
    mutating requests are left out and the summary line of a repository
    is read without its list of branches. *)
Definition view (strict : bool) (e : Event) : list Event :=
  if strict then [e]
  else
    match e with
    | Sent (PutLabels _ _ _) => []
    | Sent (DeleteGitRef _ _) => []
    | Logged (log_branches_labeled repo_name _) =>
        [Logged (log_branches_labeled repo_name [])]
    | _ => [e]
    end.

Definition observe (strict : bool) (t : list Event) : list Event :=
  flat_map (view strict) t.

(** Two outcomes agree: same observed trace, and both return related
    values or both raise the same exception. *)
Definition agree {A} (Rv : A -> A -> Prop) (strict : bool) (o o' : Out A) : Prop :=
  observe strict (trace o) = observe strict (trace o') /\
  match value o, value o' with
  | Ok a, Ok a' => Rv a a'
  | Raise e, Raise e' => e = e'
  | _, _ => False
  end.

Definition same_pulls (r r' : list PullRequest * list string) : Prop :=
  map pull_key (fst r) = map pull_key (fst r') /\ snd r = snd r'.

(** The lists of labeled branches are compared in a strict comparison
    only. *)
Definition same_acc (strict : bool) (a a' : list string) : Prop :=
  strict = true -> a = a'.

(** What one event does to the issue [n] of [repo], on a host that
    refuses as [refused] says: a label application that is not refused
    replaces the labels. *)
Definition relabel (refused : Request -> option Z) (repo : string) (n : Z)
    (o : option Item) (e : Event) : option Item :=
  match e with
  | Sent (PutLabels repo' n' ls) =>
      match refused (PutLabels repo' n' ls) with
      | Some _ => o
      | None =>
          if (repo =? repo')%string && (n =? n') then option_map (with_labels ls) o
          else o
      end
  | _ => o
  end.

Definition replay_at (refused : Request -> option Z) (repo : string) (n : Z)
    (t : list Event) (o : option Item) : option Item :=
  fold_left (relabel refused repo n) t o.

(** A computation that leaves the host serving as it did, and whose
    effect on every issue is the replay of the label applications it
    sent. *)
Definition tracks {A} (m : M A) : Prop :=
  forall w,
    refusal (world (m w)) = refusal w /\
    forall repo n,
      issue_at (world (m w)) repo n =
      replay_at (refusal w) repo n (trace (m w)) (issue_at w repo n).

(** An event that is not a reading of the clock. *)
Definition no_clock (e : Event) : Prop :=
  match e with
  | ClockRead _ => False
  | _ => True
  end.

Definition reads_only (e : Event) : Prop :=
  match e with
  | Sent r => mutating r = false
  | _ => True
  end.

Definition unchanged (w w' : World) : Prop := w' = w.

(** [w'] is [w] with some references of the repositories in [S]
    deleted. *)
Definition behind (S : list string) (w w' : World) : Prop :=
  today w = today w' /\ organizations w = organizations w' /\ same_issues w w' /\
  (forall repo, ~ In repo S -> git_refs w' repo = git_refs w repo) /\
  (forall repo r s, lookup_ref (git_refs w' repo) r = Some s ->
                    lookup_ref (git_refs w repo) r = Some s).

(** A trace without its mutating requests. *)
Definition quiet (t : list Event) : list Event :=
  filter (fun e => match e with Sent r => negb (mutating r) | _ => true end) t.

(** The run [o'] did what the dry run [o] did, as far as it got: what is
    observed of it is the beginning of what is observed of the dry run,
    and all of it when it completed. *)
Definition follows (o o' : Out unit) : Prop :=
  exists rest,
    quiet (trace o) = (quiet (trace o') ++ rest)%list /\
    (value o' = Ok tt -> value o = Ok tt /\ rest = []).

(** The same for two runs of the label driver, whose summary lines are
    read without their lists of branches: what is observed of [o'] is
    the beginning of what is observed of [o], and all of it when [o']
    returned. *)
Definition trails {A B} (o : Out A) (o' : Out B) : Prop :=
  exists rest,
    observe false (trace o) = (observe false (trace o') ++ rest)%list /\
    ((exists b, value o' = Ok b) -> (exists a, value o = Ok a) /\ rest = []).

(** The requests of a trace that read. *)
Definition reads (t : list Event) : list Request :=
  filter (fun r => negb (mutating r)) (requests t).

(** A log record without the list of the summary line. *)
Definition blank_summary (l : LogRecord) : LogRecord :=
  match l with
  | log_branches_labeled repo_name _ => log_branches_labeled repo_name []
  | _ => l
  end.

(** Whether today's midnight minus [p] hours falls on a day of the
    calendar, within what a [timedelta] can hold. *)
Definition cutoff_in_range (today p : Z) : bool :=
  negb (Z.abs (- p / 24) >? _MAXDELTADAYS) &&
  ((0 <? today + - p / 24) && (today + - p / 24 <=? _MAXORDINAL)).

(** A branch that is the head of a candidate of [repo]: of an open
    issue of the repository, older than the cutoff, that does not carry
    the protective label. *)
Definition stale_branch (self : GithubBranchManager) (w : World) (repo b : string)
    : Prop :=
  exists n it,
    In n (issue_numbers w repo) /\ is_candidate self w repo n = true /\
    issue_at w repo n = Some it /\ head it = Some b.

(** A repository that the organization of [self] lists. *)
Definition listed (self : GithubBranchManager) (w : World) (repo : string) : Prop :=
  exists repos r,
    organizations w (org self) = Some repos /\ In r repos /\ full_name r = repo.

(** [w'] is [w] with some git references deleted: every reference of
    [w'] is one of [w], and resolves as it did in [w]. *)
Definition shrunk (w w' : World) : Prop :=
  same_host w w' /\
  today w' = today w /\ organizations w' = organizations w /\
  issue_numbers w' = issue_numbers w /\ issue_at w' = issue_at w /\
  forall repo k s,
    (In (k, s) (git_refs w' repo) -> In (k, s) (git_refs w repo)) /\
    (lookup_ref (git_refs w' repo) k = Some s ->
     lookup_ref (git_refs w repo) k = Some s).

(** Every reference of [w] is still in [w'], unless it is the branch of
    a stale pull request of a listed repository and [self] deletes. *)
Definition spared (self : GithubBranchManager) (w w' : World) : Prop :=
  forall repo k s,
    In (k, s) (git_refs w repo) ->
    In (k, s) (git_refs w' repo) \/
    (dry_run self = false /\ listed self w repo /\
     exists b, k = ("heads/" ++ b)%string /\ stale_branch self w repo b).

(** What an event of the delete driver has to answer for, in the state
    [w] the run started from: a log line for a branch names the head of
    a candidate of a listed repository, with the sha its reference had;
    a deletion is sent only when [self] deletes, for such a reference;
    every other request reads. *)
Definition accounted (self : GithubBranchManager) (w : World) (e : Event) : Prop :=
  match e with
  | Logged (log_branch b s) =>
      exists repo,
        listed self w repo /\ stale_branch self w repo b /\
        lookup_ref (git_refs w repo) ("heads/" ++ b) = Some s
  | Logged _ => True
  | Sent (DeleteGitRef repo k) =>
      dry_run self = false /\ listed self w repo /\
      exists b s,
        k = ("heads/" ++ b)%string /\ stale_branch self w repo b /\
        lookup_ref (git_refs w repo) k = Some s
  | Sent r => mutating r = false
  | ClockRead _ => True
  end.

(** Scenario A with the third pull request opened from the head branch
    of the first. *)
Definition world_shared_head : World :=
  mk_world (today Scenario.world_A) (organizations Scenario.world_A)
    (issue_numbers Scenario.world_A)
    (fun r n =>
       if (r =? "acme/a")%string && (n =? 3) then Some (Scenario.pr [] "feature-1")
       else issue_at Scenario.world_A r n)
    (git_refs Scenario.world_A)
    (accepts_token Scenario.world_A) (refusal Scenario.world_A).

(** Scenario A with the second entry a plain issue, not a pull
    request. *)
Definition world_plain_issue : World :=
  mk_world (today Scenario.world_A) (organizations Scenario.world_A)
    (issue_numbers Scenario.world_A)
    (fun r n =>
       if (r =? "acme/a")%string && (n =? 2)
       then Some (mk_item true Scenario.old ["bug"] None)
       else issue_at Scenario.world_A r n)
    (git_refs Scenario.world_A)
    (accepts_token Scenario.world_A) (refusal Scenario.world_A).

(** Scenario A on a host that refuses every write with status 403, as
    it does for a read-only token. *)
Definition world_read_only : World :=
  mk_world (today Scenario.world_A) (organizations Scenario.world_A)
    (issue_numbers Scenario.world_A) (issue_at Scenario.world_A)
    (git_refs Scenario.world_A) (accepts_token Scenario.world_A)
    (fun r => if mutating r then Some 403 else None).

(** The head branches of the candidates of [repo], in the order of its
    issues. *)
Definition stale_heads (self : GithubBranchManager) (w : World) (repo : string)
    : list string :=
  flat_map (fun n => match find_pull w repo n with
                     | Some p => [head_ref p]
                     | None => []
                     end)
           (filter (is_candidate self w repo) (issue_numbers w repo)).

(** * Verification *)

(** ** How [bind] and the loops run *)

Lemma bind_ok {A B} (m : M A) (k : A -> M B) (w : World) (a : A) :
  value (m w) = Ok a ->
  bind m k w =
  mk_out (value (k a (world (m w)))) (world (k a (world (m w))))
         (trace (m w) ++ trace (k a (world (m w)))).
Proof. intros H. unfold bind. rewrite H. reflexivity. Qed.

Lemma bind_raise {A B} (m : M A) (k : A -> M B) (w : World) (e : Exn) :
  value (m w) = Raise e ->
  bind m k w = mk_out (Raise e) (world (m w)) (trace (m w)).
Proof. intros H. unfold bind. rewrite H. reflexivity. Qed.

Lemma bind_run {A B} (m : M A) (k : A -> M B) (w : World) :
  bind m k w =
  match value (m w) with
  | Ok a =>
      mk_out (value (k a (world (m w)))) (world (k a (world (m w))))
             (trace (m w) ++ trace (k a (world (m w))))
  | Raise e => mk_out (Raise e) (world (m w)) (trace (m w))
  end.
Proof. reflexivity. Qed.

Lemma send_run (r : Request) (w : World) : send r w = mk_out (Ok tt) w [Sent r].
Proof. reflexivity. Qed.

Lemma log_info_run (l : LogRecord) (w : World) :
  log_info l w = mk_out (Ok tt) w [Logged l].
Proof. reflexivity. Qed.

Lemma read_run {A} (f : World -> A) (w : World) : read f w = mk_out (Ok (f w)) w [].
Proof. reflexivity. Qed.

(** One step of a computation: the first call of a [bind] is run by
    its equation. *)
Ltac run_with lem := rewrite bind_run, lem; cbn [value world trace app].

Lemma foldM_cons {A B} (body : B -> A -> M B) x xs acc :
  foldM body (x :: xs) acc = bind (body acc x) (fun acc' => foldM body xs acc').
Proof. reflexivity. Qed.

Lemma requests_app t1 t2 : requests (t1 ++ t2) = (requests t1 ++ requests t2)%list.
Proof. unfold requests. apply flat_map_app. Qed.

Lemma log_output_app t1 t2 :
  log_output (t1 ++ t2) = (log_output t1 ++ log_output t2)%list.
Proof. unfold log_output. apply flat_map_app. Qed.

Lemma mutating_calls_app t1 t2 :
  mutating_calls (t1 ++ t2) = (mutating_calls t1 ++ mutating_calls t2)%list.
Proof. unfold mutating_calls. rewrite requests_app. apply filter_app. Qed.

Lemma searches_app t1 t2 : searches (t1 ++ t2) = (searches t1 ++ searches t2)%list.
Proof. unfold searches. rewrite requests_app. apply flat_map_app. Qed.

Lemma clock_reads_app t1 t2 :
  clock_reads (t1 ++ t2) = (clock_reads t1 ++ clock_reads t2)%list.
Proof. unfold clock_reads. apply flat_map_app. Qed.

(** ** A computation whose events all satisfy [P] and whose final state
    is related to the initial one by a preorder [R] *)

Section Obeys.

Variable P : Event -> Prop.
Variable R : World -> World -> Prop.
Hypothesis R_refl : forall w, R w w.
Hypothesis R_trans : forall w1 w2 w3, R w1 w2 -> R w2 w3 -> R w1 w3.

Lemma obeys_ret {A} (a : A) : obeys P R (ret a).
Proof. intros w. split; [constructor | apply R_refl]. Qed.

Lemma obeys_raise {A} (e : Exn) : obeys P R (@raise A e).
Proof. intros w. split; [constructor | apply R_refl]. Qed.

Lemma obeys_read {A} (f : World -> A) : obeys P R (read f).
Proof. intros w. split; [constructor | apply R_refl]. Qed.

Lemma obeys_emit (e : Event) : P e -> obeys P R (emit e).
Proof. intros H w. split; [repeat constructor; exact H | apply R_refl]. Qed.

Lemma obeys_write (f : World -> World) : (forall w, R w (f w)) -> obeys P R (write f).
Proof. intros H w. split; [constructor | apply H]. Qed.

Lemma obeys_of_option {A} (o : option A) : obeys P R (of_option o).
Proof. destruct o; [apply obeys_ret | apply obeys_raise]. Qed.

Lemma obeys_of_res {A} (r : Res A) : obeys P R (of_res r).
Proof. destruct r; [apply obeys_ret | apply obeys_raise]. Qed.

Lemma obeys_bind {A B} (m : M A) (k : A -> M B) :
  obeys P R m -> (forall a, obeys P R (k a)) -> obeys P R (bind m k).
Proof.
  intros Hm Hk w. destruct (Hm w) as [Ht Hw].
  unfold bind. destruct (value (m w)) as [a | e]; simpl.
  - destruct (Hk a (world (m w))) as [Ht' Hw']. split.
    + apply Forall_app. split; assumption.
    + eapply R_trans; eassumption.
  - split; assumption.
Qed.

Lemma obeys_foldM {A B} (body : B -> A -> M B) (xs : list A) :
  (forall acc x, obeys P R (body acc x)) -> forall acc, obeys P R (foldM body xs acc).
Proof.
  intros Hb. induction xs as [| x xs IH]; intros acc; simpl.
  - apply obeys_ret.
  - apply obeys_bind; [apply Hb | exact IH].
Qed.

Lemma obeys_for_ {A} (xs : list A) (body : A -> M unit) :
  (forall x, obeys P R (body x)) -> obeys P R (for_ xs body).
Proof. intros Hb. unfold for_. apply obeys_foldM. intros _ x. apply Hb. Qed.

(** The reading client calls obey as soon as their request does. *)

Hypothesis P_log : forall l, P (Logged l).
Hypothesis P_read :
  forall r, mutating r = false -> (forall q k, r <> SearchIssues q k) -> P (Sent r).

Lemma obeys_authenticated github_obj : obeys P R (authenticated github_obj).
Proof.
  unfold authenticated. apply obeys_bind; [apply obeys_read | intros ok].
  destruct ok; [apply obeys_ret | apply obeys_raise].
Qed.

Lemma obeys_served r : obeys P R (served r).
Proof.
  unfold served. apply obeys_bind; [apply obeys_read | intros o].
  destruct o; [apply obeys_raise | apply obeys_ret].
Qed.

Lemma obeys_log_info l : obeys P R (log_info l).
Proof. apply obeys_emit, P_log. Qed.

Lemma obeys_get_repos o : obeys P R (get_repos o).
Proof.
  unfold get_repos, send. apply obeys_bind; [apply obeys_emit, P_read; [reflexivity | intros ? ?; discriminate] |].
  intros _. apply obeys_bind; [apply obeys_read | intros; apply obeys_of_option].
Qed.

Lemma obeys_get_branches_totalCount repo : obeys P R (get_branches_totalCount repo).
Proof.
  unfold get_branches_totalCount, send.
  apply obeys_bind; [apply obeys_emit, P_read; [reflexivity | intros ? ?; discriminate] | intros; apply obeys_read].
Qed.

Lemma obeys_search_issues github_obj q :
  (forall k, P (Sent (SearchIssues q k))) -> obeys P R (search_issues github_obj q).
Proof.
  intros Hq. unfold search_issues.
  apply obeys_bind; [apply obeys_read | intros pages].
  apply obeys_foldM. intros hits k. unfold get_page, send.
  apply obeys_bind; [| intros; apply obeys_ret].
  apply obeys_bind; [apply obeys_emit, Hq | intros _].
  apply obeys_bind; [apply obeys_authenticated | intros _].
  apply obeys_bind; [apply obeys_served | intros; apply obeys_read].
Qed.

Lemma obeys_as_pull_request x : obeys P R (as_pull_request x).
Proof.
  unfold as_pull_request, send.
  apply obeys_bind; [apply obeys_emit, P_read; [reflexivity | intros ? ?; discriminate] |].
  intros _. apply obeys_bind; [apply obeys_read | intros; apply obeys_of_option].
Qed.

Lemma obeys_get_pull repo n : obeys P R (get_pull repo n).
Proof.
  unfold get_pull, send.
  apply obeys_bind; [apply obeys_emit, P_read; [reflexivity | intros ? ?; discriminate] |].
  intros _. apply obeys_bind; [apply obeys_read | intros; apply obeys_of_option].
Qed.

Lemma obeys_get_git_ref repo r : obeys P R (get_git_ref repo r).
Proof.
  unfold get_git_ref, send.
  apply obeys_bind; [apply obeys_emit, P_read; [reflexivity | intros ? ?; discriminate] |].
  intros _. apply obeys_bind; [apply obeys_read |].
  intros o. apply obeys_bind; [apply obeys_of_option | intros; apply obeys_ret].
Qed.

Lemma obeys_get_prs self repo :
  P_queries P self -> obeys P R (get_prs_branches_to_be_deleted self repo).
Proof.
  intros Hq. unfold get_prs_branches_to_be_deleted.
  apply obeys_bind; [apply obeys_search_issues; intros k; apply Hq | intros older].
  apply obeys_bind; [apply obeys_search_issues; intros k; apply Hq | intros prot].
  apply obeys_bind; [apply obeys_log_info | intros _].
  apply obeys_foldM. intros [ps bs] x. unfold convert.
  apply obeys_bind; [apply obeys_as_pull_request | intros; apply obeys_ret].
Qed.

Lemma obeys_set_labels p ls :
  P (Sent (PutLabels (pr_repo p) (number p) ls)) ->
  (forall w, R w (put_labels w (pr_repo p) (number p) ls)) ->
  obeys P R (set_labels p ls).
Proof.
  intros HP HR. unfold set_labels, send.
  apply obeys_bind; [apply obeys_emit, HP | intros _].
  apply obeys_bind; [apply obeys_served | intros _].
  apply obeys_bind; [apply obeys_read | intros o].
  apply obeys_bind; [apply obeys_of_option | intros _].
  apply obeys_write, HR.
Qed.

Lemma obeys_delete g :
  P (Sent (DeleteGitRef (ref_repo g) (ref g))) ->
  (forall w, R w (remove_ref w (ref_repo g) (ref g))) ->
  obeys P R (delete g).
Proof.
  intros HP HR. unfold delete, send.
  apply obeys_bind; [apply obeys_emit, HP | intros _].
  apply obeys_bind; [apply obeys_served | intros _].
  apply obeys_bind; [apply obeys_read | intros o].
  apply obeys_bind; [apply obeys_of_option | intros _].
  apply obeys_write, HR.
Qed.

(** The two drivers, given that their one mutating call obeys. *)

Lemma obeys_label_stale_branches self :
  P_queries P self ->
  (dry_run self = false ->
   forall p, obeys P R (set_labels p ["will-be-deleted-within-a-week"])) ->
  obeys P R (label_stale_branches self).
Proof.
  intros Hq Hset. unfold label_stale_branches.
  apply obeys_bind; [apply obeys_get_repos | intros repos].
  apply obeys_for_. intros repo. unfold label_repo.
  apply obeys_bind; [apply obeys_log_info | intros _].
  apply obeys_bind; [apply obeys_get_branches_totalCount | intros total].
  apply obeys_bind; [apply obeys_log_info | intros _].
  apply obeys_bind; [apply obeys_get_prs, Hq | intros [ps bs]].
  apply obeys_bind; [| intros; apply obeys_log_info].
  apply obeys_foldM. intros acc pr. unfold label_one.
  apply obeys_bind; [apply obeys_get_pull | intros p].
  apply obeys_bind; [apply obeys_log_info | intros _].
  destruct (dry_run self) eqn:Hdry; simpl.
  - apply obeys_ret.
  - apply obeys_bind; [apply Hset; reflexivity | intros; apply obeys_ret].
Qed.

Lemma obeys_delete_stale_branches self :
  P_queries P self ->
  (dry_run self = false -> forall g, obeys P R (delete g)) ->
  obeys P R (delete_stale_branches self).
Proof.
  intros Hq Hdel. unfold delete_stale_branches.
  apply obeys_bind; [apply obeys_get_repos | intros repos].
  apply obeys_for_. intros repo. unfold delete_repo.
  apply obeys_bind; [apply obeys_log_info | intros _].
  apply obeys_bind; [apply obeys_get_branches_totalCount | intros total].
  apply obeys_bind; [apply obeys_log_info | intros _].
  apply obeys_bind; [apply obeys_get_prs, Hq | intros [ps bs]].
  apply obeys_bind; [apply obeys_log_info | intros _].
  apply obeys_for_. intros b. unfold delete_one.
  apply obeys_bind; [apply obeys_get_git_ref | intros g].
  apply obeys_bind; [apply obeys_log_info | intros _].
  destruct (dry_run self) eqn:Hdry; simpl.
  - apply obeys_ret.
  - apply Hdel; reflexivity.
Qed.

End Obeys.

Lemma in_requests (r : Request) (t : list Event) :
  In r (requests t) <-> In (Sent r) t.
Proof.
  unfold requests. rewrite in_flat_map. split.
  - intros [[r' | l | d] [Hin Hr]]; simpl in Hr; try contradiction.
    destruct Hr as [-> | []]. exact Hin.
  - intros Hin. exists (Sent r). split; [exact Hin | left; reflexivity].
Qed.

Lemma in_searches (q : Query) (t : list Event) :
  In q (searches t) <-> exists k, In (Sent (SearchIssues q k)) t.
Proof.
  unfold searches. rewrite in_flat_map. split.
  - intros [r [Hin Hr]]. apply in_requests in Hin.
    destruct r; simpl in Hr; try contradiction.
    destruct Hr as [-> | []]. eexists. exact Hin.
  - intros [k Hin]. exists (SearchIssues q k). split;
      [apply in_requests; exact Hin | left; reflexivity].
Qed.

Lemma in_mutating_calls (r : Request) (t : list Event) :
  In r (mutating_calls t) <-> In (Sent r) t /\ mutating r = true.
Proof.
  unfold mutating_calls. rewrite filter_In, in_requests. reflexivity.
Qed.

(** ** The label driver and git references (C7) *)

Lemma label_stale_branches_only_labels (self : GithubBranchManager) :
  obeys only_labels same_refs (label_stale_branches self).
Proof.
  assert (Hrefl : forall w, same_refs w w) by reflexivity.
  assert (Htrans : forall w1 w2 w3, same_refs w1 w2 -> same_refs w2 w3 -> same_refs w1 w3)
    by (unfold same_refs; congruence).
  apply (obeys_label_stale_branches _ _ Hrefl Htrans).
  - intros l. exact I.
  - intros r Hr _. simpl. congruence.
  - intros repo. split; simpl; discriminate.
  - intros _ p. apply (obeys_set_labels _ _ Hrefl Htrans).
    + simpl. intros _. eexists _, _. reflexivity.
    + intros w. reflexivity.
Qed.

(** C7.  Whatever the manager and the remote state, a run of
    [label_stale_branches] sends no git-reference deletion, leaves every
    git reference of every repository as it was, and the only mutating
    requests it sends are label applications of the pending-deletion
    label. *)
Theorem label_driver_never_deletes (self : GithubBranchManager) (w : World) :
  let o := label_stale_branches self w in
  (forall repo r, ~ In (DeleteGitRef repo r) (requests (trace o))) /\
  (forall repo, git_refs (world o) repo = git_refs w repo) /\
  (forall r, In r (mutating_calls (trace o)) ->
     exists repo n, r = PutLabels repo n ["will-be-deleted-within-a-week"]).
Proof.
  destruct (label_stale_branches_only_labels self w) as [Ht Hw].
  rewrite Forall_forall in Ht. simpl. repeat split.
  - intros repo r Hin. apply in_requests in Hin.
    destruct (Ht _ Hin eq_refl) as (repo' & n & Heq). discriminate.
  - intros repo. unfold same_refs in Hw. rewrite Hw. reflexivity.
  - intros r Hin. apply in_mutating_calls in Hin. destruct Hin as [Hin Hm].
    exact (Ht _ Hin Hm).
Qed.

(** ** One cutoff for a whole run (C9) *)

Lemma drivers_use_end_date (self : GithubBranchManager) :
  obeys (uses_cutoff (end_date self)) any_world (label_stale_branches self) /\
  obeys (uses_cutoff (end_date self)) any_world (delete_stale_branches self).
Proof.
  assert (Hrefl : forall w, any_world w w) by exact (fun _ => I).
  assert (Htrans : forall w1 w2 w3, any_world w1 w2 -> any_world w2 w3 -> any_world w1 w3)
    by exact (fun _ _ _ _ _ => I).
  assert (Hlog : forall l, uses_cutoff (end_date self) (Logged l)) by exact (fun _ => I).
  assert (Hread : forall r, mutating r = false ->
            (forall q k, r <> SearchIssues q k) -> uses_cutoff (end_date self) (Sent r)).
  { intros r _ Hq. destruct r; simpl; auto. exfalso. eapply Hq. reflexivity. }
  assert (Hqs : P_queries (uses_cutoff (end_date self)) self).
  { intros repo k. split; reflexivity. }
  split.
  - apply (obeys_label_stale_branches _ _ Hrefl Htrans Hlog Hread _ Hqs).
    intros _ p. apply (obeys_set_labels _ _ Hrefl Htrans); intros; exact I.
  - apply (obeys_delete_stale_branches _ _ Hrefl Htrans Hlog Hread _ Hqs).
    intros _ g. apply (obeys_delete _ _ Hrefl Htrans); intros; exact I.
Qed.

(** Neither driver reads the clock. *)
Lemma drivers_read_no_clock (self : GithubBranchManager) :
  obeys no_clock any_world (label_stale_branches self) /\
  obeys no_clock any_world (delete_stale_branches self).
Proof.
  assert (Hrefl : forall w, any_world w w) by exact (fun _ => I).
  assert (Htrans : forall w1 w2 w3, any_world w1 w2 -> any_world w2 w3 -> any_world w1 w3)
    by exact (fun _ _ _ _ _ => I).
  assert (Hlog : forall l, no_clock (Logged l)) by exact (fun _ => I).
  assert (Hread : forall r, mutating r = false ->
            (forall q k, r <> SearchIssues q k) -> no_clock (Sent r))
    by exact (fun _ _ _ => I).
  assert (Hqs : P_queries no_clock self) by (intros repo k; split; exact I).
  split.
  - apply (obeys_label_stale_branches _ _ Hrefl Htrans Hlog Hread _ Hqs).
    intros _ p. apply (obeys_set_labels _ _ Hrefl Htrans); intros; exact I.
  - apply (obeys_delete_stale_branches _ _ Hrefl Htrans Hlog Hread _ Hqs).
    intros _ g. apply (obeys_delete _ _ Hrefl Htrans); intros; exact I.
Qed.

Lemma clock_reads_none (t : list Event) : Forall no_clock t -> clock_reads t = [].
Proof.
  induction 1 as [| e t He _ IH]; [reflexivity |].
  destruct e; try contradiction; exact IH.
Qed.

(** ** The cutoff (C8, C9) *)

Lemma neg_new_relativedelta (p : Z) :
  let r := neg (new_relativedelta 0 p) in
  24 * days r + hours r = - p /\ _has_time r = negb (hours r =? 0).
Proof.
  unfold neg, new_relativedelta, _sign.
  destruct (Z.abs p >? 23) eqn:Hbig; cbn [days hours _has_time].
  - pose proof (Z.div_mod (p * (if p <? 0 then -1 else 1)) 24 ltac:(lia)) as Hdm.
    pose proof (Z.mod_pos_bound (p * (if p <? 0 then -1 else 1)) 24 ltac:(lia)) as Hb.
    set (q := (p * (if p <? 0 then -1 else 1)) / 24) in *.
    set (m := (p * (if p <? 0 then -1 else 1)) mod 24) in *.
    assert (Hsmall : (Z.abs (- (m * (if p <? 0 then -1 else 1))) >? 23) = false).
    { rewrite Z.gtb_ltb. apply Z.ltb_ge. destruct (p <? 0); lia. }
    rewrite Hsmall. cbn [days hours _has_time]. split; [| reflexivity].
    destruct (p <? 0) eqn:Hneg; lia.
  - assert (Hsmall : (Z.abs (- p) >? 23) = false)
      by (rewrite Z.gtb_ltb in *; apply Z.ltb_ge; apply Z.ltb_ge in Hbig; lia).
    rewrite Hsmall. cbn [days hours _has_time]. split; [lia | reflexivity].
Qed.

Lemma Ok_inj {A} (a b : A) : Ok a = Ok b -> a = b.
Proof. intros H. injection H. auto. Qed.

Ltac case_if :=
  match goal with
  | |- context [if ?c then _ else _] => destruct c eqn:?
  end.

Lemma rsub_hours (today p : Z) (d : pydate) :
  rsub (new_relativedelta 0 p) (date today) = Ok d ->
  instant d = 24 * today - p.
Proof.
  unfold rsub, add.
  destruct (neg_new_relativedelta p) as [Hsum Htime].
  set (r := neg (new_relativedelta 0 p)) in *. clearbody r.
  unfold add_timedelta. rewrite Htime, Hsum.
  case_if; [discriminate |].
  destruct (hours r =? 0) eqn:Hh; cbn [negb].
  - apply Z.eqb_eq in Hh. case_if; [| discriminate].
    intros H. apply Ok_inj in H. subst d. unfold instant.
    assert (Hp : - p = days r * 24) by lia.
    rewrite Hp, Z.div_mul by lia. lia.
  - case_if; [| discriminate].
    intros H. apply Ok_inj in H. subst d. unfold instant.
    pose proof (Z.div_mod (24 * today + 0 + - p) 24 ltac:(lia)).
    lia.
Qed.

Lemma rsub_returns (today p : Z) :
  0 < today <= _MAXORDINAL ->
  0 < (24 * today - p) / 24 <= _MAXORDINAL ->
  exists d, rsub (new_relativedelta 0 p) (date today) = Ok d.
Proof.
  intros Ht Hr. unfold rsub, add.
  destruct (neg_new_relativedelta p) as [Hsum Htime].
  set (r := neg (new_relativedelta 0 p)) in *. clearbody r.
  unfold add_timedelta. rewrite Htime, Hsum.
  assert (Hshift : (24 * today - p) / 24 = today + (- p) / 24).
  { replace (24 * today - p) with (- p + today * 24) by lia.
    rewrite Z.div_add by lia. lia. }
  unfold _MAXORDINAL, _MAXDELTADAYS in *.
  assert (Hd : (Z.abs (- p / 24) >? 999999999) = false)
    by (rewrite Z.gtb_ltb; apply Z.ltb_ge; lia).
  rewrite Hd. destruct (hours r =? 0); cbn [negb].
  - assert (Hin : (0 <? today + - p / 24) && (today + - p / 24 <=? 3652059) = true)
      by (apply andb_true_intro; split; lia).
    rewrite Hin. eexists. reflexivity.
  - replace (24 * today + 0 + - p) with (24 * today - p) by lia.
    assert (Hin : (0 <? (24 * today - p) / 24) && ((24 * today - p) / 24 <=? 3652059) = true)
      by (apply andb_true_intro; split; lia).
    rewrite Hin. eexists. reflexivity.
Qed.

Lemma authenticated_run (github_obj : string) (w : World) :
  authenticated github_obj w =
  mk_out (if accepts_token w github_obj then Ok tt else Raise BadCredentialsException)
         w [].
Proof.
  unfold authenticated, read, bind. cbn [value world trace].
  destruct (accepts_token w github_obj); reflexivity.
Qed.

Lemma served_run (r : Request) (w : World) :
  served r w =
  mk_out (match refusal w r with
          | Some status => Raise (GithubException status)
          | None => Ok tt
          end) w [].
Proof.
  unfold served, read, bind. cbn [value world trace].
  destruct (refusal w r); reflexivity.
Qed.

(** What the host answers to a request made with a token, before it
    looks at what is asked for. *)
Lemma get_organization_run (github_obj org_name : string) (w : World) :
  get_organization github_obj org_name w =
  mk_out (if accepts_token w github_obj then
            match refusal w (GetOrganization org_name) with
            | Some status => Raise (GithubException status)
            | None =>
                match organizations w org_name with
                | Some _ => Ok org_name
                | None => Raise UnknownObjectException
                end
            end
          else Raise BadCredentialsException)
         w [Sent (GetOrganization org_name)].
Proof.
  unfold get_organization. run_with send_run. run_with authenticated_run.
  destruct (accepts_token w github_obj); [| reflexivity].
  run_with served_run.
  destruct (refusal w (GetOrganization org_name)); [reflexivity |].
  run_with @read_run.
  destruct (organizations w org_name); reflexivity.
Qed.

Lemma date_today_run (w : World) :
  date_today w = mk_out (Ok (date (today w))) w [ClockRead (today w)].
Proof. reflexivity. Qed.

(** [__init__], step by step: the organization is looked up with the
    token, then the clock is read and the cutoff computed, then the
    line is logged. *)
Lemma init_run (tok org_name : string) (p : Z) (dry : bool) (w : World) :
  __init__ tok org_name p dry w =
  if accepts_token w tok then
    match refusal w (GetOrganization org_name) with
    | Some status =>
        mk_out (Raise (GithubException status)) w [Sent (GetOrganization org_name)]
    | None =>
        match organizations w org_name with
        | None =>
            mk_out (Raise UnknownObjectException) w [Sent (GetOrganization org_name)]
        | Some _ =>
            match rsub (new_relativedelta 0 p) (date (today w)) with
            | Ok d =>
                mk_out (Ok (mk_manager tok org_name d dry)) w
                       [Sent (GetOrganization org_name); ClockRead (today w);
                        Logged (log_initialized org_name p dry)]
            | Raise e =>
                mk_out (Raise e) w
                       [Sent (GetOrganization org_name); ClockRead (today w)]
            end
        end
    end
  else mk_out (Raise BadCredentialsException) w [Sent (GetOrganization org_name)].
Proof.
  unfold __init__. cbv zeta. run_with get_organization_run.
  destruct (accepts_token w tok); [| reflexivity].
  destruct (refusal w (GetOrganization org_name)); [reflexivity |].
  destruct (organizations w org_name) as [repos |]; [| reflexivity].
  run_with date_today_run.
  destruct (rsub (new_relativedelta 0 p) (date (today w))) as [d | e]; reflexivity.
Qed.

(** What a successful [__init__] has done. *)
Lemma init_ok (tok org_name : string) (p : Z) (dry : bool) (w : World)
    (self : GithubBranchManager) :
  value (__init__ tok org_name p dry w) = Ok self ->
  organizations w org_name <> None /\
  rsub (new_relativedelta 0 p) (date (today w)) = Ok (end_date self) /\
  org self = org_name /\ dry_run self = dry /\
  world (__init__ tok org_name p dry w) = w /\
  searches (trace (__init__ tok org_name p dry w)) = [] /\
  mutating_calls (trace (__init__ tok org_name p dry w)) = [] /\
  clock_reads (trace (__init__ tok org_name p dry w)) = [today w] /\
  github_obj self = tok /\ accepts_token w tok = true /\
  refusal w (GetOrganization org_name) = None.
Proof.
  rewrite init_run.
  destruct (accepts_token w tok); [| discriminate].
  destruct (refusal w (GetOrganization org_name)); [discriminate |].
  destruct (organizations w org_name) as [repos |]; [| discriminate].
  destruct (rsub (new_relativedelta 0 p) (date (today w))) as [d | e];
    cbn [value world trace]; [| discriminate].
  intros H. apply Ok_inj in H. subst self. cbn [end_date org dry_run github_obj].
  repeat split. discriminate.
Qed.

(** [__init__] returns a manager whenever the host takes the token and
    serves the lookup, the organization exists, and the current day and
    the cutoff day are days of the calendar. *)
Lemma init_returns (tok org_name : string) (p : Z) (dry : bool) (w : World) :
  accepts_token w tok = true -> refusal w (GetOrganization org_name) = None ->
  organizations w org_name <> None ->
  0 < today w <= _MAXORDINAL ->
  0 < (24 * today w - p) / 24 <= _MAXORDINAL ->
  exists self, value (__init__ tok org_name p dry w) = Ok self.
Proof.
  intros Htok Hserved Horg Ht Hr.
  destruct (rsub_returns (today w) p Ht Hr) as [d Hd].
  rewrite init_run, Htok, Hserved, Hd.
  destruct (organizations w org_name) as [repos |]; [| contradiction].
  eexists. reflexivity.
Qed.

(** C8.  The cutoff a manager is initialized with is the midnight that
    starts the current day minus [date_period] hours.  For a positive
    period it is therefore later than the current day minus 28 times as
    many days, the least that as many months could be. *)
Theorem cutoff_is_today_minus_hours (tok org_name : string) (date_period : Z)
    (dry : bool) (w : World) (self : GithubBranchManager) :
  value (__init__ tok org_name date_period dry w) = Ok self ->
  instant (end_date self) = 24 * today w - date_period /\
  (0 < date_period -> 24 * (today w - 28 * date_period) < instant (end_date self)).
Proof.
  intros H. apply init_ok in H. destruct H as (_ & Hend & _).
  apply rsub_hours in Hend. split; [exact Hend | lia].
Qed.

Lemma cutoff_is_today_minus_hours_witness :
  value (__init__ "token" "acme" 12 false Scenario.world_A)
  = Ok (mk_manager "token" "acme" (datetime 738999 12) false) /\
  instant (datetime 738999 12) = 24 * 739000 - 12.
Proof.
  split; [reflexivity |].
  exact (proj1 (cutoff_is_today_minus_hours "token" "acme" 12 false Scenario.world_A
                  (mk_manager "token" "acme" (datetime 738999 12) false) eq_refl)).
Defined.

Lemma driver_searches (self : GithubBranchManager) (w : World) (q : Query) :
  In q (searches (trace (label_stale_branches self w))) \/
  In q (searches (trace (delete_stale_branches self w))) ->
  cutoffs q = [end_date self].
Proof.
  destruct (drivers_use_end_date self) as [Hl Hd].
  intros [Hin | Hin]; apply in_searches in Hin; destruct Hin as [k Hin].
  - destruct (Hl w) as [Ht _]. rewrite Forall_forall in Ht. exact (Ht _ Hin).
  - destruct (Hd w) as [Ht _]. rewrite Forall_forall in Ht. exact (Ht _ Hin).
Qed.

Lemma driver_clock_reads (self : GithubBranchManager) (w : World) :
  clock_reads (trace (label_stale_branches self w)) = [] /\
  clock_reads (trace (delete_stale_branches self w)) = [].
Proof.
  destruct (drivers_read_no_clock self) as [Hl Hd].
  split; apply clock_reads_none; [apply (Hl w) | apply (Hd w)].
Qed.

(** C9.  In a run of the script the cutoff is computed once, by
    [__init__], and not again.  The run reads the clock once, while the
    manager is initialized; the cutoff is the midnight the clock showed
    then minus the period; and every query the run sends, for whichever
    repository and page, compares creation times with that [end_date].
    The drivers themselves, whatever the state they are run in, never
    read the clock, and put the [end_date] of their manager in every
    query they send. *)
Theorem cutoff_fixed_at_initialization (tok action org_name : string)
    (date_period : Z) (dry : bool) (w : World) (self : GithubBranchManager) :
  value (__init__ tok org_name date_period dry w) = Ok self ->
  let run := main tok action org_name date_period dry w in
  instant (end_date self) = 24 * today w - date_period /\
  clock_reads (trace run) = [today w] /\
  clock_reads (trace (__init__ tok org_name date_period dry w)) = [today w] /\
  (forall q, In q (searches (trace run)) -> cutoffs q = [end_date self]) /\
  (forall w',
     clock_reads (trace (label_stale_branches self w')) = [] /\
     clock_reads (trace (delete_stale_branches self w')) = [] /\
     (forall q, In q (searches (trace (label_stale_branches self w'))) \/
                In q (searches (trace (delete_stale_branches self w'))) ->
                cutoffs q = [end_date self])).
Proof.
  intros Hinit. cbv zeta.
  destruct (init_ok _ _ _ _ _ _ Hinit) as (_ & Hsub & _ & _ & _ & Hs & _ & Hclock & _).
  split; [exact (rsub_hours _ _ _ Hsub) |].
  assert (Hdrivers : forall w',
            clock_reads (trace (label_stale_branches self w')) = [] /\
            clock_reads (trace (delete_stale_branches self w')) = [] /\
            (forall q, In q (searches (trace (label_stale_branches self w'))) \/
                       In q (searches (trace (delete_stale_branches self w'))) ->
                       cutoffs q = [end_date self])).
  { intros w'. destruct (driver_clock_reads self w') as [Hl Hd].
    split; [exact Hl |]. split; [exact Hd |]. intros q. apply driver_searches. }
  unfold main. rewrite (bind_ok _ _ _ _ Hinit). cbn [trace].
  set (w1 := world (__init__ tok org_name date_period dry w)).
  destruct (Hdrivers w1) as (Hl & Hd & Hq).
  rewrite clock_reads_app, Hclock.
  split; [| split; [reflexivity | split; [| exact Hdrivers]]].
  - destruct (action =? "label")%string; [rewrite Hl; reflexivity |].
    destruct (action =? "delete")%string; [rewrite Hd; reflexivity | reflexivity].
  - intros q Hin. rewrite searches_app, Hs in Hin. cbn [app] in Hin.
    apply Hq.
    destruct (action =? "label")%string; [left; exact Hin |].
    destruct (action =? "delete")%string; [right; exact Hin |].
    destruct Hin.
Qed.

Lemma cutoff_fixed_at_initialization_witness :
  instant (date 738635) = 24 * 739000 - 8760 /\
  clock_reads (trace (main "token" "delete" "acme" 8760 true Scenario.world_A))
  = [739000].
Proof.
  pose proof (cutoff_fixed_at_initialization "token" "delete" "acme" 8760 true
                Scenario.world_A (mk_manager "token" "acme" (date 738635) true)
                eq_refl) as H.
  exact (conj (proj1 H) (proj1 (proj2 H))).
Defined.

(** ** The staleness filter (C1, C2, C3) *)

Lemma in_search_numbers (w : World) (q : Query) (ns : list Z) (x : Issue) :
  In x (search_numbers w q ns) <->
  issue_repo x = q_repo q /\ In (issue_number x) ns /\
  issue_at w (q_repo q) (issue_number x) = Some (issue_item x) /\
  matches q (issue_item x) = true.
Proof.
  induction ns as [| n ns IH]; simpl.
  - split; [intros [] | intros (_ & [] & _)].
  - destruct (issue_at w (q_repo q) n) as [it |] eqn:Hat.
    + destruct (matches q it) eqn:Hm; simpl; rewrite IH; split.
      * intros [<- | (Hr & Hn & Hi & Hq)]; simpl; auto 6.
      * intros (Hr & [Hn | Hn] & Hi & Hq); auto.
        left. destruct x as [r k i]; simpl in *. subst. congruence.
      * intros (Hr & Hn & Hi & Hq); auto.
      * intros (Hr & [Hn | Hn] & Hi & Hq); auto. subst. congruence.
    + rewrite IH. split.
      * intros (Hr & Hn & Hi & Hq); auto.
      * intros (Hr & [Hn | Hn] & Hi & Hq); auto. subst. congruence.
Qed.

Lemma in_search (w : World) (q : Query) (x : Issue) :
  In x (search w q) <->
  issue_repo x = q_repo q /\ In (issue_number x) (issue_numbers w (q_repo q)) /\
  issue_at w (q_repo q) (issue_number x) = Some (issue_item x) /\
  matches q (issue_item x) = true.
Proof. apply in_search_numbers. Qed.

Lemma py_in_true (x : Issue) (xs : list Issue) :
  py_in x xs = true <-> exists y, In y xs /\ issue_key y = issue_key x.
Proof.
  unfold py_in, issue_eq, issue_key. rewrite existsb_exists. split.
  - intros (y & Hin & Heq). apply andb_prop in Heq. destruct Heq as [Hr Hn].
    apply String.eqb_eq in Hr. apply Z.eqb_eq in Hn. exists y. split; [exact Hin |].
    congruence.
  - intros (y & Hin & Heq). exists y. split; [exact Hin |].
    injection Heq as Hr Hn. rewrite Hr, Hn, String.eqb_refl, Z.eqb_refl. reflexivity.
Qed.

Lemma matches_older (self : GithubBranchManager) (repo : Repository) (it : Item) :
  matches (query_older_issues self repo) it = true <->
  is_open it = true /\ created_at it < instant (end_date self).
Proof.
  unfold matches, query_older_issues. simpl.
  rewrite andb_true_r, andb_true_iff, Z.ltb_lt. reflexivity.
Qed.

Lemma matches_labelled (self : GithubBranchManager) (repo : Repository) (it : Item) :
  matches (query_issues_labelled_do_not_delete self repo) it = true <->
  is_open it = true /\ created_at it < instant (end_date self) /\
  has_label "do-not-delete" it = true.
Proof.
  unfold matches, query_issues_labelled_do_not_delete. simpl.
  rewrite andb_true_r, !andb_true_iff, Z.ltb_lt. reflexivity.
Qed.

(** What a candidate is: listed for the repository, open, created before
    the cutoff, and without the protective label. *)
Lemma in_candidates (self : GithubBranchManager) (repo : Repository) (w : World)
    (x : Issue) :
  In x (candidates self repo w) <->
  issue_repo x = full_name repo /\
  In (issue_number x) (issue_numbers w (full_name repo)) /\
  issue_at w (full_name repo) (issue_number x) = Some (issue_item x) /\
  is_open (issue_item x) = true /\
  created_at (issue_item x) < instant (end_date self) /\
  has_label "do-not-delete" (issue_item x) = false.
Proof.
  unfold candidates, issues_to_be_removed.
  rewrite filter_In, in_search, matches_older, negb_true_iff.
  change (q_repo (query_older_issues self repo)) with (full_name repo).
  split.
  - intros ((Hr & Hn & Hat & Hopen & Hold) & Hnot). repeat (split; [assumption |]).
    destruct (has_label "do-not-delete" (issue_item x)) eqn:Hl; [| reflexivity].
    assert (Hin : py_in x (search w (query_issues_labelled_do_not_delete self repo)) = true).
    { apply py_in_true. exists x. split; [| reflexivity].
      apply in_search. rewrite matches_labelled. auto 8. }
    congruence.
  - intros (Hr & Hn & Hat & Hopen & Hold & Hl). split; [auto |].
    destruct (py_in x (search w (query_issues_labelled_do_not_delete self repo))) eqn:Hin;
      [| reflexivity].
    apply py_in_true in Hin. destruct Hin as (y & Hy & Hkey).
    apply in_search in Hy. rewrite matches_labelled in Hy.
    change (q_repo (query_issues_labelled_do_not_delete self repo))
      with (full_name repo) in Hy.
    destruct Hy as (_ & _ & Hyat & _ & _ & Hyl).
    unfold issue_key in Hkey. injection Hkey as _ Hnum.
    rewrite Hnum, Hat in Hyat.
    assert (Heq : issue_item x = issue_item y) by congruence.
    rewrite <- Heq, Hl in Hyl. discriminate.
Qed.

(** *** How the client calls run *)

(** The pages of a list, one after the other, make up the list. *)
Lemma pages_concat {A} (n : nat) :
  forall (xs : list A),
    (List.length xs <= per_page * n)%nat ->
    List.concat (map (fun k => page_of k xs) (seq 1 n)) = xs.
Proof.
  unfold page_of, per_page. induction n as [| n IH]; intros xs Hlen.
  - destruct xs; [reflexivity | cbn in Hlen; lia].
  - cbn [seq map List.concat]. rewrite <- seq_shift, map_map.
    replace (30 * (1 - 1))%nat with 0%nat by lia. cbn [skipn].
    transitivity (firstn 30 xs ++ skipn 30 xs)%list; [| apply firstn_skipn].
    f_equal. rewrite <- (IH (skipn 30 xs)) at 1 by (rewrite length_skipn; lia).
    f_equal. apply map_ext_in. intros k Hk. apply in_seq in Hk.
    rewrite skipn_skipn. f_equal. f_equal. lia.
Qed.

Lemma page_count_covers (n : nat) : (n <= per_page * page_count n)%nat.
Proof.
  unfold page_count, per_page.
  pose proof (Nat.div_mod_eq (n + 29) 30) as Hdm.
  pose proof (Nat.mod_upper_bound (n + 29) 30 ltac:(lia)) as Hb.
  lia.
Qed.

Lemma get_page_run (github_obj : string) (q : Query) (k : nat) (w : World) :
  get_page github_obj q k w =
  mk_out (match page_error w github_obj q k with
          | Some e => Raise e
          | None => Ok (page_of k (search w q))
          end) w [Sent (SearchIssues q k)].
Proof.
  unfold get_page, page_error. run_with send_run. run_with authenticated_run.
  destruct (accepts_token w github_obj); [| reflexivity].
  run_with served_run.
  destruct (refusal w (SearchIssues q k)); reflexivity.
Qed.

Lemma search_pages_run (github_obj : string) (q : Query) (w : World) (ks : list nat) :
  forall (hits : list Issue),
    foldM (fun hits k => items <- get_page github_obj q k ;; ret (hits ++ items)%list)
          ks hits w =
    mk_out (match fst (pages_run w github_obj q ks) with
            | Some e => Raise e
            | None => Ok (hits ++ List.concat (map (fun k => page_of k (search w q)) ks))%list
            end) w (snd (pages_run w github_obj q ks)).
Proof.
  induction ks as [| k ks IH]; intros hits.
  - cbn. rewrite app_nil_r. reflexivity.
  - rewrite foldM_cons. rewrite bind_run. rewrite bind_run, get_page_run.
    cbn [value world trace pages_run].
    destruct (page_error w github_obj q k) as [e |]; [reflexivity |].
    cbn [ret value world trace app]. rewrite IH.
    destruct (pages_run w github_obj q ks) as [r t]. cbn [fst snd value world trace].
    destruct r; [reflexivity |]. cbn [map List.concat]. rewrite app_assoc. reflexivity.
Qed.

(** A search that is served on every page returns the whole result. *)
Lemma search_issues_run (github_obj : string) (q : Query) (w : World) :
  search_issues github_obj q w =
  mk_out (match search_error w github_obj q with
          | Some e => Raise e
          | None => Ok (search w q)
          end) w (search_events w github_obj q).
Proof.
  unfold search_issues, search_error, search_events, pages_of.
  run_with @read_run. rewrite search_pages_run. cbn [value world trace app].
  destruct (fst (pages_run w github_obj q
                   (seq 1 (page_count (Datatypes.length (search w q)))))); [reflexivity |].
  cbn [app]. rewrite pages_concat by apply page_count_covers. reflexivity.
Qed.

(** The requests of a search are for pages of its query; a search that
    is served asked for each page of the result once. *)
Lemma pages_run_events (w : World) (github_obj : string) (q : Query) (ks : list nat) :
  (forall e, In e (snd (pages_run w github_obj q ks)) ->
             exists k, e = Sent (SearchIssues q k)) /\
  (fst (pages_run w github_obj q ks) = None ->
   snd (pages_run w github_obj q ks) = map (fun k => Sent (SearchIssues q k)) ks) /\
  (forall e, fst (pages_run w github_obj q ks) = Some e ->
             e = BadCredentialsException \/ exists status, e = GithubException status).
Proof.
  induction ks as [| k ks (IH1 & IH2 & IH3)]; cbn [pages_run].
  - split; [intros e [] | split; [reflexivity | discriminate]].
  - unfold page_error.
    destruct (accepts_token w github_obj).
    + destruct (refusal w (SearchIssues q k)) as [status |]; cbn [option_map].
      * cbn [fst snd]. split; [intros e [<- | []]; eauto |].
        split; [discriminate |]. intros e H. injection H as <-. eauto.
      * destruct (pages_run w github_obj q ks) as [r t]. cbn [fst snd] in *.
        split; [intros e [<- | Hin]; eauto |].
        split; [intros Hr; rewrite (IH2 Hr); reflexivity | exact IH3].
    + cbn [fst snd]. split; [intros e [<- | []]; eauto |].
      split; [discriminate |]. intros e H. injection H as <-. auto.
Qed.

Lemma search_events_sent (w : World) (github_obj : string) (q : Query) (e : Event) :
  In e (search_events w github_obj q) -> exists k, e = Sent (SearchIssues q k).
Proof. apply pages_run_events. Qed.

Lemma search_events_served (w : World) (github_obj : string) (q : Query) :
  search_error w github_obj q = None ->
  search_events w github_obj q = map (fun k => Sent (SearchIssues q k)) (pages_of w q).
Proof. apply pages_run_events. Qed.

Lemma search_error_kind (w : World) (github_obj : string) (q : Query) (e : Exn) :
  search_error w github_obj q = Some e ->
  e = BadCredentialsException \/ exists status, e = GithubException status.
Proof. apply pages_run_events. Qed.

(** What a search leaves in a trace: no mutating request, no log line,
    no reading of the clock, and its query, once for each request. *)
Lemma search_events_readers (w : World) (github_obj : string) (q : Query) :
  mutating_calls (search_events w github_obj q) = [] /\
  log_output (search_events w github_obj q) = [] /\
  clock_reads (search_events w github_obj q) = [] /\
  searches (search_events w github_obj q) =
  repeat q (List.length (search_events w github_obj q)).
Proof.
  pose proof (search_events_sent w github_obj q) as H.
  induction (search_events w github_obj q) as [| e t IH]; [repeat split |].
  destruct (H e (or_introl eq_refl)) as [k ->].
  destruct IH as (IH1 & IH2 & IH3 & IH4); [intros e He; apply H; right; exact He |].
  repeat split; try assumption.
  cbn [List.length repeat]. rewrite <- IH4. reflexivity.
Qed.

Lemma get_branches_totalCount_run (repo : Repository) (w : World) :
  get_branches_totalCount repo w =
  mk_out (Ok (count_branches w (full_name repo))) w [Sent (CountBranches (full_name repo))].
Proof. reflexivity. Qed.

Lemma get_repos_run (o : string) (w : World) :
  get_repos o w =
  mk_out (match organizations w o with
          | Some repos => Ok repos
          | None => Raise UnknownObjectException
          end) w [Sent (ListRepos o)].
Proof.
  unfold get_repos, send, emit, read, bind. cbn [value world trace].
  destruct (organizations w o); reflexivity.
Qed.

Lemma as_pull_request_run (x : Issue) (w : World) :
  as_pull_request x w =
  mk_out (match find_pull w (issue_repo x) (issue_number x) with
          | Some p => Ok p
          | None => Raise UnknownObjectException
          end) w [Sent (GetPull (issue_repo x) (issue_number x))].
Proof.
  unfold as_pull_request, send, emit, read, bind. cbn [value world trace].
  destruct (find_pull w (issue_repo x) (issue_number x)); reflexivity.
Qed.

Lemma get_pull_run (repo : Repository) (n : Z) (w : World) :
  get_pull repo n w =
  mk_out (match find_pull w (full_name repo) n with
          | Some p => Ok p
          | None => Raise UnknownObjectException
          end) w [Sent (GetPull (full_name repo) n)].
Proof.
  unfold get_pull, send, emit, read, bind. cbn [value world trace].
  destruct (find_pull w (full_name repo) n); reflexivity.
Qed.

(** A label application that the host refuses changes nothing. *)
Lemma set_labels_run (p : PullRequest) (ls : list string) (w : World) :
  set_labels p ls w =
  match refusal w (PutLabels (pr_repo p) (number p) ls) with
  | Some status =>
      mk_out (Raise (GithubException status)) w
             [Sent (PutLabels (pr_repo p) (number p) ls)]
  | None =>
      match issue_at w (pr_repo p) (number p) with
      | Some _ =>
          mk_out (Ok tt) (put_labels w (pr_repo p) (number p) ls)
                 [Sent (PutLabels (pr_repo p) (number p) ls)]
      | None =>
          mk_out (Raise UnknownObjectException) w
                 [Sent (PutLabels (pr_repo p) (number p) ls)]
      end
  end.
Proof.
  unfold set_labels. run_with send_run. run_with served_run.
  destruct (refusal w (PutLabels (pr_repo p) (number p) ls)); [reflexivity |].
  unfold read, write, bind. cbn [value world trace].
  destruct (issue_at w (pr_repo p) (number p)); reflexivity.
Qed.

Lemma get_git_ref_run (repo : Repository) (r : string) (w : World) :
  get_git_ref repo r w =
  mk_out (match lookup_ref (git_refs w (full_name repo)) r with
          | Some s => Ok (mk_git_ref (full_name repo) r s)
          | None => Raise UnknownObjectException
          end) w [Sent (GetGitRef (full_name repo) r)].
Proof.
  unfold get_git_ref, send, emit, read, bind. cbn [value world trace].
  destruct (lookup_ref (git_refs w (full_name repo)) r); reflexivity.
Qed.

(** A deletion that the host refuses changes nothing. *)
Lemma delete_run (g : GitRef) (w : World) :
  delete g w =
  match refusal w (DeleteGitRef (ref_repo g) (ref g)) with
  | Some status =>
      mk_out (Raise (GithubException status)) w
             [Sent (DeleteGitRef (ref_repo g) (ref g))]
  | None =>
      match lookup_ref (git_refs w (ref_repo g)) (ref g) with
      | Some _ =>
          mk_out (Ok tt) (remove_ref w (ref_repo g) (ref g))
                 [Sent (DeleteGitRef (ref_repo g) (ref g))]
      | None =>
          mk_out (Raise UnknownObjectException) w
                 [Sent (DeleteGitRef (ref_repo g) (ref g))]
      end
  end.
Proof.
  unfold delete. run_with send_run. run_with served_run.
  destruct (refusal w (DeleteGitRef (ref_repo g) (ref g))); [reflexivity |].
  unfold read, write, bind. cbn [value world trace].
  destruct (lookup_ref (git_refs w (ref_repo g)) (ref g)); reflexivity.
Qed.

Lemma find_pull_some (w : World) (repo : string) (n : Z) (p : PullRequest) :
  find_pull w repo n = Some p <->
  pr_repo p = repo /\ number p = n /\
  issue_at w repo n = Some (pr_item p) /\ head (pr_item p) = Some (head_ref p).
Proof.
  unfold find_pull. split.
  - destruct (issue_at w repo n) as [it |]; [| discriminate].
    destruct (head it) as [b |] eqn:Hb; [| discriminate].
    intros H. injection H as <-. simpl. auto.
  - intros (Hr & Hn & Hi & Hh). rewrite Hi, Hh.
    destruct p; simpl in *; subst; reflexivity.
Qed.

(** *** The loop that turns the candidates into pull requests *)

Lemma convert_run (ps : list PullRequest) (bs : list string) (x : Issue) (w : World) :
  convert (ps, bs) x w =
  mk_out (match pull_of w x with
          | Some p => Ok ((ps ++ [p])%list, (bs ++ [head_ref p])%list)
          | None => Raise UnknownObjectException
          end) w [Sent (GetPull (issue_repo x) (issue_number x))].
Proof.
  unfold convert, bind, pull_of. rewrite as_pull_request_run. cbn [value world trace].
  destruct (find_pull w (issue_repo x) (issue_number x)); reflexivity.
Qed.

Lemma convert_loop (xs : list Issue) :
  forall (ps : list PullRequest) (bs : list string) (w : World),
    let o := foldM convert xs (ps, bs) w in
    world o = w /\
    mutating_calls (trace o) = [] /\ searches (trace o) = [] /\ log_output (trace o) = [] /\
    match value o with
    | Ok (ps', bs') =>
        exists qs, ps' = (ps ++ qs)%list /\ bs' = (bs ++ map head_ref qs)%list /\
                   Forall2 (fun x p => pull_of w x = Some p) xs qs
    | Raise e =>
        e = UnknownObjectException /\ Exists (fun x => pull_of w x = None) xs
    end.
Proof.
  induction xs as [| x xs IH]; intros ps bs w o.
  - subst o. simpl. repeat split; try reflexivity.
    exists []. rewrite !app_nil_r. repeat split. constructor.
  - subst o. rewrite foldM_cons. unfold bind. rewrite convert_run.
    cbn [value world trace].
    destruct (pull_of w x) as [p |] eqn:Hp.
    + specialize (IH (ps ++ [p])%list (bs ++ [head_ref p])%list w).
      cbn zeta in IH. destruct IH as (Hw & Hm & Hs & Hl & Hv).
      cbn [value world trace].
      rewrite mutating_calls_app, searches_app, log_output_app, Hm, Hs, Hl.
      repeat split; try assumption.
      destruct (value (foldM convert xs ((ps ++ [p])%list, (bs ++ [head_ref p])%list) w))
        as [[ps' bs'] | e].
      * destruct Hv as (qs & -> & -> & Hall). exists (p :: qs).
        rewrite <- !app_assoc. repeat split. constructor; assumption.
      * destruct Hv as [-> Hex]. split; [reflexivity |]. right. exact Hex.
    + cbn [value world trace]. repeat split. left. exact Hp.
Qed.

(** *** What the filter returns *)

(** The filter, step by step: the two searches, each read to the end or
    until the host does not serve a page, then the log line, then the
    conversions. *)
Lemma get_prs_eq (self : GithubBranchManager) (repo : Repository) (w : World) :
  get_prs_branches_to_be_deleted self repo w =
  let older := query_older_issues self repo in
  let protected := query_issues_labelled_do_not_delete self repo in
  let t1 := search_events w (github_obj self) older in
  let t2 := search_events w (github_obj self) protected in
  match search_error w (github_obj self) older with
  | Some e => mk_out (Raise e) w t1
  | None =>
      match search_error w (github_obj self) protected with
      | Some e => mk_out (Raise e) w (t1 ++ t2)
      | None =>
          let c := foldM convert (candidates self repo w) ([], []) w in
          mk_out (value c) w
                 (t1 ++ t2 ++ [Logged (log_getting_branches (name repo))] ++ trace c)
      end
  end.
Proof.
  unfold get_prs_branches_to_be_deleted. cbv zeta.
  run_with search_issues_run.
  destruct (search_error w (github_obj self) (query_older_issues self repo));
    [reflexivity |].
  run_with search_issues_run.
  destruct (search_error w (github_obj self)
              (query_issues_labelled_do_not_delete self repo)); [reflexivity |].
  run_with log_info_run. fold (candidates self repo w).
  destruct (convert_loop (candidates self repo w) [] [] w) as (Hw & _).
  cbv zeta in Hw. rewrite Hw. reflexivity.
Qed.

Lemma get_prs_run (self : GithubBranchManager) (repo : Repository) (w : World) :
  let o := get_prs_branches_to_be_deleted self repo w in
  let older := query_older_issues self repo in
  let protected := query_issues_labelled_do_not_delete self repo in
  world o = w /\
  mutating_calls (trace o) = [] /\
  (forall q, In q (searches (trace o)) -> q = older \/ q = protected) /\
  incl (log_output (trace o)) [log_getting_branches (name repo)] /\
  match value o with
  | Ok (ps, bs) =>
      bs = map head_ref ps /\
      Forall2 (fun x p => pull_of w x = Some p) (candidates self repo w) ps
  | Raise e =>
      search_error w (github_obj self) older = Some e \/
      (search_error w (github_obj self) older = None /\
       search_error w (github_obj self) protected = Some e) \/
      (search_error w (github_obj self) older = None /\
       search_error w (github_obj self) protected = None /\
       e = UnknownObjectException /\
       Exists (fun x => pull_of w x = None) (candidates self repo w))
  end.
Proof.
  cbv zeta. rewrite get_prs_eq. cbv zeta.
  destruct (search_events_readers w (github_obj self) (query_older_issues self repo))
    as (Hm1 & Hl1 & _ & Hs1).
  destruct (search_events_readers w (github_obj self)
              (query_issues_labelled_do_not_delete self repo)) as (Hm2 & Hl2 & _ & Hs2).
  assert (Hq1 : forall q, In q (searches (search_events w (github_obj self)
                                            (query_older_issues self repo))) ->
                          q = query_older_issues self repo)
    by (intros q Hq; rewrite Hs1 in Hq; exact (repeat_spec _ _ _ Hq)).
  assert (Hq2 : forall q, In q (searches (search_events w (github_obj self)
                                            (query_issues_labelled_do_not_delete self repo))) ->
                          q = query_issues_labelled_do_not_delete self repo)
    by (intros q Hq; rewrite Hs2 in Hq; exact (repeat_spec _ _ _ Hq)).
  destruct (search_error w (github_obj self) (query_older_issues self repo)) as [e1 |];
    cbn [value world trace].
  { rewrite Hl1. repeat split; auto using incl_nil_l. }
  destruct (search_error w (github_obj self)
              (query_issues_labelled_do_not_delete self repo)) as [e2 |];
    cbn [value world trace].
  { rewrite mutating_calls_app, log_output_app, Hm1, Hm2, Hl1, Hl2.
    repeat split; auto using incl_nil_l.
    intros q Hq. rewrite searches_app in Hq. apply in_app_or in Hq.
    destruct Hq; auto. }
  destruct (convert_loop (candidates self repo w) [] [] w) as (Hw & Hm & Hs & Hl & Hv).
  cbv zeta in Hw, Hm, Hs, Hl, Hv.
  rewrite !mutating_calls_app, !log_output_app, Hm1, Hm2, Hl1, Hl2, Hm, Hl.
  split; [reflexivity |]. split; [reflexivity |]. split; [| split].
  - intros q Hq. rewrite !searches_app, Hs, app_nil_r in Hq. cbn [searches requests
      flat_map app] in Hq. apply in_app_or in Hq. destruct Hq; auto.
  - apply incl_refl.
  - destruct (value (foldM convert (candidates self repo w) ([], []) w)) as [[ps bs] | e].
    + destruct Hv as (qs & -> & -> & Hall). split; [reflexivity | exact Hall].
    + right. right. tauto.
Qed.

Lemma get_prs_ok (self : GithubBranchManager) (repo : Repository) (w : World)
    (ps : list PullRequest) (bs : list string) :
  value (get_prs_branches_to_be_deleted self repo w) = Ok (ps, bs) ->
  bs = map head_ref ps /\
  Forall2 (fun x p => pull_of w x = Some p) (candidates self repo w) ps.
Proof.
  intros H. destruct (get_prs_run self repo w) as (_ & _ & _ & _ & Hv).
  cbv zeta in Hv. rewrite H in Hv. exact Hv.
Qed.

(** What a filter that returned has sent and logged: each page of the
    "older" result, then each page of the "protected" result, and one
    line. *)
Lemma get_prs_ok_trace (self : GithubBranchManager) (repo : Repository) (w : World)
    (ps : list PullRequest) (bs : list string) :
  value (get_prs_branches_to_be_deleted self repo w) = Ok (ps, bs) ->
  search_error w (github_obj self) (query_older_issues self repo) = None /\
  search_error w (github_obj self) (query_issues_labelled_do_not_delete self repo)
  = None /\
  searches (trace (get_prs_branches_to_be_deleted self repo w)) =
  (repeat (query_older_issues self repo)
     (List.length (pages_of w (query_older_issues self repo))) ++
   repeat (query_issues_labelled_do_not_delete self repo)
     (List.length (pages_of w (query_issues_labelled_do_not_delete self repo))))%list /\
  log_output (trace (get_prs_branches_to_be_deleted self repo w)) =
  [log_getting_branches (name repo)].
Proof.
  rewrite get_prs_eq. cbv zeta.
  destruct (search_events_readers w (github_obj self) (query_older_issues self repo))
    as (_ & Hl1 & _ & Hs1).
  destruct (search_events_readers w (github_obj self)
              (query_issues_labelled_do_not_delete self repo)) as (_ & Hl2 & _ & Hs2).
  pose proof (search_events_served w (github_obj self) (query_older_issues self repo))
    as He1.
  pose proof (search_events_served w (github_obj self)
                (query_issues_labelled_do_not_delete self repo)) as He2.
  destruct (search_error w (github_obj self) (query_older_issues self repo));
    [discriminate |].
  destruct (search_error w (github_obj self)
              (query_issues_labelled_do_not_delete self repo)); [discriminate |].
  cbn [value trace]. intros Hok.
  destruct (convert_loop (candidates self repo w) [] [] w) as (_ & _ & Hs & Hl & _).
  cbv zeta in Hs, Hl.
  rewrite !searches_app, !log_output_app, Hs, Hl, Hs1, Hs2, Hl1, Hl2,
    (He1 eq_refl), (He2 eq_refl), !length_map, app_nil_r.
  repeat split.
Qed.

(** The filter returns exactly when both searches are served and every
    candidate is a pull request. *)
Lemma get_prs_returns (self : GithubBranchManager) (repo : Repository) (w : World) :
  (search_error w (github_obj self) (query_older_issues self repo) = None /\
   search_error w (github_obj self) (query_issues_labelled_do_not_delete self repo)
   = None /\
   forall x, In x (candidates self repo w) -> head (issue_item x) <> None) <->
  exists ps bs, value (get_prs_branches_to_be_deleted self repo w) = Ok (ps, bs).
Proof.
  destruct (get_prs_run self repo w) as (_ & _ & _ & _ & Hv). cbv zeta in Hv. split.
  - intros (H1 & H2 & Hall).
    destruct (value (get_prs_branches_to_be_deleted self repo w)) as [[ps bs] | e].
    + eauto.
    + destruct Hv as [Hv | [[_ Hv] | (_ & _ & _ & Hex)]]; [congruence | congruence |].
      apply Exists_exists in Hex.
      destruct Hex as (x & Hin & Hnone). exfalso. apply (Hall x Hin).
      apply in_candidates in Hin. destruct Hin as (Hr & _ & Hat & _).
      unfold pull_of, find_pull in Hnone. rewrite Hr, Hat in Hnone.
      destruct (head (issue_item x)); [discriminate | reflexivity].
  - intros (ps & bs & Hok).
    destruct (get_prs_ok_trace _ _ _ _ _ Hok) as (H1 & H2 & _).
    split; [exact H1 |]. split; [exact H2 |]. intros x Hin Hnone.
    rewrite Hok in Hv. destruct Hv as [_ Hall].
    assert (Hsome : exists p, pull_of w x = Some p).
    { clear - Hall Hin. induction Hall as [| y p ys ps' Hp _ IH]; [destruct Hin |].
      destruct Hin as [-> | Hin]; eauto. }
    destruct Hsome as [p Hp]. apply in_candidates in Hin.
    destruct Hin as (Hr & _ & Hat & _).
    unfold pull_of, find_pull in Hp. rewrite Hr, Hat, Hnone in Hp. discriminate.
Qed.

Lemma Forall2_in_r {A B} (R : A -> B -> Prop) (xs : list A) (ys : list B) (y : B) :
  Forall2 R xs ys -> In y ys -> exists x, In x xs /\ R x y.
Proof.
  intros H. induction H as [| x' y' xs' ys' Hxy _ IH]; intros Hin; [destruct Hin |].
  destruct Hin as [-> | Hin].
  - exists x'. split; [left; reflexivity | exact Hxy].
  - destruct (IH Hin) as (x & Hx & Hr). exists x. split; [right; exact Hx | exact Hr].
Qed.

(** A pull request the filter returns is the pull request of a candidate:
    same repository, same number, same item. *)
Lemma returned_pull (self : GithubBranchManager) (repo : Repository) (w : World)
    (ps : list PullRequest) (bs : list string) (p : PullRequest) :
  value (get_prs_branches_to_be_deleted self repo w) = Ok (ps, bs) ->
  In p ps ->
  exists x, In x (candidates self repo w) /\
            pull_key p = issue_key x /\ pr_item p = issue_item x /\
            head (pr_item p) = Some (head_ref p).
Proof.
  intros Hok Hin. destruct (get_prs_ok _ _ _ _ _ Hok) as [_ Hall].
  destruct (Forall2_in_r _ _ _ _ Hall Hin) as (x & Hx & Hp).
  exists x. split; [exact Hx |].
  apply find_pull_some in Hp. destruct Hp as (Hr & Hn & Hat & Hh).
  apply in_candidates in Hx. destruct Hx as (Hxr & _ & Hxat & _).
  rewrite Hxr, Hxat in Hat. unfold pull_key, issue_key.
  repeat split; congruence.
Qed.

(** C1.  An issue that carries [do-not-delete] when the filter runs is
    not in the candidate set and not among the pull requests returned,
    whether or not it is old enough.  The exclusion goes by the entity:
    an instance of the "older" result is dropped as soon as the
    "protected" result holds an instance of the same repository and
    number, whatever else the two instances hold. *)
Theorem protected_issue_never_candidate (self : GithubBranchManager)
    (repo : Repository) (w : World) (n : Z) (it : Item) :
  issue_at w (full_name repo) n = Some it ->
  has_label "do-not-delete" it = true ->
  (forall x, In x (candidates self repo w) -> issue_number x <> n) /\
  (forall ps bs, value (get_prs_branches_to_be_deleted self repo w) = Ok (ps, bs) ->
     forall p, In p ps -> number p <> n) /\
  (forall older prot x y, In y prot -> issue_key y = issue_key x ->
     ~ In x (issues_to_be_removed older prot)).
Proof.
  intros Hat Hlabel.
  assert (Hcand : forall x, In x (candidates self repo w) -> issue_number x <> n).
  { intros x Hin Hn. apply in_candidates in Hin.
    destruct Hin as (_ & _ & Hxat & _ & _ & Hxl). rewrite Hn, Hat in Hxat.
    injection Hxat as Heq. rewrite <- Heq, Hlabel in Hxl. discriminate. }
  split; [exact Hcand |]. split.
  - intros ps bs Hok p Hin Hn.
    destruct (returned_pull _ _ _ _ _ _ Hok Hin) as (x & Hx & Hkey & _).
    apply (Hcand x Hx). unfold pull_key, issue_key in Hkey. congruence.
  - intros older prot x y Hy Hkey Hin. unfold issues_to_be_removed in Hin.
    apply filter_In in Hin. destruct Hin as [_ Hnot].
    assert (Hp : py_in x prot = true) by (apply py_in_true; eauto).
    rewrite Hp in Hnot. discriminate.
Qed.

Lemma protected_issue_never_candidate_witness :
  (forall x, In x (candidates (Scenario.manager false) Scenario.repo_a Scenario.world_B) ->
     issue_number x <> 2) /\
  (forall ps bs,
     value (get_prs_branches_to_be_deleted (Scenario.manager false) Scenario.repo_a
              Scenario.world_B) = Ok (ps, bs) ->
     forall p, In p ps -> number p <> 2) /\
  (forall older prot x y, In y prot -> issue_key y = issue_key x ->
     ~ In x (issues_to_be_removed older prot)).
Proof.
  apply (protected_issue_never_candidate (Scenario.manager false) Scenario.repo_a
           Scenario.world_B 2 (Scenario.pr ["do-not-delete"] "feature-2")).
  - reflexivity.
  - reflexivity.
Defined.

(** C2.  Every candidate is open and was created strictly before the
    cutoff, and so is every pull request the filter returns; none has a
    creation time at or after the cutoff. *)
Theorem returned_pulls_older_than_cutoff (self : GithubBranchManager)
    (repo : Repository) (w : World) (ps : list PullRequest) (bs : list string) :
  value (get_prs_branches_to_be_deleted self repo w) = Ok (ps, bs) ->
  (forall x, In x (candidates self repo w) ->
     is_open (issue_item x) = true /\
     created_at (issue_item x) < instant (end_date self)) /\
  (forall p, In p ps ->
     issue_at w (full_name repo) (number p) = Some (pr_item p) /\
     is_open (pr_item p) = true /\
     created_at (pr_item p) < instant (end_date self)).
Proof.
  intros Hok. split.
  - intros x Hin. apply in_candidates in Hin. tauto.
  - intros p Hin.
    destruct (returned_pull _ _ _ _ _ _ Hok Hin) as (x & Hx & Hkey & Hitem & _).
    apply in_candidates in Hx. destruct Hx as (Hr & _ & Hat & Hopen & Hold & _).
    unfold pull_key, issue_key in Hkey. injection Hkey as _ Hn.
    rewrite Hn, Hitem. auto.
Qed.

Lemma returned_pulls_older_than_cutoff_witness :
  Forall (fun p => created_at (pr_item p) < 24 * (739000 - 365))
    [mk_pull "acme/a" 1 (Scenario.pr [] "feature-1") "feature-1";
     mk_pull "acme/a" 3 (Scenario.pr [] "feature-3") "feature-3"].
Proof.
  apply Forall_forall. intros p Hin.
  apply (proj2 (returned_pulls_older_than_cutoff (Scenario.manager false)
                  Scenario.repo_a Scenario.world_B _ _ eq_refl) p Hin).
Defined.

Lemma Forall2_keys (w : World) (xs : list Issue) (ps : list PullRequest) :
  Forall2 (fun x p => pull_of w x = Some p) xs ps ->
  map pull_key ps = map issue_key xs.
Proof.
  intros H. induction H as [| x p xs ps Hp _ IH]; [reflexivity |].
  simpl. rewrite IH. apply find_pull_some in Hp. destruct Hp as (Hr & Hn & _).
  unfold pull_key, issue_key. rewrite Hr, Hn. reflexivity.
Qed.

(** C3.  The two lists the filter returns have the same length, the
    branch at each index is the head branch of the pull request at that
    index, and the pull requests are the entities of the "older" result
    in its order, with those of the "protected" result left out. *)
Theorem returned_lists_aligned (self : GithubBranchManager)
    (repo : Repository) (w : World) (ps : list PullRequest) (bs : list string) :
  value (get_prs_branches_to_be_deleted self repo w) = Ok (ps, bs) ->
  List.length ps = List.length bs /\
  (forall i p, nth_error ps i = Some p -> nth_error bs i = Some (head_ref p)) /\
  map pull_key ps =
  map issue_key
    (filter (fun x => negb (py_in x (search w (query_issues_labelled_do_not_delete self repo))))
       (search w (query_older_issues self repo))).
Proof.
  intros Hok. destruct (get_prs_ok _ _ _ _ _ Hok) as [-> Hall].
  split; [symmetry; apply length_map |]. split.
  - intros i p Hp. apply map_nth_error. exact Hp.
  - apply (Forall2_keys w). exact Hall.
Qed.

Lemma returned_lists_aligned_witness :
  List.length
    [mk_pull "acme/a" 1 (Scenario.pr [] "feature-1") "feature-1";
     mk_pull "acme/a" 3 (Scenario.pr [] "feature-3") "feature-3"]
  = List.length ["feature-1"; "feature-3"].
Proof.
  exact (proj1 (returned_lists_aligned (Scenario.manager false) Scenario.repo_a
                  Scenario.world_B _ _ eq_refl)).
Defined.

(** ** A reference that is gone (C5) *)

Lemma for_cons {A} (x : A) (xs : list A) (body : A -> M unit) (w : World) :
  for_ (x :: xs) body w =
  match value (body x w) with
  | Ok _ =>
      mk_out (value (for_ xs body (world (body x w))))
             (world (for_ xs body (world (body x w))))
             (trace (body x w) ++ trace (for_ xs body (world (body x w))))
  | Raise e => mk_out (Raise e) (world (body x w)) (trace (body x w))
  end.
Proof.
  unfold for_. rewrite foldM_cons. unfold bind.
  destruct (value (body x w)) as [[] | e]; reflexivity.
Qed.

(** An exception in the body of a [for] loop ends the loop: the items
    after the failing one are not run. *)
Lemma for_abort {A} (body : A -> M unit) (xs1 : list A) (x : A) (xs2 : list A) :
  forall (w : World) (e : Exn),
    value (for_ xs1 body w) = Ok tt ->
    value (body x (world (for_ xs1 body w))) = Raise e ->
    for_ (xs1 ++ x :: xs2) body w =
    mk_out (Raise e)
           (world (body x (world (for_ xs1 body w))))
           (trace (for_ xs1 body w) ++ trace (body x (world (for_ xs1 body w)))).
Proof.
  induction xs1 as [| x1 xs1 IH]; intros w e Hok Hraise.
  - cbn [app]. rewrite for_cons. cbn in Hraise |- *. rewrite Hraise. reflexivity.
  - cbn [app].
    pose proof (for_cons x1 xs1 body w) as E1.
    pose proof (for_cons x1 (xs1 ++ x :: xs2) body w) as E2.
    destruct (value (body x1 w)) as [[] | e1].
    + rewrite E1 in Hok, Hraise |- *. cbn [value world trace] in *.
      rewrite E2, (IH _ e Hok Hraise). cbn [value world trace].
      rewrite app_assoc. reflexivity.
    + rewrite E1 in Hok. discriminate.
Qed.

Lemma delete_one_missing (self : GithubBranchManager) (repo : Repository)
    (b : string) (w : World) :
  lookup_ref (git_refs w (full_name repo)) ("heads/" ++ b) = None ->
  delete_one self repo b w =
  mk_out (Raise UnknownObjectException) w
         [Sent (GetGitRef (full_name repo) ("heads/" ++ b))].
Proof.
  intros H. unfold delete_one, bind. rewrite get_git_ref_run, H. reflexivity.
Qed.

(** C5, as the code has it.  Nothing in the delete driver catches an
    exception.  When the reference of a candidate branch is gone by the
    time it is resolved, the lookup raises the gateway's not-found error
    and the run ends there with that error: the failed lookup is the
    last event, nothing is logged for the branch, and the branches and
    repositories that come after it are not processed. *)
Theorem missing_reference_aborts_delete (self : GithubBranchManager) (w : World)
    (repos1 : list Repository) (repo : Repository) (repos2 : list Repository)
    (ps : list PullRequest) (bs1 : list string) (b : string) (bs2 : list string) :
  organizations w (org self) = Some (repos1 ++ repo :: repos2)%list ->
  value (for_ repos1 (delete_repo self) w) = Ok tt ->
  let w1 := world (for_ repos1 (delete_repo self) w) in
  value (get_prs_branches_to_be_deleted self repo w1) = Ok (ps, (bs1 ++ b :: bs2)%list) ->
  value (for_ bs1 (delete_one self repo) w1) = Ok tt ->
  let w2 := world (for_ bs1 (delete_one self repo) w1) in
  lookup_ref (git_refs w2 (full_name repo)) ("heads/" ++ b) = None ->
  let o := delete_stale_branches self w in
  value o = Raise UnknownObjectException /\
  world o = w2 /\
  exists t, trace o = (t ++ [Sent (GetGitRef (full_name repo) ("heads/" ++ b))])%list.
Proof.
  intros Horg Hrepos w1 Hprs Hbs w2 Hmissing o.
  assert (Hrepo : delete_repo self repo w1 =
                  mk_out (Raise UnknownObjectException) w2
                    (trace (delete_repo self repo w1))
                  /\ exists t, trace (delete_repo self repo w1) =
                       (t ++ [Sent (GetGitRef (full_name repo) ("heads/" ++ b))])%list).
  { destruct (get_prs_run self repo w1) as (Hw & _).
    unfold delete_repo, bind.
    rewrite get_branches_totalCount_run. cbn [value world trace log_info emit].
    rewrite Hprs. cbn [value world trace]. rewrite Hw.
    rewrite (for_abort (delete_one self repo) bs1 b bs2 w1 UnknownObjectException Hbs)
      by (fold w2; rewrite (delete_one_missing _ _ _ _ Hmissing); reflexivity).
    fold w2. rewrite (delete_one_missing _ _ _ _ Hmissing). cbn [value world trace].
    split; [reflexivity |]. eexists. rewrite !app_assoc. reflexivity. }
  destruct Hrepo as [Hrun [t Ht]].
  subst o. unfold delete_stale_branches, bind.
  rewrite get_repos_run, Horg. cbn [value world trace].
  rewrite (for_abort (delete_repo self) repos1 repo repos2 w UnknownObjectException Hrepos)
    by (fold w1; rewrite Hrun; reflexivity).
  fold w1. rewrite Hrun. cbn [value world trace]. repeat split.
  exists (Sent (ListRepos (org self)) :: trace (for_ repos1 (delete_repo self) w) ++ t)%list.
  rewrite Ht. cbn [app]. rewrite <- app_assoc. reflexivity.
Qed.

Lemma missing_reference_aborts_delete_witness :
  let o := delete_stale_branches (Scenario.manager false) Scenario.world_D in
  value o = Raise UnknownObjectException /\
  world o = Scenario.world_D /\
  exists t, trace o = (t ++ [Sent (GetGitRef "acme/a" "heads/feature-1")])%list.
Proof.
  apply (missing_reference_aborts_delete (Scenario.manager false) Scenario.world_D
           [] Scenario.repo_a []
           [mk_pull "acme/a" 1 (Scenario.pr [] "feature-1") "feature-1";
            mk_pull "acme/a" 2 (Scenario.pr ["bug"] "feature-2") "feature-2";
            mk_pull "acme/a" 3 (Scenario.pr [] "feature-3") "feature-3"]
           [] "feature-1" ["feature-2"; "feature-3"]); reflexivity.
Defined.

(** Scenario D of the specification, run on the code: the reference of
    the first candidate is gone, the run raises, and the two remaining
    branches are neither logged nor deleted. *)
Lemma delete_aborts_on_missing_reference :
  let o := delete_stale_branches (Scenario.manager false) Scenario.world_D in
  value o = Raise UnknownObjectException /\
  log_output (trace o) =
    [log_processing "a"; log_total_branches "a" 3; log_getting_branches "a";
     log_deleting_older (date 738635) "a"] /\
  mutating_calls (trace o) = [] /\
  git_refs (world o) "acme/a" =
    [("heads/main", "c0"); ("heads/feature-2", "c2"); ("heads/feature-3", "c3")].
Proof. vm_compute. repeat split. Qed.

(** ** Remote states that differ in labels only *)

Lemma same_entry_refl (o : option Item) : same_entry o o.
Proof. destruct o; simpl; unfold same_item; auto. Qed.

Lemma same_entry_sym (o o' : option Item) : same_entry o o' -> same_entry o' o.
Proof.
  destruct o, o'; simpl; auto. unfold same_item. intros (H1 & H2 & H3 & H4). auto.
Qed.

Lemma same_entry_trans (o1 o2 o3 : option Item) :
  same_entry o1 o2 -> same_entry o2 o3 -> same_entry o1 o3.
Proof.
  destruct o1, o2, o3; simpl; try tauto. unfold same_item.
  intros (H1 & H2 & H3 & H4) (H1' & H2' & H3' & H4'). repeat split; congruence.
Qed.

Lemma relabelled_refl (w : World) : relabelled w w.
Proof. repeat split. intros. apply same_entry_refl. Qed.

Lemma relabelled_sym (w w' : World) : relabelled w w' -> relabelled w' w.
Proof.
  intros ((Ha & Hb) & H1 & H2 & H3 & H4 & H5). repeat split; auto.
  intros. apply same_entry_sym, H5.
Qed.

Lemma relabelled_trans (w1 w2 w3 : World) :
  relabelled w1 w2 -> relabelled w2 w3 -> relabelled w1 w3.
Proof.
  intros ((Ha & Hb) & H1 & H2 & H3 & H4 & H5) ((Ha' & Hb') & H1' & H2' & H3' & H4' & H5').
  repeat split; try congruence.
  intros. eapply same_entry_trans; [apply H5 | apply H5'].
Qed.

Lemma relabelled_issues (w w' : World) : relabelled w w' -> same_issues w w'.
Proof. intros (Hh & _ & _ & H3 & _ & H5). repeat split; try assumption; apply Hh. Qed.

Lemma is_candidate_relabelled (self : GithubBranchManager) (w w' : World)
    (repo : string) (n : Z) :
  same_issues w w' -> is_candidate self w repo n = is_candidate self w' repo n.
Proof.
  intros (_ & _ & H). specialize (H repo n). unfold is_candidate.
  destruct (issue_at w repo n), (issue_at w' repo n); simpl in H; try tauto.
  destruct H as (-> & -> & _ & ->). reflexivity.
Qed.

Lemma unprotected_relabelled (w w' : World) (repo : string) (n : Z) :
  relabelled w w' -> unprotected w repo n -> unprotected w' repo n.
Proof.
  intros (_ & _ & _ & _ & _ & H). specialize (H repo n). unfold unprotected.
  destruct (issue_at w repo n), (issue_at w' repo n); simpl in H; try tauto.
  destruct H as (_ & _ & _ & <-). auto.
Qed.

Lemma is_candidate_unprotected (self : GithubBranchManager) (w : World)
    (repo : string) (n : Z) :
  is_candidate self w repo n = true -> unprotected w repo n.
Proof.
  unfold is_candidate, unprotected. destruct (issue_at w repo n); [| auto].
  intros H. apply andb_prop in H. destruct H as [_ H].
  apply negb_true_iff in H. exact H.
Qed.

Lemma find_pull_relabelled (w w' : World) (repo : string) (n : Z) :
  same_issues w w' ->
  match find_pull w repo n, find_pull w' repo n with
  | Some p, Some p' => pull_key p = pull_key p' /\ head_ref p = head_ref p'
  | None, None => True
  | _, _ => False
  end.
Proof.
  intros (_ & _ & H). specialize (H repo n). unfold find_pull.
  destruct (issue_at w repo n) as [it |], (issue_at w' repo n) as [it' |];
    simpl in H; try tauto.
  destruct H as (_ & _ & Hh & _). rewrite <- Hh.
  destruct (head it); simpl; auto.
Qed.

Lemma count_branches_relabelled (w w' : World) (repo : string) :
  relabelled w w' -> count_branches w repo = count_branches w' repo.
Proof.
  intros (_ & _ & _ & _ & H & _). unfold count_branches. rewrite H. reflexivity.
Qed.

(** Putting the pending-deletion label on an unprotected issue changes
    labels only. *)
Lemma put_labels_relabelled (w : World) (repo : string) (n : Z) :
  unprotected w repo n -> relabelled w (put_labels w repo n stale_label).
Proof.
  intros Hun. repeat split. intros repo' n'. cbn [put_labels issue_at].
  destruct ((repo' =? repo)%string && (n' =? n)) eqn:Hk; [| apply same_entry_refl].
  apply andb_prop in Hk. destruct Hk as [Hr Hn].
  apply String.eqb_eq in Hr. apply Z.eqb_eq in Hn. subst repo' n'.
  unfold unprotected in Hun. destruct (issue_at w repo n) as [it |]; simpl; [| exact I].
  unfold same_item, with_labels. cbn [is_open created_at head]. repeat split.
  rewrite Hun. reflexivity.
Qed.

Lemma map_filter_search_numbers (f : Issue -> bool) (g : Z -> bool) (w : World)
    (q : Query) (ns : list Z) :
  (forall n it, In n ns -> issue_at w (q_repo q) n = Some it -> matches q it = true ->
                f (mk_issue (q_repo q) n it) = g n) ->
  (forall n, In n ns -> g n = true ->
             exists it, issue_at w (q_repo q) n = Some it /\ matches q it = true) ->
  map issue_number (filter f (search_numbers w q ns)) = filter g ns.
Proof.
  induction ns as [| n ns IH]; intros Hf Hg; [reflexivity |].
  cbn [search_numbers filter].
  assert (IH' : map issue_number (filter f (search_numbers w q ns)) = filter g ns).
  { apply IH; intros; [apply Hf | apply Hg]; auto using in_cons. }
  destruct (issue_at w (q_repo q) n) as [it |] eqn:Hat.
  - destruct (matches q it) eqn:Hm.
    + cbn [filter]. rewrite (Hf n it (in_eq _ _) Hat Hm).
      destruct (g n); cbn [map]; rewrite IH'; reflexivity.
    + destruct (g n) eqn:Hgn; [| exact IH'].
      destruct (Hg n (in_eq _ _) Hgn) as (it' & Hat' & Hm'). congruence.
  - destruct (g n) eqn:Hgn; [| exact IH'].
    destruct (Hg n (in_eq _ _) Hgn) as (it' & Hat' & Hm'). congruence.
Qed.

(** For an issue of the "older" result, being in the "protected" result
    is carrying the protective label. *)
Lemma py_in_protected (self : GithubBranchManager) (repo : Repository) (w : World)
    (n : Z) (it : Item) :
  In n (issue_numbers w (full_name repo)) ->
  issue_at w (full_name repo) n = Some it ->
  matches (query_older_issues self repo) it = true ->
  py_in (mk_issue (full_name repo) n it)
        (search w (query_issues_labelled_do_not_delete self repo))
  = has_label "do-not-delete" it.
Proof.
  intros Hn Hat Hm. apply matches_older in Hm. destruct Hm as [Hopen Hold].
  destruct (has_label "do-not-delete" it) eqn:Hl.
  - apply py_in_true. exists (mk_issue (full_name repo) n it). split; [| reflexivity].
    apply in_search. rewrite matches_labelled. cbn. auto 8.
  - destruct (py_in _ _) eqn:Hin; [| reflexivity].
    apply py_in_true in Hin. destruct Hin as (y & Hy & Hkey).
    apply in_search in Hy. rewrite matches_labelled in Hy.
    change (q_repo (query_issues_labelled_do_not_delete self repo))
      with (full_name repo) in Hy.
    destruct Hy as (_ & _ & Hyat & _ & _ & Hyl).
    unfold issue_key in Hkey. cbn in Hkey. injection Hkey as _ Hnum.
    rewrite Hnum, Hat in Hyat. injection Hyat as Heq. rewrite <- Heq, Hl in Hyl.
    discriminate.
Qed.

(** The numbers of the candidates, in the order of the listing. *)
Lemma candidates_numbers (self : GithubBranchManager) (repo : Repository) (w : World) :
  map issue_number (candidates self repo w) =
  filter (is_candidate self w (full_name repo)) (issue_numbers w (full_name repo)).
Proof.
  unfold candidates, issues_to_be_removed, search at 1.
  change (q_repo (query_older_issues self repo)) with (full_name repo).
  apply map_filter_search_numbers;
    change (q_repo (query_older_issues self repo)) with (full_name repo).
  - intros n it Hn Hat Hm. cbv beta.
    fold (search w (query_issues_labelled_do_not_delete self repo)).
    rewrite (py_in_protected _ _ _ _ _ Hn Hat Hm).
    unfold is_candidate. rewrite Hat. apply matches_older in Hm.
    destruct Hm as [-> Hold]. apply Z.ltb_lt in Hold. rewrite Hold. reflexivity.
  - intros n Hn Hc. unfold is_candidate in Hc.
    destruct (issue_at w (full_name repo) n) as [it |]; [| discriminate].
    exists it. split; [reflexivity |]. apply matches_older.
    apply andb_prop in Hc. destruct Hc as [Hc _]. apply andb_prop in Hc.
    destruct Hc as [Hopen Hold]. apply Z.ltb_lt in Hold. auto.
Qed.

Lemma candidates_keys (self : GithubBranchManager) (repo : Repository) (w : World) :
  map issue_key (candidates self repo w) =
  map (pair (full_name repo))
      (filter (is_candidate self w (full_name repo)) (issue_numbers w (full_name repo))).
Proof.
  rewrite <- candidates_numbers, map_map. apply map_ext_in.
  intros x Hin. apply in_candidates in Hin. destruct Hin as (Hr & _).
  unfold issue_key. rewrite Hr. reflexivity.
Qed.

(** The candidate set does not depend on labels other than the
    protective one. *)
Lemma candidates_relabelled (self self' : GithubBranchManager) (repo : Repository)
    (w w' : World) :
  end_date self = end_date self' -> same_issues w w' ->
  map issue_key (candidates self repo w) = map issue_key (candidates self' repo w').
Proof.
  intros Hend Hrel. rewrite !candidates_keys. f_equal.
  destruct Hrel as (Hh & H3 & H5). rewrite <- H3.
  apply filter_ext. intros n.
  rewrite (is_candidate_relabelled self w w') by (repeat split; try assumption; apply Hh).
  unfold is_candidate. rewrite Hend. reflexivity.
Qed.

(** Every candidate is unprotected. *)
Lemma candidates_unprotected (self : GithubBranchManager) (repo : Repository)
    (w : World) (x : Issue) :
  In x (candidates self repo w) -> unprotected w (full_name repo) (issue_number x).
Proof.
  intros Hin. apply in_candidates in Hin. destruct Hin as (_ & _ & Hat & _ & _ & Hl).
  unfold unprotected. rewrite Hat. exact Hl.
Qed.

(** ** The label driver, step by step *)

Lemma label_one_run (self : GithubBranchManager) (repo : Repository)
    (acc : list string) (pr : PullRequest) (w : World) :
  label_one self repo acc pr w =
  match find_pull w (full_name repo) (number pr) with
  | None =>
      mk_out (Raise UnknownObjectException) w
             [Sent (GetPull (full_name repo) (number pr))]
  | Some p =>
      if dry_run self then
        mk_out (Ok acc) w
               [Sent (GetPull (full_name repo) (number pr));
                Logged (log_applying_label (number pr) (name repo))]
      else
        match refusal w (PutLabels (full_name repo) (number pr) stale_label) with
        | Some status =>
            mk_out (Raise (GithubException status)) w
                   [Sent (GetPull (full_name repo) (number pr));
                    Logged (log_applying_label (number pr) (name repo));
                    Sent (PutLabels (full_name repo) (number pr) stale_label)]
        | None =>
            mk_out (Ok (acc ++ [head_ref p])%list)
                   (put_labels w (full_name repo) (number pr) stale_label)
                   [Sent (GetPull (full_name repo) (number pr));
                    Logged (log_applying_label (number pr) (name repo));
                    Sent (PutLabels (full_name repo) (number pr) stale_label)]
        end
  end.
Proof.
  unfold label_one, bind. rewrite get_pull_run.
  destruct (find_pull w (full_name repo) (number pr)) as [p |] eqn:Hp;
    cbn [value world trace log_info emit]; [| reflexivity].
  destruct (dry_run self); cbn [negb]; [reflexivity |].
  apply find_pull_some in Hp. destruct Hp as (Hr & Hn & Hat & _).
  rewrite set_labels_run, Hr, Hn, Hat. fold stale_label.
  destruct (refusal w (PutLabels (full_name repo) (number pr) stale_label));
    reflexivity.
Qed.

Lemma label_repo_run (self : GithubBranchManager) (repo : Repository) (w : World) :
  label_repo self repo w =
  let g := get_prs_branches_to_be_deleted self repo w in
  let pre := [Logged (log_processing (name repo));
              Sent (CountBranches (full_name repo));
              Logged (log_total_branches (name repo) (count_branches w (full_name repo)))] in
  match value g with
  | Ok (ps, _) =>
      let l := foldM (label_one self repo) ps [] w in
      match value l with
      | Ok branches_labeled =>
          mk_out (Ok tt) (world l)
                 (pre ++ trace g ++ trace l ++
                  [Logged (log_branches_labeled (name repo) branches_labeled)])
      | Raise e => mk_out (Raise e) (world l) (pre ++ trace g ++ trace l)
      end
  | Raise e => mk_out (Raise e) w (pre ++ trace g)
  end.
Proof.
  destruct (get_prs_run self repo w) as (Hw & _).
  unfold label_repo, bind. rewrite get_branches_totalCount_run.
  cbn [value world trace log_info emit]. cbv zeta.
  destruct (value (get_prs_branches_to_be_deleted self repo w)) as [[ps bs] | e];
    rewrite Hw; cbn [app]; [| reflexivity].
  destruct (value (foldM (label_one self repo) ps [] w)); cbn [value world trace];
    rewrite <- ?app_assoc; reflexivity.
Qed.

Lemma label_loop_relabelled (self : GithubBranchManager) (repo : Repository)
    (prs : list PullRequest) :
  forall (acc : list string) (w : World),
    Forall (fun pr => unprotected w (full_name repo) (number pr)) prs ->
    relabelled w (world (foldM (label_one self repo) prs acc w)).
Proof.
  induction prs as [| pr prs IH]; intros acc w Hall; [apply relabelled_refl |].
  rewrite foldM_cons. unfold bind. rewrite label_one_run.
  inversion Hall as [| ? ? Hpr Hrest]; subst.
  destruct (find_pull w (full_name repo) (number pr)) as [p |];
    cbn [value world trace]; [| apply relabelled_refl].
  destruct (dry_run self); cbn [value world trace].
  - apply IH. exact Hrest.
  - destruct (refusal w (PutLabels (full_name repo) (number pr) stale_label));
      cbn [value world trace]; [apply relabelled_refl |].
    pose proof (put_labels_relabelled w _ _ Hpr) as Hstep.
    eapply relabelled_trans; [exact Hstep |]. apply IH.
    eapply Forall_impl; [| exact Hrest].
    intros q Hq. eapply unprotected_relabelled; eassumption.
Qed.

(** The pull requests the filter returns are unprotected. *)
Lemma returned_unprotected (self : GithubBranchManager) (repo : Repository)
    (w : World) (ps : list PullRequest) (bs : list string) :
  value (get_prs_branches_to_be_deleted self repo w) = Ok (ps, bs) ->
  Forall (fun pr => unprotected w (full_name repo) (number pr)) ps.
Proof.
  intros Hok. apply Forall_forall. intros p Hin.
  destruct (returned_pull _ _ _ _ _ _ Hok Hin) as (x & Hx & Hkey & _).
  unfold pull_key, issue_key in Hkey. injection Hkey as _ Hn. rewrite Hn.
  apply (candidates_unprotected self). exact Hx.
Qed.

Lemma label_repo_relabelled (self : GithubBranchManager) (repo : Repository)
    (w : World) :
  relabelled w (world (label_repo self repo w)).
Proof.
  rewrite label_repo_run. cbv zeta.
  destruct (value (get_prs_branches_to_be_deleted self repo w)) as [[ps bs] | e] eqn:Hg;
    [| apply relabelled_refl].
  pose proof (label_loop_relabelled self repo ps [] w
                (returned_unprotected _ _ _ _ _ Hg)) as H.
  destruct (value (foldM (label_one self repo) ps [] w)); exact H.
Qed.

(** A run of the label driver changes labels only, and never the
    protective one. *)
Lemma label_stale_branches_relabelled (self : GithubBranchManager) (w : World) :
  relabelled w (world (label_stale_branches self w)).
Proof.
  assert (H : obeys any_event relabelled (label_stale_branches self)).
  { unfold label_stale_branches.
    apply (obeys_bind _ _ relabelled_trans).
    - intros w0. rewrite get_repos_run. split; [| apply relabelled_refl].
      repeat constructor.
    - intros repos. apply (obeys_for_ _ _ relabelled_refl relabelled_trans).
      intros repo w0. split; [| apply label_repo_relabelled].
      apply Forall_forall. intros; exact I. }
  apply H.
Qed.

(** ** Two runs of the label driver side by side *)

Lemma observe_app (strict : bool) (t1 t2 : list Event) :
  observe strict (t1 ++ t2) = (observe strict t1 ++ observe strict t2)%list.
Proof. apply flat_map_app. Qed.

Lemma observe_strict (t : list Event) : observe true t = t.
Proof.
  induction t as [| e t IH]; [reflexivity |]. cbn. unfold observe in IH.
  rewrite IH. reflexivity.
Qed.

Lemma convert_loop_sim (w w' : World) (xs : list Issue) :
  same_issues w w' ->
  forall (xs' : list Issue) (ps ps' : list PullRequest) (bs bs' : list string),
    map issue_key xs = map issue_key xs' ->
    same_pulls (ps, bs) (ps', bs') ->
    trace (foldM convert xs (ps, bs) w) = trace (foldM convert xs' (ps', bs') w') /\
    match value (foldM convert xs (ps, bs) w), value (foldM convert xs' (ps', bs') w') with
    | Ok r, Ok r' => same_pulls r r'
    | Raise e, Raise e' => e = e'
    | _, _ => False
    end.
Proof.
  intros Hrel. induction xs as [| x xs IH]; intros xs' ps ps' bs bs' Hkeys Hacc.
  - destruct xs'; [| discriminate]. cbn. split; [reflexivity | exact Hacc].
  - destruct xs' as [| x' xs']; [discriminate |]. cbn [map] in Hkeys.
    injection Hkeys as Hr Hn Hkeys.
    rewrite !foldM_cons. unfold bind. rewrite !convert_run. cbn [value world trace].
    unfold pull_of. rewrite <- Hr, <- Hn.
    pose proof (find_pull_relabelled w w' (issue_repo x) (issue_number x) Hrel) as Hp.
    destruct (find_pull w (issue_repo x) (issue_number x)) as [p |],
             (find_pull w' (issue_repo x) (issue_number x)) as [p' |];
      try contradiction; cbn [value world trace].
    + destruct Hp as [Hpk Hph]. destruct Hacc as [Hps Hbs]. cbn [fst snd] in Hps, Hbs.
      specialize (IH xs' (ps ++ [p])%list (ps' ++ [p'])%list
                    (bs ++ [head_ref p])%list (bs' ++ [head_ref p'])%list Hkeys).
      destruct IH as [Ht Hv].
      { split; cbn [fst snd]; [rewrite !map_app, Hps; cbn; rewrite Hpk | rewrite Hbs, Hph];
          reflexivity. }
      rewrite Ht. split; [reflexivity |].
      destruct (value (foldM convert xs _ w)), (value (foldM convert xs' _ w'));
        exact Hv.
    + split; reflexivity.
Qed.

(** Two hosts that serve alike answer the pages of a search alike. *)
Lemma pages_run_same (w w' : World) (github_obj : string) (q : Query) (ks : list nat) :
  same_host w w' -> pages_run w github_obj q ks = pages_run w' github_obj q ks.
Proof.
  intros [Htok Href]. induction ks as [| k ks IH]; [reflexivity |].
  cbn [pages_run]. unfold page_error. rewrite Htok, Href, IH. reflexivity.
Qed.

(** A query that reads of an item only what [same_item] keeps has the
    same entities for result in two states with the same issues. *)
Lemma search_keys_same (w w' : World) (q : Query) :
  (forall it it', same_item it it' -> matches q it = matches q it') ->
  same_issues w w' ->
  map issue_key (search w q) = map issue_key (search w' q).
Proof.
  intros Hq (_ & Hnums & Hent). unfold search. rewrite <- Hnums.
  induction (issue_numbers w (q_repo q)) as [| n ns IH]; [reflexivity |].
  cbn [search_numbers]. specialize (Hent (q_repo q) n).
  destruct (issue_at w (q_repo q) n) as [it |], (issue_at w' (q_repo q) n) as [it' |];
    try contradiction; [| exact IH].
  cbn [same_entry] in Hent. rewrite <- (Hq it it' Hent).
  destruct (matches q it); [| exact IH]. cbn [map]. rewrite IH. reflexivity.
Qed.

Lemma matches_same_item (self : GithubBranchManager) (repo : Repository)
    (it it' : Item) :
  same_item it it' ->
  matches (query_older_issues self repo) it = matches (query_older_issues self repo) it' /\
  matches (query_issues_labelled_do_not_delete self repo) it =
  matches (query_issues_labelled_do_not_delete self repo) it'.
Proof.
  intros (Ho & Hc & _ & Hl). unfold matches. cbn. rewrite Ho, Hc, Hl. split; reflexivity.
Qed.

(** The two searches of the filter send the same requests and end the
    same way in two states with the same issues. *)
Lemma searches_same (self : GithubBranchManager) (repo : Repository) (w w' : World) :
  same_issues w w' ->
  (search_error w (github_obj self) (query_older_issues self repo) =
   search_error w' (github_obj self) (query_older_issues self repo) /\
   search_events w (github_obj self) (query_older_issues self repo) =
   search_events w' (github_obj self) (query_older_issues self repo)) /\
  (search_error w (github_obj self) (query_issues_labelled_do_not_delete self repo) =
   search_error w' (github_obj self) (query_issues_labelled_do_not_delete self repo) /\
   search_events w (github_obj self) (query_issues_labelled_do_not_delete self repo) =
   search_events w' (github_obj self) (query_issues_labelled_do_not_delete self repo)).
Proof.
  intros Hrel. pose proof Hrel as (Hhost & _).
  assert (H : forall q,
            (forall it it', same_item it it' -> matches q it = matches q it') ->
            search_error w (github_obj self) q = search_error w' (github_obj self) q /\
            search_events w (github_obj self) q = search_events w' (github_obj self) q).
  { intros q Hq. unfold search_error, search_events, pages_of.
    pose proof (f_equal (@List.length _) (search_keys_same w w' q Hq Hrel)) as Hlen.
    rewrite !length_map in Hlen. rewrite Hlen, (pages_run_same w w' _ _ _ Hhost).
    split; reflexivity. }
  split; apply H; intros it it' Hit; apply (matches_same_item self repo it it' Hit).
Qed.

(** The filter sends the same requests and returns the same pull
    requests in two states that differ in labels only. *)
Lemma get_prs_sim (self self' : GithubBranchManager) (repo : Repository)
    (w w' : World) :
  github_obj self = github_obj self' ->
  end_date self = end_date self' -> same_issues w w' ->
  trace (get_prs_branches_to_be_deleted self repo w) =
  trace (get_prs_branches_to_be_deleted self' repo w') /\
  match value (get_prs_branches_to_be_deleted self repo w),
        value (get_prs_branches_to_be_deleted self' repo w') with
  | Ok r, Ok r' => same_pulls r r'
  | Raise e, Raise e' => e = e'
  | _, _ => False
  end.
Proof.
  intros Htok Hend Hrel. rewrite !get_prs_eq. cbv zeta.
  destruct (searches_same self repo w w' Hrel) as [[He1 Ht1] [He2 Ht2]].
  assert (Hq1 : query_older_issues self' repo = query_older_issues self repo)
    by (unfold query_older_issues; rewrite Hend; reflexivity).
  assert (Hq2 : query_issues_labelled_do_not_delete self' repo =
                query_issues_labelled_do_not_delete self repo)
    by (unfold query_issues_labelled_do_not_delete; rewrite Hend; reflexivity).
  rewrite Hq1, Hq2, <- Htok, <- He1, <- He2, <- Ht1, <- Ht2.
  destruct (search_error w (github_obj self) (query_older_issues self repo));
    [split; reflexivity |].
  destruct (search_error w (github_obj self)
              (query_issues_labelled_do_not_delete self repo)); [split; reflexivity |].
  destruct (convert_loop_sim w w' (candidates self repo w) Hrel
              (candidates self' repo w') [] [] [] []
              (candidates_relabelled _ _ _ _ _ Hend Hrel)) as [Ht Hv].
  { split; reflexivity. }
  cbn [value trace]. rewrite Ht. split; [reflexivity | exact Hv].
Qed.

Section LabelSim.

Variables self self' : GithubBranchManager.
Variable strict : bool.
Hypothesis Htok : github_obj self = github_obj self'.
Hypothesis Horg : org self = org self'.
Hypothesis Hend : end_date self = end_date self'.
Hypothesis Hdry : dry_run self = dry_run self'.

Lemma label_one_sim (repo : Repository) (acc acc' : list string)
    (pr pr' : PullRequest) (w w' : World) :
  relabelled w w' -> number pr = number pr' -> same_acc strict acc acc' ->
  agree (same_acc strict) strict (label_one self repo acc pr w)
                        (label_one self' repo acc' pr' w').
Proof.
  intros Hrel Hn Hacc. rewrite !label_one_run, <- Hn, <- Hdry.
  pose proof (find_pull_relabelled w w' (full_name repo) (number pr)
                (relabelled_issues _ _ Hrel)) as Hp.
  destruct Hrel as ((_ & Href) & _). rewrite <- Href.
  destruct (find_pull w (full_name repo) (number pr)) as [p |],
           (find_pull w' (full_name repo) (number pr)) as [p' |];
    try contradiction.
  - destruct Hp as [_ Hh]. unfold agree, same_acc in *.
    destruct (dry_run self); cbn [value trace]; [split; auto |].
    destruct (refusal w (PutLabels (full_name repo) (number pr) stale_label));
      cbn [value trace]; split; try reflexivity.
    intros Hs. rewrite (Hacc Hs), Hh. reflexivity.
  - unfold agree. cbn [value trace]. split; [reflexivity | reflexivity].
Qed.

Lemma label_one_world (s : GithubBranchManager) (repo : Repository)
    (acc : list string) (pr : PullRequest) (w : World) :
  unprotected w (full_name repo) (number pr) ->
  relabelled w (world (label_one s repo acc pr w)).
Proof.
  intros Hun. rewrite label_one_run.
  destruct (find_pull w (full_name repo) (number pr)); [| apply relabelled_refl].
  destruct (dry_run s); [apply relabelled_refl |].
  destruct (refusal w (PutLabels (full_name repo) (number pr) stale_label));
    [apply relabelled_refl | apply put_labels_relabelled, Hun].
Qed.

Lemma label_loop_sim (repo : Repository) (prs : list PullRequest) :
  forall (prs' : list PullRequest) (acc acc' : list string) (w w' : World),
    relabelled w w' -> map number prs = map number prs' -> same_acc strict acc acc' ->
    Forall (fun pr => unprotected w (full_name repo) (number pr)) prs ->
    agree (same_acc strict) strict (foldM (label_one self repo) prs acc w)
                          (foldM (label_one self' repo) prs' acc' w').
Proof.
  induction prs as [| pr prs IH]; intros prs' acc acc' w w' Hrel Hnums Hacc Hall.
  - destruct prs'; [| discriminate]. split; [reflexivity | exact Hacc].
  - destruct prs' as [| pr' prs']; [discriminate |].
    injection Hnums as Hn Hnums. inversion Hall as [| ? ? Hpr Hrest]; subst.
    rewrite !foldM_cons.
    destruct (label_one_sim repo acc acc' pr pr' w w' Hrel Hn Hacc) as [Ht Hv].
    pose proof (label_one_world self repo acc pr w Hpr) as Hw.
    assert (Hpr' : unprotected w' (full_name repo) (number pr'))
      by (rewrite <- Hn; eapply unprotected_relabelled; eassumption).
    pose proof (label_one_world self' repo acc' pr' w' Hpr') as Hw'.
    unfold bind.
    destruct (value (label_one self repo acc pr w)) as [a |],
             (value (label_one self' repo acc' pr' w')) as [a' |];
      try contradiction.
    + assert (Hrel2 : relabelled (world (label_one self repo acc pr w))
                                 (world (label_one self' repo acc' pr' w'))).
      { eapply relabelled_trans; [apply relabelled_sym, Hw |].
        eapply relabelled_trans; [exact Hrel | exact Hw']. }
      assert (Hrest2 : Forall (fun q => unprotected (world (label_one self repo acc pr w))
                                          (full_name repo) (number q)) prs).
      { eapply Forall_impl; [| exact Hrest].
        intros q Hq. eapply unprotected_relabelled; eassumption. }
      destruct (IH prs' a a' _ _ Hrel2 Hnums Hv Hrest2) as [Ht2 Hv2].
      split; cbn [value trace]; [rewrite !observe_app, Ht, Ht2; reflexivity | exact Hv2].
    + split; cbn [value trace]; assumption.
Qed.

Lemma label_repo_sim (repo : Repository) (w w' : World) :
  relabelled w w' ->
  agree eq strict (label_repo self repo w) (label_repo self' repo w').
Proof.
  intros Hrel. rewrite !label_repo_run. cbv zeta.
  rewrite <- (count_branches_relabelled w w' _ Hrel).
  destruct (get_prs_sim self self' repo w w' Htok Hend (relabelled_issues _ _ Hrel))
    as [Ht Hv].
  rewrite <- Ht.
  destruct (value (get_prs_branches_to_be_deleted self repo w)) as [[ps bs] |] eqn:Hg,
           (value (get_prs_branches_to_be_deleted self' repo w')) as [[ps' bs'] |];
    try contradiction.
  - destruct Hv as [Hkeys _]. cbn [fst] in Hkeys.
    assert (Hnums : map number ps = map number ps').
    { apply (f_equal (map snd)) in Hkeys. rewrite !map_map in Hkeys. exact Hkeys. }
    destruct (label_loop_sim repo ps ps' [] [] w w' Hrel Hnums (fun _ => eq_refl)
                (returned_unprotected _ _ _ _ _ Hg)) as [Ht2 Hv2].
    destruct (value (foldM (label_one self repo) ps [] w)) as [b |],
             (value (foldM (label_one self' repo) ps' [] w')) as [b' |];
      try contradiction; split; cbn [value trace];
      rewrite ?observe_app, ?Ht2; try reflexivity; try exact Hv2.
    do 3 f_equal. unfold same_acc in Hv2. cbn. unfold view.
    destruct strict; [rewrite (Hv2 eq_refl) |]; reflexivity.
  - split; cbn [value trace]; [reflexivity | exact Hv].
Qed.

Lemma label_repos_sim (repos : list Repository) :
  forall (w w' : World),
    relabelled w w' ->
    agree eq strict (for_ repos (label_repo self) w) (for_ repos (label_repo self') w').
Proof.
  induction repos as [| repo repos IH]; intros w w' Hrel.
  - split; reflexivity.
  - rewrite !for_cons.
    destruct (label_repo_sim repo w w' Hrel) as [Ht Hv].
    pose proof (label_repo_relabelled self repo w) as Hw.
    pose proof (label_repo_relabelled self' repo w') as Hw'.
    destruct (value (label_repo self repo w)), (value (label_repo self' repo w'));
      try contradiction.
    + assert (Hrel2 : relabelled (world (label_repo self repo w))
                                 (world (label_repo self' repo w'))).
      { eapply relabelled_trans; [apply relabelled_sym, Hw |].
        eapply relabelled_trans; [exact Hrel | exact Hw']. }
      destruct (IH _ _ Hrel2) as [Ht2 Hv2].
      split; cbn [value trace]; [rewrite !observe_app, Ht, Ht2; reflexivity | exact Hv2].
    + split; cbn [value trace]; assumption.
Qed.

Lemma label_stale_branches_sim (w w' : World) :
  relabelled w w' ->
  agree eq strict (label_stale_branches self w) (label_stale_branches self' w').
Proof.
  intros Hrel. unfold label_stale_branches, bind. rewrite !get_repos_run, <- Horg.
  pose proof Hrel as (_ & _ & Horgs & _). rewrite <- Horgs.
  destruct (organizations w (org self)) as [repos |]; cbn [value world trace].
  - destruct (label_repos_sim repos w w' Hrel) as [Ht Hv].
    split; cbn [value trace]; [| exact Hv].
    change (Sent ?r :: ?t) with ([Sent r] ++ t)%list. rewrite !observe_app, Ht.
    reflexivity.
  - split; reflexivity.
Qed.

End LabelSim.

(** ** The labels after a run, read off its trace *)

Lemma replay_at_app (refused : Request -> option Z) (repo : string) (n : Z)
    (t1 t2 : list Event) (o : option Item) :
  replay_at refused repo n (t1 ++ t2) o =
  replay_at refused repo n t2 (replay_at refused repo n t1 o).
Proof. apply fold_left_app. Qed.

Lemma tracks_bind {A B} (m : M A) (k : A -> M B) :
  tracks m -> (forall a, tracks (k a)) -> tracks (bind m k).
Proof.
  intros Hm Hk w. unfold bind. destruct (Hm w) as [Href Hat].
  destruct (value (m w)) as [a | e]; cbn [world trace]; [| split; assumption].
  destruct (Hk a (world (m w))) as [Href' Hat']. split; [congruence |].
  intros repo n. rewrite replay_at_app, <- Hat, <- Href. apply Hat'.
Qed.

Lemma tracks_foldM {A B} (body : B -> A -> M B) (xs : list A) :
  (forall acc x, tracks (body acc x)) -> forall acc, tracks (foldM body xs acc).
Proof.
  intros Hb. induction xs as [| x xs IH]; intros acc.
  - intros w. split; reflexivity.
  - rewrite foldM_cons. apply tracks_bind; [apply Hb | exact IH].
Qed.

(** Replaying events that are not label applications changes nothing. *)
Lemma replay_at_reads (refused : Request -> option Z) (repo : string) (n : Z)
    (t : list Event) (o : option Item) :
  mutating_calls t = [] -> replay_at refused repo n t o = o.
Proof.
  revert o. induction t as [| e t IH]; intros o H; [reflexivity |].
  change (e :: t) with ([e] ++ t)%list in *.
  rewrite mutating_calls_app in H. apply app_eq_nil in H. destruct H as [He Ht].
  rewrite replay_at_app, (IH _ Ht).
  destruct e as [[] | |]; try reflexivity; discriminate.
Qed.

Lemma tracks_reader {A} (m : M A) :
  (forall w, world (m w) = w /\ mutating_calls (trace (m w)) = []) -> tracks m.
Proof.
  intros H w. destruct (H w) as [Hw Ht]. rewrite Hw. split; [reflexivity |].
  intros repo n. rewrite replay_at_reads by exact Ht. reflexivity.
Qed.

Lemma tracks_label_one (self : GithubBranchManager) (repo : Repository)
    (acc : list string) (pr : PullRequest) :
  tracks (label_one self repo acc pr).
Proof.
  intros w. rewrite label_one_run.
  destruct (find_pull w (full_name repo) (number pr)); [| split; reflexivity].
  destruct (dry_run self); [split; reflexivity |].
  destruct (refusal w (PutLabels (full_name repo) (number pr) stale_label)) eqn:Href;
    cbn [world trace]; (split; [reflexivity |]); intros r n;
    unfold replay_at; cbn [fold_left relabel]; rewrite Href; reflexivity.
Qed.

Lemma tracks_label_repo (self : GithubBranchManager) (repo : Repository) :
  tracks (label_repo self repo).
Proof.
  unfold label_repo.
  apply tracks_bind; [apply tracks_reader; intros w; split; reflexivity | intros _].
  apply tracks_bind; [apply tracks_reader; intros w; split; reflexivity | intros total].
  apply tracks_bind; [apply tracks_reader; intros w; split; reflexivity | intros _].
  apply tracks_bind.
  { apply tracks_reader. intros w.
    destruct (get_prs_run self repo w) as (Hw & Hm & _). split; assumption. }
  intros [ps bs].
  apply tracks_bind; [| intros b; apply tracks_reader; intros w; split; reflexivity].
  apply tracks_foldM. intros acc pr. apply tracks_label_one.
Qed.

Lemma tracks_label_stale_branches (self : GithubBranchManager) :
  tracks (label_stale_branches self).
Proof.
  unfold label_stale_branches. apply tracks_bind.
  - apply tracks_reader. intros w. rewrite get_repos_run. split; reflexivity.
  - intros repos. unfold for_. apply tracks_foldM. intros _ repo.
    apply tracks_label_repo.
Qed.

(** A replay either leaves an entry alone or sets its labels to those of
    the last application that was not refused. *)
Lemma replay_at_shape (refused : Request -> option Z) (repo : string) (n : Z)
    (t : list Event) :
  (forall o, replay_at refused repo n t o = o) \/
  (exists ls, forall o, replay_at refused repo n t o = option_map (with_labels ls) o).
Proof.
  induction t as [| e t IH].
  - left. reflexivity.
  - assert (He : (forall o, relabel refused repo n o e = o) \/
                 (exists ls, forall o,
                     relabel refused repo n o e = option_map (with_labels ls) o)).
    { destruct e as [[] | |]; cbn [relabel]; auto.
      destruct (refused (PutLabels repo0 n0 ls)); auto.
      destruct ((repo =? repo0)%string && (n =? n0)); eauto. }
    unfold replay_at in *. cbn [fold_left].
    destruct IH as [Hid | [ls Hset]].
    + destruct He as [He | [ls He]].
      * left. intros o. rewrite Hid. apply He.
      * right. exists ls. intros o. rewrite Hid. apply He.
    + right. exists ls. intros o. rewrite Hset.
      destruct He as [He | [ls' He]]; rewrite He; [reflexivity |].
      destruct o; reflexivity.
Qed.

Lemma replay_at_idempotent (refused : Request -> option Z) (repo : string) (n : Z)
    (t : list Event) (o : option Item) :
  replay_at refused repo n t (replay_at refused repo n t o) =
  replay_at refused repo n t o.
Proof.
  destruct (replay_at_shape refused repo n t) as [Hid | [ls Hset]].
  - rewrite !Hid. reflexivity.
  - rewrite !Hset. destruct o; reflexivity.
Qed.

(** ** Idempotence of the label driver (C6) *)

(** C6.  Run twice in a row with nothing else changing the remote state,
    the label driver leaves every issue and pull request as one run
    does; the second run sends the same requests and ends the same way.
    Applying the label a second time to a pull request changes
    nothing. *)
Theorem label_driver_idempotent (self : GithubBranchManager) (w : World) :
  let once := label_stale_branches self w in
  let twice := label_stale_branches self (world once) in
  (forall repo n, issue_at (world twice) repo n = issue_at (world once) repo n) /\
  (forall repo, git_refs (world twice) repo = git_refs (world once) repo) /\
  trace twice = trace once /\ value twice = value once /\
  (forall repo n ls repo' n',
     issue_at (put_labels (put_labels w repo n ls) repo n ls) repo' n' =
     issue_at (put_labels w repo n ls) repo' n').
Proof.
  intros once twice.
  pose proof (label_stale_branches_relabelled self w) as Hrel. fold once in Hrel.
  destruct (label_stale_branches_sim self self true eq_refl eq_refl eq_refl eq_refl
              w (world once) Hrel) as [Ht Hv].
  fold once twice in Ht, Hv. rewrite !observe_strict in Ht.
  split; [| split; [| split; [| split]]].
  - intros repo n.
    destruct (tracks_label_stale_branches self (world once)) as [_ H2].
    specialize (H2 repo n). fold twice in H2. rewrite <- Ht in H2.
    destruct (tracks_label_stale_branches self w) as [Href H1].
    specialize (H1 repo n). fold once in H1, Href.
    rewrite H2, H1, Href. apply replay_at_idempotent.
  - intros repo.
    destruct (label_stale_branches_only_labels self (world once)) as [_ H].
    unfold same_refs in H. fold twice in H. rewrite H. reflexivity.
  - symmetry. exact Ht.
  - destruct (value once), (value twice); try contradiction; congruence.
  - intros repo n ls repo' n'. cbn [put_labels issue_at].
    destruct ((repo' =? repo)%string && (n' =? n)); [| reflexivity].
    destruct (issue_at w repo' n'); reflexivity.
Qed.

(** ** What labeling does to the labels of a pull request (C10) *)

Lemma replay_at_stale_shape (refused : Request -> option Z) (repo : string) (n : Z)
    (t : list Event) :
  Forall only_labels t ->
  (forall o, replay_at refused repo n t o = o) \/
  (forall o, replay_at refused repo n t o = option_map (with_labels stale_label) o).
Proof.
  induction t as [| e t IH]; intros Hall; [left; reflexivity |].
  inversion Hall as [| ? ? He Ht]; subst. specialize (IH Ht).
  assert (Hstep : (forall o, relabel refused repo n o e = o) \/
                  (forall o, relabel refused repo n o e =
                             option_map (with_labels stale_label) o)).
  { destruct e as [r | |]; try (left; reflexivity).
    destruct r; try (left; reflexivity).
    destruct (He eq_refl) as (repo' & n' & Heq). injection Heq as _ _ ->.
    cbn [relabel]. destruct (refused (PutLabels repo0 n0 stale_label)); auto.
    destruct ((repo =? repo0)%string && (n =? n0)); auto. }
  unfold replay_at in *. cbn [fold_left].
  destruct IH as [Hid | Hset], Hstep as [Hs | Hs].
  - left. intros o. rewrite Hid. apply Hs.
  - right. intros o. rewrite Hid. apply Hs.
  - right. intros o. rewrite Hset, Hs. reflexivity.
  - right. intros o. rewrite Hset, Hs. destruct o; reflexivity.
Qed.

(** Once the pending-deletion label was applied to an issue, and not
    refused, in a trace that applies no other labels, the issue carries
    exactly that label. *)
Lemma replay_at_labelled (refused : Request -> option Z) (repo : string) (n : Z)
    (t : list Event) :
  Forall only_labels t ->
  In (Sent (PutLabels repo n stale_label)) t ->
  refused (PutLabels repo n stale_label) = None ->
  forall o, replay_at refused repo n t o = option_map (with_labels stale_label) o.
Proof.
  induction t as [| e t IH]; intros Hall Hin Href o; [destruct Hin |].
  inversion Hall as [| ? ? He Ht]; subst.
  unfold replay_at in *. cbn [fold_left]. destruct Hin as [-> | Hin].
  - cbn [relabel]. rewrite Href, String.eqb_refl, Z.eqb_refl. cbn [andb].
    destruct (replay_at_stale_shape refused repo n t Ht) as [Hid | Hset];
      unfold replay_at in *.
    + apply Hid.
    + rewrite Hset. destruct o; reflexivity.
  - rewrite (IH Ht Hin Href).
    destruct e as [r | |]; try reflexivity. destruct r; try reflexivity.
    cbn [relabel]. destruct (refused (PutLabels repo0 n0 ls)); [reflexivity |].
    destruct ((repo =? repo0)%string && (n =? n0)); [| reflexivity].
    destruct o; reflexivity.
Qed.

(** In a loop that completes, every item was run in a state reached
    from the initial one, and its events are events of the loop. *)
Lemma for_ok_in {A} (R : World -> World -> Prop) (body : A -> M unit) :
  (forall w, R w w) -> (forall w1 w2 w3, R w1 w2 -> R w2 w3 -> R w1 w3) ->
  (forall x w, R w (world (body x w))) ->
  forall (xs : list A) (w : World),
    value (for_ xs body w) = Ok tt ->
    forall x, In x xs ->
      exists wx, R w wx /\ value (body x wx) = Ok tt /\
                 incl (trace (body x wx)) (trace (for_ xs body w)).
Proof.
  intros Hrefl Htrans HR. induction xs as [| x1 xs IH]; intros w Hok x Hin;
    [destruct Hin |].
  rewrite for_cons in Hok |- *.
  destruct (value (body x1 w)) as [[] |] eqn:H1; cbn [value trace] in *;
    [| discriminate].
  destruct Hin as [-> | Hin].
  - exists w. split; [apply Hrefl |]. split; [exact H1 |]. apply incl_appl, incl_refl.
  - destruct (IH _ Hok x Hin) as (wx & Hw & Hv & Hincl).
    exists wx. split; [eapply Htrans; [apply HR | exact Hw] |].
    split; [exact Hv |]. apply incl_appr. exact Hincl.
Qed.

(** A completed labeling loop that is not a dry run has applied the
    label to each of its pull requests, and the host has refused none
    of the applications. *)
Lemma label_loop_puts (self : GithubBranchManager) (repo : Repository)
    (prs : list PullRequest) :
  dry_run self = false ->
  forall (acc : list string) (w : World) (b : list string),
    value (foldM (label_one self repo) prs acc w) = Ok b ->
    forall pr, In pr prs ->
      In (Sent (PutLabels (full_name repo) (number pr) stale_label))
         (trace (foldM (label_one self repo) prs acc w)) /\
      refusal w (PutLabels (full_name repo) (number pr) stale_label) = None.
Proof.
  intros Hdry. induction prs as [| pr1 prs IH]; intros acc w b Hok pr Hin;
    [destruct Hin |].
  rewrite foldM_cons in Hok |- *. unfold bind in Hok |- *.
  rewrite label_one_run, Hdry in Hok |- *.
  destruct (find_pull w (full_name repo) (number pr1)) as [p |];
    cbn [value world trace] in *; [| discriminate].
  destruct (refusal w (PutLabels (full_name repo) (number pr1) stale_label)) eqn:Href;
    cbn [value world trace] in *; [discriminate |].
  destruct Hin as [-> | Hin].
  - split; [| exact Href]. apply in_or_app. left. cbn. auto.
  - destruct (IH _ _ _ Hok pr Hin) as [Ht Hr].
    split; [apply in_or_app; right; exact Ht | exact Hr].
Qed.

(** C10.  When it is not a dry run, labeling a pull request replaces its
    labels: whatever labels it had, afterwards it has exactly
    [will-be-deleted-within-a-week].  This holds for the single step,
    and at the end of a completed run for every candidate of every
    repository of the organization. *)
Theorem labeling_replaces_labels (self : GithubBranchManager) (w : World)
    (repos : list Repository) :
  dry_run self = false ->
  organizations w (org self) = Some repos ->
  value (label_stale_branches self w) = Ok tt ->
  (forall repo acc pr w0 b,
     value (label_one self repo acc pr w0) = Ok b ->
     exists it0,
       issue_at w0 (full_name repo) (number pr) = Some it0 /\
       issue_at (world (label_one self repo acc pr w0)) (full_name repo) (number pr)
       = Some (mk_item (is_open it0) (created_at it0)
                       ["will-be-deleted-within-a-week"] (head it0))) /\
  (forall repo x,
     In repo repos -> In x (candidates self repo w) ->
     issue_at (world (label_stale_branches self w)) (full_name repo) (issue_number x)
     = Some (mk_item (is_open (issue_item x)) (created_at (issue_item x))
                     ["will-be-deleted-within-a-week"] (head (issue_item x)))).
Proof.
  intros Hdry Horg Hok. split.
  - intros repo acc pr w0 b Hb. rewrite label_one_run, Hdry in Hb |- *.
    destruct (find_pull w0 (full_name repo) (number pr)) as [p |] eqn:Hp;
      [| discriminate].
    apply find_pull_some in Hp. destruct Hp as (_ & _ & Hat & _).
    exists (pr_item p). split; [exact Hat |].
    destruct (refusal w0 (PutLabels (full_name repo) (number pr) stale_label));
      [discriminate |].
    cbn [world put_labels issue_at].
    rewrite String.eqb_refl, Z.eqb_refl, Hat. reflexivity.
  - intros repo x Hrepo Hx.
    assert (Hput : In (Sent (PutLabels (full_name repo) (issue_number x) stale_label))
                      (trace (label_stale_branches self w)) /\
                   refusal w (PutLabels (full_name repo) (issue_number x) stale_label)
                   = None).
    { unfold label_stale_branches, bind in Hok |- *.
      rewrite get_repos_run, Horg in Hok |- *. cbn [value world trace] in Hok |- *.
      assert (Hfor : value (for_ repos (label_repo self) w) = Ok tt).
      { destruct (value (for_ repos (label_repo self) w)) as [[] |];
          [reflexivity | discriminate]. }
      destruct (for_ok_in relabelled (label_repo self) relabelled_refl relabelled_trans
                  (label_repo_relabelled self) repos w Hfor repo Hrepo)
        as (wx & Hrel & Hv & Hincl).
      pose proof Hrel as ((_ & Href) & _). rewrite Href.
      cut (In (Sent (PutLabels (full_name repo) (issue_number x) stale_label))
              (trace (label_repo self repo wx)) /\
           refusal wx (PutLabels (full_name repo) (issue_number x) stale_label) = None);
        [intros [Ht Hr]; split; [right; apply Hincl; exact Ht | exact Hr] |].
      rewrite label_repo_run in Hv |- *. cbv zeta in Hv |- *.
      destruct (value (get_prs_branches_to_be_deleted self repo wx))
        as [[ps bs] |] eqn:Hg; [| discriminate].
      destruct (value (foldM (label_one self repo) ps [] wx)) as [b |] eqn:Hl;
        [| discriminate].
      cbn [trace].
      cut (In (Sent (PutLabels (full_name repo) (issue_number x) stale_label))
              (trace (foldM (label_one self repo) ps [] wx)) /\
           refusal wx (PutLabels (full_name repo) (issue_number x) stale_label) = None);
        [intros [Ht Hr]; split; [| exact Hr];
         apply in_or_app; right; apply in_or_app; right;
         apply in_or_app; left; exact Ht |].
      destruct (get_prs_ok _ _ _ _ _ Hg) as [_ Hall].
      apply Forall2_keys in Hall.
      rewrite <- (candidates_relabelled self self repo w wx eq_refl
                    (relabelled_issues _ _ Hrel)) in Hall.
      assert (Hk : In (issue_key x) (map pull_key ps))
        by (rewrite Hall; apply in_map; exact Hx).
      apply in_map_iff in Hk. destruct Hk as (pr & Hkey & Hpr).
      unfold pull_key, issue_key in Hkey. injection Hkey as _ Hn. rewrite <- Hn.
      eapply label_loop_puts; eassumption. }
    destruct Hput as [Hput Href].
    rewrite (proj2 (tracks_label_stale_branches self w)).
    destruct (label_stale_branches_only_labels self w) as [Hall _].
    rewrite (replay_at_labelled _ _ _ _ Hall Hput Href).
    apply in_candidates in Hx. destruct Hx as (_ & _ & Hat & _). rewrite Hat.
    reflexivity.
Qed.

Lemma labeling_replaces_labels_witness :
  issue_at (world (label_stale_branches (Scenario.manager false) Scenario.world_A))
           "acme/a" 2
  = Some (mk_item true Scenario.old ["will-be-deleted-within-a-week"] (Some "feature-2")).
Proof.
  apply (proj2 (labeling_replaces_labels (Scenario.manager false) Scenario.world_A
                  [Scenario.repo_a] eq_refl eq_refl eq_refl)
           Scenario.repo_a
           (mk_issue "acme/a" 2 (Scenario.pr ["bug"] "feature-2"))).
  - left. reflexivity.
  - right. left. reflexivity.
Defined.

(** ** Dry runs (C4) *)

(** A dry run of either driver sends no mutating request and leaves the
    remote state as it is. *)
Lemma dry_run_reads_only (self : GithubBranchManager) :
  dry_run self = true ->
  obeys reads_only unchanged (label_stale_branches self) /\
  obeys reads_only unchanged (delete_stale_branches self).
Proof.
  intros Hdry.
  assert (Hrefl : forall w, unchanged w w) by reflexivity.
  assert (Htrans : forall w1 w2 w3, unchanged w1 w2 -> unchanged w2 w3 -> unchanged w1 w3)
    by (unfold unchanged; congruence).
  assert (Hlog : forall l, reads_only (Logged l)) by exact (fun _ => I).
  assert (Hread : forall r, mutating r = false ->
            (forall q k, r <> SearchIssues q k) -> reads_only (Sent r))
    by (intros; assumption).
  assert (Hqs : P_queries reads_only self) by (intros repo k; split; reflexivity).
  split.
  - apply (obeys_label_stale_branches _ _ Hrefl Htrans Hlog Hread _ Hqs).
    rewrite Hdry. discriminate.
  - apply (obeys_delete_stale_branches _ _ Hrefl Htrans Hlog Hread _ Hqs).
    rewrite Hdry. discriminate.
Qed.

Lemma reads_only_no_mutation (t : list Event) :
  Forall reads_only t -> mutating_calls t = [].
Proof.
  induction t as [| e t IH]; intros H; [reflexivity |].
  inversion H as [| ? ? He Ht]; subst.
  change (e :: t) with ([e] ++ t)%list. rewrite mutating_calls_app, (IH Ht), app_nil_r.
  destruct e as [r | |]; try reflexivity.
  unfold mutating_calls. cbn. cbn in He. rewrite He. reflexivity.
Qed.

(** *** The delete driver, step by step *)

Lemma delete_one_run (self : GithubBranchManager) (repo : Repository)
    (b : string) (w : World) :
  delete_one self repo b w =
  match lookup_ref (git_refs w (full_name repo)) ("heads/" ++ b) with
  | None =>
      mk_out (Raise UnknownObjectException) w
             [Sent (GetGitRef (full_name repo) ("heads/" ++ b))]
  | Some s =>
      if dry_run self then
        mk_out (Ok tt) w
               [Sent (GetGitRef (full_name repo) ("heads/" ++ b));
                Logged (log_branch b s)]
      else
        match refusal w (DeleteGitRef (full_name repo) ("heads/" ++ b)) with
        | Some status =>
            mk_out (Raise (GithubException status)) w
                   [Sent (GetGitRef (full_name repo) ("heads/" ++ b));
                    Logged (log_branch b s);
                    Sent (DeleteGitRef (full_name repo) ("heads/" ++ b))]
        | None =>
            mk_out (Ok tt) (remove_ref w (full_name repo) ("heads/" ++ b))
                   [Sent (GetGitRef (full_name repo) ("heads/" ++ b));
                    Logged (log_branch b s);
                    Sent (DeleteGitRef (full_name repo) ("heads/" ++ b))]
        end
  end.
Proof.
  unfold delete_one, bind. rewrite get_git_ref_run.
  destruct (lookup_ref (git_refs w (full_name repo)) ("heads/" ++ b)) as [s |] eqn:Hl;
    cbn [value world trace log_info emit sha]; [| reflexivity].
  destruct (dry_run self); cbn [negb]; [reflexivity |].
  rewrite delete_run. cbn [ref_repo ref]. rewrite Hl.
  destruct (refusal w (DeleteGitRef (full_name repo) ("heads/" ++ b))); reflexivity.
Qed.

Lemma delete_repo_run (self : GithubBranchManager) (repo : Repository) (w : World) :
  delete_repo self repo w =
  let g := get_prs_branches_to_be_deleted self repo w in
  let pre := [Logged (log_processing (name repo));
              Sent (CountBranches (full_name repo));
              Logged (log_total_branches (name repo) (count_branches w (full_name repo)))] in
  match value g with
  | Ok (_, bs) =>
      let l := for_ bs (delete_one self repo) w in
      mk_out (value l) (world l)
             (pre ++ trace g ++
              [Logged (log_deleting_older (end_date self) (name repo))] ++ trace l)
  | Raise e => mk_out (Raise e) w (pre ++ trace g)
  end.
Proof.
  destruct (get_prs_run self repo w) as (Hw & _).
  unfold delete_repo, bind. rewrite get_branches_totalCount_run.
  cbn [value world trace log_info emit]. cbv zeta.
  destruct (value (get_prs_branches_to_be_deleted self repo w)) as [[ps bs] | e];
    rewrite Hw; cbn [app value world trace]; [| reflexivity].
  rewrite <- ?app_assoc. reflexivity.
Qed.

(** *** A dry run next to a run that deletes *)

Lemma quiet_app (t1 t2 : list Event) : quiet (t1 ++ t2) = (quiet t1 ++ quiet t2)%list.
Proof. apply filter_app. Qed.

Lemma same_issues_refl (w : World) : same_issues w w.
Proof. repeat split. intros; apply same_entry_refl. Qed.

Lemma behind_refl (w : World) : behind [] w w.
Proof. repeat split; auto using same_entry_refl. Qed.

Lemma behind_weaken (S : list string) (repo : string) (w w' : World) :
  behind S w w' -> behind (repo :: S) w w'.
Proof.
  intros (H1 & H2 & H3 & H4 & H5). repeat split; try assumption; try apply H3.
  intros repo' Hnot. apply H4. intros Hin. apply Hnot. right. exact Hin.
Qed.

Lemma lookup_ref_filter_same (refs : list (string * string)) (r : string) :
  lookup_ref (filter (fun kv => negb (fst kv =? r)%string) refs) r = None.
Proof.
  induction refs as [| [k v] refs IH]; [reflexivity |]. cbn [filter fst].
  destruct (k =? r)%string eqn:Hk; cbn [negb lookup_ref]; [exact IH |].
  rewrite Hk. exact IH.
Qed.

(** A reference found after a deletion was there before it. *)
Lemma lookup_ref_filter (refs : list (string * string)) (r r' s : string) :
  lookup_ref (filter (fun kv => negb (fst kv =? r)%string) refs) r' = Some s ->
  lookup_ref refs r' = Some s.
Proof.
  destruct (r' =? r)%string eqn:Hr.
  - apply String.eqb_eq in Hr. subst r'. rewrite lookup_ref_filter_same. discriminate.
  - induction refs as [| [k v] refs IH]; [discriminate |]. cbn [filter fst lookup_ref].
    destruct (k =? r)%string eqn:Hk; cbn [negb lookup_ref].
    + apply String.eqb_eq in Hk. subst k. rewrite String.eqb_sym, Hr. exact IH.
    + destruct (k =? r')%string; [auto | exact IH].
Qed.

Lemma behind_remove_ref (S : list string) (repo r : string) (w w' : World) :
  In repo S -> behind S w w' -> behind S w (remove_ref w' repo r).
Proof.
  intros Hin (H1 & H2 & H3 & H4 & H5). repeat split; try assumption; try apply H3.
  - intros repo' Hnot. cbn [remove_ref git_refs].
    destruct (repo' =? repo)%string eqn:Hr; [| apply H4, Hnot].
    apply String.eqb_eq in Hr. subst. contradiction.
  - intros repo' r' s. cbn [remove_ref git_refs].
    destruct (repo' =? repo)%string; [| apply H5].
    intros Hl. apply lookup_ref_filter in Hl. apply H5. exact Hl.
Qed.

Section DeleteSim.

Variables self self' : GithubBranchManager.
Hypothesis Hdry : dry_run self = true.
Hypothesis Hwet : dry_run self' = false.
Hypothesis Htok : github_obj self = github_obj self'.
Hypothesis Horg : org self = org self'.
Hypothesis Hend : end_date self = end_date self'.

Lemma delete_loop_follows (repo : Repository) (S : list string) (bs : list string) :
  In (full_name repo) S ->
  forall (w w' : World),
    behind S w w' ->
    follows (for_ bs (delete_one self repo) w) (for_ bs (delete_one self' repo) w') /\
    behind S w (world (for_ bs (delete_one self' repo) w')).
Proof.
  intros Hin. induction bs as [| b bs IH]; intros w w' Hb.
  - split; [| exact Hb]. exists []. split; [reflexivity | auto].
  - rewrite !for_cons, !delete_one_run, Hdry, Hwet.
    pose proof Hb as (_ & _ & _ & _ & Hmono).
    destruct (lookup_ref (git_refs w' (full_name repo)) ("heads/" ++ b)) as [s |] eqn:Hl'.
    + rewrite (Hmono _ _ _ Hl'). cbn [value world trace].
      destruct (refusal w' (DeleteGitRef (full_name repo) ("heads/" ++ b)));
        cbn [value world trace].
      { split; [| exact Hb]. eexists. cbn [value trace]. split; [| discriminate].
        rewrite quiet_app. reflexivity. }
      destruct (IH w (remove_ref w' (full_name repo) ("heads/" ++ b))
                  (behind_remove_ref _ _ _ _ _ Hin Hb)) as [[rest [Ht Hv]] Hb2].
      split; [| exact Hb2]. exists rest. cbn [value trace]. split; [| exact Hv].
      rewrite !quiet_app, Ht. reflexivity.
    + cbn [value world trace]. split; [| exact Hb].
      destruct (lookup_ref (git_refs w (full_name repo)) ("heads/" ++ b)) as [s |];
        cbn [value world trace].
      * eexists. cbn [value trace]. split; [| discriminate].
        rewrite quiet_app. reflexivity.
      * exists []. cbn [value trace]. split; [reflexivity | discriminate].
Qed.

Lemma dry_delete_repo_world (repo : Repository) (w : World) :
  world (delete_repo self repo w) = w.
Proof.
  rewrite delete_repo_run. cbv zeta.
  destruct (value (get_prs_branches_to_be_deleted self repo w)) as [[ps bs] |];
    [| reflexivity].
  cbn [world]. generalize w. induction bs as [| b bs IHb]; intros w0; [reflexivity |].
  rewrite for_cons, delete_one_run, Hdry.
  destruct (lookup_ref (git_refs w0 (full_name repo)) ("heads/" ++ b));
    cbn [value world]; [apply IHb | reflexivity].
Qed.

Lemma delete_repo_follows (repo : Repository) (S : list string) (w w' : World) :
  ~ In (full_name repo) S -> behind S w w' ->
  follows (delete_repo self repo w) (delete_repo self' repo w') /\
  behind (full_name repo :: S) w (world (delete_repo self' repo w')).
Proof.
  intros Hnot Hb. rewrite !delete_repo_run. cbv zeta.
  pose proof Hb as (_ & _ & Hiss & Hrefs & _).
  assert (Hcount : count_branches w' (full_name repo) = count_branches w (full_name repo))
    by (unfold count_branches; rewrite (Hrefs _ Hnot); reflexivity).
  rewrite Hcount, <- Hend.
  destruct (get_prs_sim self self' repo w w' Htok Hend Hiss) as [Ht Hv]. rewrite <- Ht.
  destruct (value (get_prs_branches_to_be_deleted self repo w)) as [[ps bs] |],
           (value (get_prs_branches_to_be_deleted self' repo w')) as [[ps' bs'] |];
    try contradiction.
  - destruct Hv as [_ Hbs]. cbn [snd] in Hbs. subst bs'.
    destruct (delete_loop_follows repo (full_name repo :: S) bs (in_eq _ _) w w'
                (behind_weaken _ _ _ _ Hb)) as [[rest [Ht2 Hv2]] Hb2].
    cbn [value world trace]. split; [| exact Hb2].
    exists rest. cbn [value trace]. split; [| exact Hv2].
    rewrite !quiet_app, Ht2, <- !app_assoc. reflexivity.
  - cbn [value world trace]. split; [| apply behind_weaken, Hb].
    exists []. cbn [value trace]. split; [rewrite app_nil_r; reflexivity | discriminate].
Qed.

Lemma delete_repos_follows (repos : list Repository) :
  forall (S : list string) (w w' : World),
    NoDup (map full_name repos) ->
    (forall repo, In repo repos -> ~ In (full_name repo) S) ->
    behind S w w' ->
    follows (for_ repos (delete_repo self) w) (for_ repos (delete_repo self') w').
Proof.
  induction repos as [| repo repos IH]; intros S w w' Hnodup Hfresh Hb.
  - exists []. split; [reflexivity | auto].
  - cbn [map] in Hnodup. inversion Hnodup as [| ? ? Hnotin Hnodup']; subst.
    destruct (delete_repo_follows repo S w w' (Hfresh _ (in_eq _ _)) Hb)
      as [[rest [Ht Hv]] Hb2].
    pose proof (dry_delete_repo_world repo w) as Hw.
    rewrite !for_cons.
    destruct (value (delete_repo self' repo w')) as [[] |] eqn:Hv'.
    + destruct (Hv eq_refl) as [Hok ->]. rewrite Hok, Hw. rewrite app_nil_r in Ht.
      destruct (IH (full_name repo :: S) w (world (delete_repo self' repo w')) Hnodup')
        as [rest2 [Ht2 Hv2]]; [| exact Hb2 |].
      { intros r Hr [Heq | Hin].
        - apply Hnotin. rewrite Heq. apply in_map. exact Hr.
        - exact (Hfresh r (in_cons _ _ _ Hr) Hin). }
      exists rest2. cbn [value trace]. split; [| exact Hv2].
      rewrite !quiet_app, Ht, Ht2, <- app_assoc. reflexivity.
    + cbn [value trace].
      destruct (value (delete_repo self repo w)) as [[] |]; cbn [value trace].
      * eexists. cbn [value trace]. split; [| discriminate].
        rewrite quiet_app, Ht, <- app_assoc. reflexivity.
      * exists rest. cbn [value trace]. split; [exact Ht | discriminate].
Qed.

Lemma delete_stale_branches_follows (w : World) :
  (forall repos, organizations w (org self) = Some repos -> NoDup (map full_name repos)) ->
  follows (delete_stale_branches self w) (delete_stale_branches self' w).
Proof.
  intros Hnodup. unfold delete_stale_branches, bind. rewrite !get_repos_run, <- Horg.
  destruct (organizations w (org self)) as [repos |] eqn:Hrepos; cbn [value world trace].
  - destruct (delete_repos_follows repos [] w w (Hnodup _ eq_refl)) as [rest [Ht Hv]].
    + intros repo _ [].
    + apply behind_refl.
    + exists rest. cbn [value trace]. split; [| exact Hv].
      change (Sent ?r :: ?t) with ([Sent r] ++ t)%list.
      rewrite !quiet_app, Ht, <- app_assoc. reflexivity.
  - exists []. split; [reflexivity | discriminate].
Qed.

End DeleteSim.

(** *** A dry run of the label driver next to a run that labels *)

Section LabelFollows.

Variables self self' : GithubBranchManager.
Hypothesis Hdry : dry_run self = true.
Hypothesis Hwet : dry_run self' = false.
Hypothesis Htok : github_obj self = github_obj self'.
Hypothesis Horg : org self = org self'.
Hypothesis Hend : end_date self = end_date self'.

Lemma dry_label_loop_world (repo : Repository) (prs : list PullRequest) :
  forall (acc : list string) (w : World),
    world (foldM (label_one self repo) prs acc w) = w.
Proof.
  induction prs as [| pr prs IH]; intros acc w; [reflexivity |].
  rewrite foldM_cons, bind_run, label_one_run, Hdry.
  destruct (find_pull w (full_name repo) (number pr)); cbn [value world];
    [apply IH | reflexivity].
Qed.

Lemma dry_label_repo_world (repo : Repository) (w : World) :
  world (label_repo self repo w) = w.
Proof.
  rewrite label_repo_run. cbv zeta.
  destruct (value (get_prs_branches_to_be_deleted self repo w)) as [[ps bs] |];
    [| reflexivity].
  pose proof (dry_label_loop_world repo ps [] w) as H.
  destruct (value (foldM (label_one self repo) ps [] w)); exact H.
Qed.

Lemma label_loop_trails (repo : Repository) (prs : list PullRequest) :
  forall (prs' : list PullRequest) (acc acc' : list string) (w w' : World),
    relabelled w w' -> map number prs = map number prs' ->
    Forall (fun pr => unprotected w (full_name repo) (number pr)) prs ->
    trails (foldM (label_one self repo) prs acc w)
           (foldM (label_one self' repo) prs' acc' w').
Proof.
  induction prs as [| pr prs IH]; intros prs' acc acc' w w' Hrel Hnums Hall.
  - destruct prs'; [| discriminate]. exists []. cbn. split; [reflexivity |].
    intros _. split; [eauto | reflexivity].
  - destruct prs' as [| pr' prs']; [discriminate |].
    injection Hnums as Hn Hnums. inversion Hall as [| ? ? Hpr Hrest]; subst.
    rewrite !foldM_cons, !bind_run, !label_one_run, <- Hn, Hdry, Hwet.
    pose proof (find_pull_relabelled w w' (full_name repo) (number pr)
                  (relabelled_issues _ _ Hrel)) as Hp.
    destruct (find_pull w (full_name repo) (number pr)) as [p |],
             (find_pull w' (full_name repo) (number pr)) as [p' |];
      try contradiction; unfold trails; cbn [value world trace].
    + destruct (refusal w' (PutLabels (full_name repo) (number pr) stale_label));
        cbn [value world trace].
      * eexists. split; [rewrite observe_app; reflexivity |].
        intros [b Hb]. discriminate.
      * assert (Hrel2 : relabelled w (put_labels w' (full_name repo) (number pr)
                                        stale_label)).
        { eapply relabelled_trans; [exact Hrel |]. apply put_labels_relabelled.
          eapply unprotected_relabelled; eassumption. }
        destruct (IH prs' acc (acc' ++ [head_ref p'])%list _ _ Hrel2 Hnums Hrest)
          as [rest [Ht Hv]].
        exists rest. split; [| exact Hv].
        rewrite !observe_app, Ht, app_assoc. reflexivity.
    + exists []. split; [rewrite app_nil_r; reflexivity |].
      intros [b Hb]. discriminate.
Qed.

Lemma label_repo_trails (repo : Repository) (w w' : World) :
  relabelled w w' -> trails (label_repo self repo w) (label_repo self' repo w').
Proof.
  intros Hrel. unfold trails. rewrite !label_repo_run. cbv zeta.
  rewrite <- (count_branches_relabelled w w' _ Hrel).
  destruct (get_prs_sim self self' repo w w' Htok Hend (relabelled_issues _ _ Hrel))
    as [Ht Hv].
  rewrite <- Ht.
  destruct (value (get_prs_branches_to_be_deleted self repo w)) as [[ps bs] |] eqn:Hg,
           (value (get_prs_branches_to_be_deleted self' repo w')) as [[ps' bs'] |];
    try contradiction.
  - destruct Hv as [Hkeys _]. cbn [fst] in Hkeys.
    assert (Hnums : map number ps = map number ps').
    { apply (f_equal (map snd)) in Hkeys. rewrite !map_map in Hkeys. exact Hkeys. }
    destruct (label_loop_trails repo ps ps' [] [] w w' Hrel Hnums
                (returned_unprotected _ _ _ _ _ Hg)) as [rest [Ht2 Hv2]].
    destruct (value (foldM (label_one self' repo) ps' [] w')) as [b' |].
    + destruct (Hv2 (ex_intro _ b' eq_refl)) as [[a Ha] ->]. rewrite Ha.
      rewrite app_nil_r in Ht2. exists []. cbn [value trace].
      split; [| intros _; split; [eauto | reflexivity]].
      rewrite !observe_app, Ht2, app_nil_r. reflexivity.
    + destruct (value (foldM (label_one self repo) ps [] w)) as [a |];
        cbn [value trace].
      * eexists. split; [| intros [b Hb]; discriminate].
        rewrite !observe_app, Ht2, <- !app_assoc. reflexivity.
      * exists rest. split; [| intros [b Hb]; discriminate].
        rewrite !observe_app, Ht2, <- !app_assoc. reflexivity.
  - exists []. cbn [value trace]. split; [rewrite app_nil_r; reflexivity |].
    intros [b Hb]. discriminate.
Qed.

Lemma label_repos_trails (repos : list Repository) :
  forall (w w' : World),
    relabelled w w' ->
    trails (for_ repos (label_repo self) w) (for_ repos (label_repo self') w').
Proof.
  unfold trails.
  induction repos as [| repo repos IH]; intros w w' Hrel.
  - exists []. split; [reflexivity |]. intros _. split; [exists tt |]; reflexivity.
  - rewrite !for_cons.
    destruct (label_repo_trails repo w w' Hrel) as [rest [Ht Hv]].
    pose proof (dry_label_repo_world repo w) as Hw.
    pose proof (label_repo_relabelled self' repo w') as Hw'.
    destruct (value (label_repo self' repo w')) as [[] |].
    + destruct (Hv (ex_intro _ tt eq_refl)) as [[[] Ha] ->]. rewrite Ha, Hw.
      rewrite app_nil_r in Ht.
      destruct (IH w (world (label_repo self' repo w'))
                  (relabelled_trans _ _ _ Hrel Hw')) as [rest2 [Ht2 Hv2]].
      exists rest2. cbn [value trace]. split; [| exact Hv2].
      rewrite !observe_app, Ht, Ht2, <- app_assoc. reflexivity.
    + cbn [value trace].
      destruct (value (label_repo self repo w)) as [[] |]; cbn [value trace].
      * eexists. split; [| intros [b Hb]; discriminate].
        rewrite observe_app, Ht, <- app_assoc. reflexivity.
      * exists rest. split; [exact Ht | intros [b Hb]; discriminate].
Qed.

Lemma label_stale_branches_trails (w : World) :
  trails (label_stale_branches self w) (label_stale_branches self' w).
Proof.
  unfold trails, label_stale_branches. rewrite !bind_run, !get_repos_run, <- Horg.
  destruct (organizations w (org self)) as [repos |]; cbn [value world trace].
  - destruct (label_repos_trails repos w w (relabelled_refl w)) as [rest [Ht Hv]].
    exists rest. split; [| exact Hv].
    change (Sent ?r :: ?t) with ([Sent r] ++ t)%list.
    rewrite !observe_app, Ht, <- app_assoc. reflexivity.
  - exists []. split; [reflexivity |]. intros [b Hb]. discriminate.
Qed.

End LabelFollows.

(** *** What a dry run and a run that mutates have in common *)

Lemma requests_quiet (t : list Event) : requests (quiet t) = reads t.
Proof.
  unfold reads. induction t as [| e t IH]; [reflexivity |].
  destruct e as [r | l | d]; cbn [quiet filter requests flat_map app].
  - fold (quiet t). fold (requests t). destruct (mutating r); cbn [negb filter].
    + exact IH.
    + cbn [requests flat_map app]. fold (requests (quiet t)). rewrite IH. reflexivity.
  - fold (quiet t). fold (requests t). cbn [requests flat_map app].
    fold (requests (quiet t)). exact IH.
  - fold (quiet t). fold (requests t). cbn [requests flat_map app].
    fold (requests (quiet t)). exact IH.
Qed.

Lemma log_output_quiet (t : list Event) : log_output (quiet t) = log_output t.
Proof.
  induction t as [| e t IH]; [reflexivity |].
  destruct e as [r | l | d]; cbn [quiet filter log_output flat_map app].
  - fold (quiet t). fold (log_output t). destruct (mutating r); cbn [negb];
      [exact IH |].
    cbn [log_output flat_map app]. fold (log_output (quiet t)). exact IH.
  - fold (quiet t). fold (log_output t). cbn [log_output flat_map app].
    fold (log_output (quiet t)). rewrite IH. reflexivity.
  - fold (quiet t). fold (log_output t). cbn [log_output flat_map app].
    fold (log_output (quiet t)). exact IH.
Qed.

Lemma reads_app (t1 t2 : list Event) : reads (t1 ++ t2) = (reads t1 ++ reads t2)%list.
Proof. unfold reads. rewrite requests_app. apply filter_app. Qed.

Lemma reads_observe (t : list Event) : reads (observe false t) = reads t.
Proof.
  induction t as [| e t IH]; [reflexivity |].
  change (e :: t) with ([e] ++ t)%list.
  rewrite observe_app, !reads_app, IH. f_equal.
  destruct e as [[] | [] |]; reflexivity.
Qed.

Lemma log_output_observe (t : list Event) :
  log_output (observe false t) = map blank_summary (log_output t).
Proof.
  induction t as [| e t IH]; [reflexivity |].
  change (e :: t) with ([e] ++ t)%list.
  rewrite observe_app, !log_output_app, map_app, IH. f_equal.
  destruct e as [[] | [] |]; reflexivity.
Qed.

(** What the reads and the log of a run are, given what is observed
    of it. *)
Lemma reads_observed (t rest : list Event) (t' : list Event) :
  observe false t = (observe false t' ++ rest)%list ->
  reads t = (reads t' ++ reads rest)%list /\
  map blank_summary (log_output t) =
  (map blank_summary (log_output t') ++ log_output rest)%list.
Proof.
  intros H. split.
  - rewrite <- (reads_observe t), H, reads_app, reads_observe. reflexivity.
  - rewrite <- (log_output_observe t), H, log_output_app, log_output_observe.
    reflexivity.
Qed.

(** C4, as the code has it.  A dry run of either driver sends no
    mutating request and leaves the remote state as it was.  Next to
    it, from the same state and with the same token, organization and
    cutoff, the run that mutates does what the dry run does as far as
    it gets: its reading requests (so its queries, for the same
    candidates) and its log lines are the first of those of the dry
    run, and all of them when it completes; it can stop earlier,
    because a write of its own was refused or undid what a later step
    looks for.  For the label driver the log lines are compared
    without the list of the summary line of each repository, which
    names the branches that were labeled and is empty in a dry run.
    For the delete driver the repositories are taken to have distinct
    full names. *)
Theorem dry_run_changes_nothing (self self' : GithubBranchManager) (w : World) :
  dry_run self = true -> dry_run self' = false ->
  github_obj self = github_obj self' ->
  org self = org self' -> end_date self = end_date self' ->
  let dry_label := label_stale_branches self w in
  let wet_label := label_stale_branches self' w in
  let dry_delete := delete_stale_branches self w in
  let wet_delete := delete_stale_branches self' w in
  (mutating_calls (trace dry_label) = [] /\ world dry_label = w /\
   mutating_calls (trace dry_delete) = [] /\ world dry_delete = w) /\
  (exists more_reads more_log,
     reads (trace dry_label) = (reads (trace wet_label) ++ more_reads)%list /\
     map blank_summary (log_output (trace dry_label)) =
     (map blank_summary (log_output (trace wet_label)) ++ more_log)%list /\
     (value wet_label = Ok tt ->
      value dry_label = Ok tt /\ more_reads = [] /\ more_log = [])) /\
  ((forall repos, organizations w (org self) = Some repos ->
                  NoDup (map full_name repos)) ->
   exists more_reads more_log,
     reads (trace dry_delete) = (reads (trace wet_delete) ++ more_reads)%list /\
     log_output (trace dry_delete) = (log_output (trace wet_delete) ++ more_log)%list /\
     (value wet_delete = Ok tt ->
      value dry_delete = Ok tt /\ more_reads = [] /\ more_log = [])).
Proof.
  intros Hdry Hwet Htok Horg Hend dry_label wet_label dry_delete wet_delete.
  destruct (dry_run_reads_only self Hdry) as [Hl Hd].
  split; [| split].
  - destruct (Hl w) as [Hlt Hlw]. destruct (Hd w) as [Hdt Hdw].
    repeat split; try assumption; apply reads_only_no_mutation; assumption.
  - destruct (label_stale_branches_trails self self' Hdry Hwet Htok Horg Hend w)
      as [rest [Ht Hv]].
    fold dry_label wet_label in Ht, Hv.
    destruct (reads_observed _ _ _ Ht) as [Hr Hlog].
    exists (reads rest), (log_output rest). split; [exact Hr |]. split; [exact Hlog |].
    intros Hok. destruct (Hv (ex_intro _ tt Hok)) as [[[] Ha] ->]. auto.
  - intros Hnodup.
    destruct (delete_stale_branches_follows self self' Hdry Hwet Htok Horg Hend w Hnodup)
      as [rest [Ht Hv]].
    fold dry_delete wet_delete in Ht, Hv.
    exists (requests rest), (log_output rest). split; [| split].
    + rewrite <- !requests_quiet, Ht. apply requests_app.
    + rewrite <- (log_output_quiet (trace dry_delete)), Ht, log_output_app,
        log_output_quiet. reflexivity.
    + intros Hok. destruct (Hv Hok) as [Hok' ->]. auto.
Qed.

Lemma dry_run_changes_nothing_witness :
  mutating_calls (trace (label_stale_branches (Scenario.manager true) Scenario.world_A)) = [] /\
  world (label_stale_branches (Scenario.manager true) Scenario.world_A) = Scenario.world_A /\
  mutating_calls (trace (delete_stale_branches (Scenario.manager true) Scenario.world_A)) = [] /\
  world (delete_stale_branches (Scenario.manager true) Scenario.world_A) = Scenario.world_A.
Proof.
  exact (proj1 (dry_run_changes_nothing (Scenario.manager true) (Scenario.manager false)
                  Scenario.world_A eq_refl eq_refl eq_refl eq_refl eq_refl)).
Defined.

(** Scenario A of the specification under the label driver: the log of
    the dry run and the log of the run that labels differ in their last
    line. *)
Lemma dry_run_label_log_differs :
  log_output (trace (label_stale_branches (Scenario.manager true) Scenario.world_A)) =
    [log_processing "a"; log_total_branches "a" 4; log_getting_branches "a";
     log_applying_label 1 "a"; log_applying_label 2 "a"; log_applying_label 3 "a";
     log_branches_labeled "a" []] /\
  log_output (trace (label_stale_branches (Scenario.manager false) Scenario.world_A)) =
    [log_processing "a"; log_total_branches "a" 4; log_getting_branches "a";
     log_applying_label 1 "a"; log_applying_label 2 "a"; log_applying_label 3 "a";
     log_branches_labeled "a" ["feature-1"; "feature-2"; "feature-3"]].
Proof. vm_compute. split; reflexivity. Qed.

(** Scenario C of the specification: a dry run of the delete driver logs
    the three resolved references and deletes none. *)
Lemma dry_run_delete_scenario :
  let o := delete_stale_branches (Scenario.manager true) Scenario.world_A in
  value o = Ok tt /\
  log_output (trace o) =
    [log_processing "a"; log_total_branches "a" 4; log_getting_branches "a";
     log_deleting_older (date 738635) "a";
     log_branch "feature-1" "c1"; log_branch "feature-2" "c2";
     log_branch "feature-3" "c3"] /\
  mutating_calls (trace o) = [].
Proof. vm_compute. repeat split. Qed.

(** Scenario A on a host that refuses every write: the dry run of the
    label driver completes, and the run that labels stops at its first
    label application, with the status of the refusal. *)
Lemma refused_write_ends_labeling_run :
  let dry := label_stale_branches (Scenario.manager true) world_read_only in
  let wet := label_stale_branches (Scenario.manager false) world_read_only in
  value dry = Ok tt /\ value wet = Raise (GithubException 403) /\
  world wet = world_read_only /\
  mutating_calls (trace wet) = [PutLabels "acme/a" 1 ["will-be-deleted-within-a-week"]] /\
  log_output (trace wet) =
    [log_processing "a"; log_total_branches "a" 4; log_getting_branches "a";
     log_applying_label 1 "a"].
Proof. vm_compute. repeat split. Qed.

(** * Further properties of the code *)

(** ** [__init__]: when it returns and what it raises *)

Lemma rsub_outcome (today p : Z) :
  match rsub (new_relativedelta 0 p) (date today) with
  | Ok d => cutoff_in_range today p = true /\ instant d = 24 * today - p
  | Raise e => cutoff_in_range today p = false /\ e = OverflowError
  end.
Proof.
  pose proof (rsub_hours today p) as Hhours.
  unfold rsub, add in *. destruct (neg_new_relativedelta p) as [Hsum Htime].
  set (r := neg (new_relativedelta 0 p)) in *. clearbody r.
  unfold add_timedelta, cutoff_in_range in *. rewrite Htime, Hsum in *.
  assert (Hshift : (24 * today + 0 + - p) / 24 = today + - p / 24).
  { replace (24 * today + 0 + - p) with (- p + today * 24) by lia.
    rewrite Z.div_add by lia. lia. }
  destruct (Z.abs (- p / 24) >? _MAXDELTADAYS) eqn:Hbig.
  - split; reflexivity.
  - destruct (hours r =? 0); cbn [negb] in *.
    + destruct ((0 <? today + - p / 24) && (today + - p / 24 <=? _MAXORDINAL)) eqn:Hin.
      * split; [reflexivity | apply Hhours; reflexivity].
      * split; reflexivity.
    + rewrite Hshift in *.
      destruct ((0 <? today + - p / 24) && (today + - p / 24 <=? _MAXORDINAL)) eqn:Hin.
      * split; [reflexivity | apply Hhours; reflexivity].
      * split; reflexivity.
Qed.

(** X1.  What [__init__] does, case by case.  It sends one request,
    the lookup of the organization, made with the token it is given; it
    sends no mutating request and leaves the remote state as it is.
    When the host does not take the token the call raises the
    bad-credentials error; when the host refuses the lookup it raises
    with the status of the refusal; when the organization is not there
    it raises the not-found error: in these three cases the clock is not
    read and nothing is logged.  When the lookup is answered the clock
    is read once, and the call returns a manager, holding the token, the
    organization and the cutoff, if the cutoff falls on a day of the
    calendar, and raises [OverflowError] if it does not.  The line
    "initialized" is logged only when a manager is returned. *)
Theorem init_outcome (tok org_name : string) (date_period : Z) (dry : bool)
    (w : World) :
  let o := __init__ tok org_name date_period dry w in
  world o = w /\ mutating_calls (trace o) = [] /\
  requests (trace o) = [GetOrganization org_name] /\
  if accepts_token w tok then
    match refusal w (GetOrganization org_name) with
    | Some status =>
        value o = Raise (GithubException status) /\
        clock_reads (trace o) = [] /\ log_output (trace o) = []
    | None =>
        match organizations w org_name with
        | None =>
            value o = Raise UnknownObjectException /\
            clock_reads (trace o) = [] /\ log_output (trace o) = []
        | Some _ =>
            clock_reads (trace o) = [today w] /\
            if cutoff_in_range (today w) date_period then
              (exists d, value o = Ok (mk_manager tok org_name d dry) /\
                         instant d = 24 * today w - date_period) /\
              log_output (trace o) = [log_initialized org_name date_period dry]
            else value o = Raise OverflowError /\ log_output (trace o) = []
        end
    end
  else
    value o = Raise BadCredentialsException /\
    clock_reads (trace o) = [] /\ log_output (trace o) = [].
Proof.
  cbv zeta. rewrite init_run.
  destruct (accepts_token w tok); [| repeat split].
  destruct (refusal w (GetOrganization org_name)); [repeat split |].
  destruct (organizations w org_name) as [repos |]; [| repeat split].
  pose proof (rsub_outcome (today w) date_period) as Hr.
  destruct (rsub (new_relativedelta 0 date_period) (date (today w))) as [d | e];
    destruct Hr as [-> Hr].
  - repeat split. exists d. split; [reflexivity | exact Hr].
  - subst e. repeat split.
Qed.

(** ** The staleness filter: what it returns, when it raises, what it sends *)

(** X2.  When the filter returns, the pull requests it returns are, by
    number and in the order of the listing, exactly the listed issues
    of the repository that are open, created before the cutoff and
    without the protective label; each comes with the item the remote
    state holds for it, and its branch is in the list of branches. *)
Theorem filter_returns_exactly_the_stale (self : GithubBranchManager)
    (repo : Repository) (w : World) (ps : list PullRequest) (bs : list string) :
  value (get_prs_branches_to_be_deleted self repo w) = Ok (ps, bs) ->
  map number ps =
    filter (is_candidate self w (full_name repo)) (issue_numbers w (full_name repo)) /\
  (forall p, In p ps ->
     pr_repo p = full_name repo /\
     issue_at w (full_name repo) (number p) = Some (pr_item p) /\
     head (pr_item p) = Some (head_ref p) /\ In (head_ref p) bs).
Proof.
  intros Hok. destruct (get_prs_ok _ _ _ _ _ Hok) as [Hbs Hall]. split.
  - rewrite <- candidates_numbers.
    apply Forall2_keys in Hall. apply (f_equal (map snd)) in Hall.
    rewrite !map_map in Hall. exact Hall.
  - intros p Hin. destruct (Forall2_in_r _ _ _ _ Hall Hin) as (x & Hx & Hp).
    apply find_pull_some in Hp. destruct Hp as (Hr & Hn & Hat & Hh).
    apply in_candidates in Hx. destruct Hx as (Hxr & _).
    rewrite Hxr in Hr, Hat. rewrite <- Hn in Hat.
    repeat split; try assumption. rewrite Hbs. apply in_map. exact Hin.
Qed.

Lemma filter_returns_exactly_the_stale_witness :
  map number
    [mk_pull "acme/a" 1 (Scenario.pr [] "feature-1") "feature-1";
     mk_pull "acme/a" 3 (Scenario.pr [] "feature-3") "feature-3"]
  = filter (is_candidate (Scenario.manager false) Scenario.world_B "acme/a")
           (issue_numbers Scenario.world_B "acme/a").
Proof.
  exact (proj1 (filter_returns_exactly_the_stale (Scenario.manager false)
                  Scenario.repo_a Scenario.world_B _ _ eq_refl)).
Defined.

(** X3.  A plain issue among the candidates ends the filter.  When an
    open issue of the repository, older than the cutoff and without the
    protective label, is not a pull request, the filter does not
    return: it raises. *)
Theorem filter_raises_on_plain_issue (self : GithubBranchManager)
    (repo : Repository) (w : World) (n : Z) (it : Item) :
  In n (issue_numbers w (full_name repo)) ->
  issue_at w (full_name repo) n = Some it ->
  is_candidate self w (full_name repo) n = true -> head it = None ->
  exists e, value (get_prs_branches_to_be_deleted self repo w) = Raise e.
Proof.
  intros Hn Hat Hc Hh.
  destruct (value (get_prs_branches_to_be_deleted self repo w)) as [[ps bs] | e] eqn:Hg;
    [| eauto].
  exfalso. destruct (get_prs_ok _ _ _ _ _ Hg) as [_ Hall].
  assert (Hx : In (mk_issue (full_name repo) n it) (candidates self repo w)).
  { apply in_candidates. cbn [issue_repo issue_number issue_item].
    unfold is_candidate in Hc. rewrite Hat in Hc.
    apply andb_prop in Hc. destruct Hc as [Hc Hl]. apply andb_prop in Hc.
    destruct Hc as [Ho Hold]. apply Z.ltb_lt in Hold. apply negb_true_iff in Hl.
    auto 8. }
  assert (Hsome : exists p, pull_of w (mk_issue (full_name repo) n it) = Some p).
  { clear - Hall Hx. induction Hall as [| y p ys ps' Hp _ IH]; [destruct Hx |].
    destruct Hx as [-> | Hx]; eauto. }
  destruct Hsome as [p Hp]. unfold pull_of, find_pull in Hp.
  cbn [issue_repo issue_number] in Hp. rewrite Hat, Hh in Hp. discriminate.
Qed.

Lemma filter_raises_on_plain_issue_witness :
  exists e,
    value (get_prs_branches_to_be_deleted (Scenario.manager false) Scenario.repo_a
             world_plain_issue) = Raise e.
Proof.
  apply (filter_raises_on_plain_issue (Scenario.manager false) Scenario.repo_a
           world_plain_issue 2 (mk_item true Scenario.old ["bug"] None)).
  - right. left. reflexivity.
  - reflexivity.
  - reflexivity.
  - reflexivity.
Defined.


(** ** The label driver: what it leaves alone *)

(** An event of a loop is an event of one of its items, run in a state
    reached from the initial one. *)
Lemma for_in_trace {A} (R : World -> World -> Prop) (body : A -> M unit) :
  (forall w, R w w) -> (forall w1 w2 w3, R w1 w2 -> R w2 w3 -> R w1 w3) ->
  (forall x w, R w (world (body x w))) ->
  forall (xs : list A) (w : World) (e : Event),
    In e (trace (for_ xs body w)) ->
    exists x wx, In x xs /\ R w wx /\ In e (trace (body x wx)).
Proof.
  intros Hrefl Htrans HR. induction xs as [| x1 xs IH]; intros w e Hin;
    [destruct Hin |].
  rewrite for_cons in Hin.
  assert (Hcases : In e (trace (body x1 w)) \/
                   In e (trace (for_ xs body (world (body x1 w))))).
  { destruct (value (body x1 w)); cbn [trace] in Hin; [| left; exact Hin].
    apply in_app_or in Hin. exact Hin. }
  destruct Hcases as [H1 | H2].
  - exists x1, w. split; [left; reflexivity |]. split; [apply Hrefl | exact H1].
  - destruct (IH _ _ H2) as (x & wx & Hx & Hw & He).
    exists x, wx. split; [right; exact Hx |]. split; [| exact He].
    eapply Htrans; [apply HR | exact Hw].
Qed.

Lemma returned_numbers (self : GithubBranchManager) (repo : Repository) (w : World)
    (ps : list PullRequest) (bs : list string) :
  value (get_prs_branches_to_be_deleted self repo w) = Ok (ps, bs) ->
  map number ps =
  filter (is_candidate self w (full_name repo)) (issue_numbers w (full_name repo)).
Proof.
  intros Hok. destruct (get_prs_ok _ _ _ _ _ Hok) as [_ Hall].
  rewrite <- candidates_numbers.
  apply Forall2_keys in Hall. apply (f_equal (map snd)) in Hall.
  rewrite !map_map in Hall. exact Hall.
Qed.

(** The labeling loop applies labels to its pull requests only. *)
Lemma label_loop_puts_only (self : GithubBranchManager) (repo : Repository)
    (prs : list PullRequest) :
  forall (acc : list string) (w : World) (repo' : string) (n' : Z) (ls : list string),
    In (Sent (PutLabels repo' n' ls)) (trace (foldM (label_one self repo) prs acc w)) ->
    repo' = full_name repo /\ In n' (map number prs).
Proof.
  induction prs as [| pr prs IH]; intros acc w repo' n' ls Hin; [destruct Hin |].
  rewrite foldM_cons in Hin. unfold bind in Hin. rewrite label_one_run in Hin.
  destruct (find_pull w (full_name repo) (number pr)) as [p |];
    cbn [value world trace] in Hin.
  - assert (Hput : In (Sent (PutLabels repo' n' ls))
                      [Sent (GetPull (full_name repo) (number pr));
                       Logged (log_applying_label (number pr) (name repo));
                       Sent (PutLabels (full_name repo) (number pr) stale_label)] ->
                    repo' = full_name repo /\ In n' (map number (pr :: prs))).
    { intros [H | [H | [H | []]]]; try discriminate.
      injection H as <- <- _. split; [reflexivity | left; reflexivity]. }
    destruct (dry_run self); cbn [value world trace] in Hin.
    + apply in_app_or in Hin; destruct Hin as [Hin | Hin].
      * cbn in Hin. destruct Hin as [H | [H | []]]; discriminate.
      * destruct (IH _ _ _ _ _ Hin) as [Hr Hn]. split; [exact Hr | right; exact Hn].
    + destruct (refusal w (PutLabels (full_name repo) (number pr) stale_label));
        cbn [value world trace] in Hin; [exact (Hput Hin) |].
      apply in_app_or in Hin; destruct Hin as [Hin | Hin]; [exact (Hput Hin) |].
      destruct (IH _ _ _ _ _ Hin) as [Hr Hn]. split; [exact Hr | right; exact Hn].
  - cbn in Hin. destruct Hin as [H | []]. discriminate.
Qed.

Lemma label_repo_puts_only (self : GithubBranchManager) (repo : Repository)
    (w : World) (repo' : string) (n' : Z) (ls : list string) :
  In (Sent (PutLabels repo' n' ls)) (trace (label_repo self repo w)) ->
  repo' = full_name repo /\ is_candidate self w (full_name repo) n' = true.
Proof.
  rewrite label_repo_run. cbv zeta.
  destruct (get_prs_run self repo w) as (_ & Hm & _).
  assert (Hg : ~ In (Sent (PutLabels repo' n' ls))
                    (trace (get_prs_branches_to_be_deleted self repo w))).
  { intros Hin.
    assert (H : In (PutLabels repo' n' ls)
                   (mutating_calls (trace (get_prs_branches_to_be_deleted self repo w))))
      by (apply in_mutating_calls; split; [exact Hin | reflexivity]).
    rewrite Hm in H. destruct H. }
  assert (Hpre : forall t,
            In (Sent (PutLabels repo' n' ls))
               ([Logged (log_processing (name repo));
                 Sent (CountBranches (full_name repo));
                 Logged (log_total_branches (name repo)
                           (count_branches w (full_name repo)))] ++ t) ->
            In (Sent (PutLabels repo' n' ls)) t).
  { intros t [H | [H | [H | H]]]; try discriminate; exact H. }
  destruct (value (get_prs_branches_to_be_deleted self repo w)) as [[ps bs] |] eqn:Hok.
  - assert (Hloop : In (Sent (PutLabels repo' n' ls))
                       (trace (foldM (label_one self repo) ps [] w)) ->
                    repo' = full_name repo /\
                    is_candidate self w (full_name repo) n' = true).
    { intros Hin. destruct (label_loop_puts_only _ _ _ _ _ _ _ _ Hin) as [Hr Hn].
      split; [exact Hr |]. rewrite (returned_numbers _ _ _ _ _ Hok) in Hn.
      apply filter_In in Hn. apply Hn. }
    destruct (value (foldM (label_one self repo) ps [] w)); cbn [trace];
      intros Hin; apply Hpre in Hin; apply in_app_or in Hin;
      destruct Hin as [Hin | Hin]; try contradiction.
    + apply in_app_or in Hin. destruct Hin as [Hin | [Hin | []]];
        [auto | discriminate].
    + auto.
  - cbn [trace]. intros Hin. apply Hpre in Hin. contradiction.
Qed.

Lemma replay_at_untouched (refused : Request -> option Z) (repo : string) (n : Z)
    (t : list Event) :
  (forall ls, ~ In (Sent (PutLabels repo n ls)) t) ->
  forall o, replay_at refused repo n t o = o.
Proof.
  induction t as [| e t IH]; intros Hnot o; [reflexivity |].
  unfold replay_at in *. cbn [fold_left].
  rewrite IH by (intros ls Hin; apply (Hnot ls); right; exact Hin).
  destruct e as [r | |]; [| reflexivity | reflexivity]. destruct r; try reflexivity.
  cbn [relabel]. destruct (refused (PutLabels repo0 n0 ls)); [reflexivity |].
  destruct ((repo =? repo0)%string && (n =? n0)) eqn:Hk; [| reflexivity].
  apply andb_prop in Hk. destruct Hk as [Hr Hn].
  apply String.eqb_eq in Hr. apply Z.eqb_eq in Hn. subst.
  exfalso. apply (Hnot ls). left. reflexivity.
Qed.

(** X5.  The label driver changes candidates only.  An issue that is
    not a candidate of its repository when the run starts (it is closed,
    too recent, or carries the protective label), or whose repository is
    not one of the organization, is after the run what it was before,
    labels included, in a dry run or not, and however the run ends. *)
Theorem label_driver_touches_only_candidates (self : GithubBranchManager)
    (w : World) (repo : string) (n : Z) :
  is_candidate self w repo n = false \/
  (forall repos r, organizations w (org self) = Some repos -> In r repos ->
                   full_name r <> repo) ->
  issue_at (world (label_stale_branches self w)) repo n = issue_at w repo n.
Proof.
  intros Hout. rewrite (proj2 (tracks_label_stale_branches self w)).
  apply replay_at_untouched. intros ls Hin.
  unfold label_stale_branches, bind in Hin. rewrite get_repos_run in Hin.
  destruct (organizations w (org self)) as [repos |] eqn:Horg;
    cbn [value world trace] in Hin;
    destruct Hin as [Hin | Hin]; try discriminate; [| destruct Hin].
  destruct (for_in_trace relabelled (label_repo self) relabelled_refl relabelled_trans
              (label_repo_relabelled self) repos w _ Hin) as (r & wx & Hr & Hrel & He).
  destruct (label_repo_puts_only _ _ _ _ _ _ He) as [Hname Hc].
  rewrite <- (is_candidate_relabelled self w wx _ _ (relabelled_issues _ _ Hrel)) in Hc.
  destruct Hout as [Hnot | Hnot].
  - rewrite <- Hname in Hc. congruence.
  - apply (Hnot repos r eq_refl Hr). symmetry. exact Hname.
Qed.

Lemma label_driver_touches_only_candidates_witness :
  issue_at (world (label_stale_branches (Scenario.manager false) Scenario.world_B))
           "acme/a" 2
  = issue_at Scenario.world_B "acme/a" 2.
Proof.
  apply (label_driver_touches_only_candidates (Scenario.manager false)
           Scenario.world_B "acme/a" 2).
  left. reflexivity.
Defined.

(** ** The delete driver: what it deletes and what it spares *)

Lemma for_invariant {A} (I : World -> Prop) (body : A -> M unit) (xs : list A) :
  (forall x w, In x xs -> I w -> I (world (body x w))) ->
  forall w, I w -> I (world (for_ xs body w)).
Proof.
  induction xs as [| x xs IH]; intros Hstep w Hw; [exact Hw |].
  rewrite for_cons.
  assert (H1 : I (world (body x w))) by (apply Hstep; [left; reflexivity | exact Hw]).
  destruct (value (body x w)); cbn [world]; [| exact H1].
  apply IH; [| exact H1]. intros y wy Hy. apply Hstep. right. exact Hy.
Qed.

(** A completed loop ran each of its items to completion, in a state
    reached from the initial one, and from which the final one was
    reached. *)
Lemma for_ok_around {A} (R : World -> World -> Prop) (body : A -> M unit) :
  (forall w, R w w) -> (forall w1 w2 w3, R w1 w2 -> R w2 w3 -> R w1 w3) ->
  (forall x w, R w (world (body x w))) ->
  forall (xs : list A) (w : World),
    value (for_ xs body w) = Ok tt ->
    forall x, In x xs ->
      exists wx, R w wx /\ value (body x wx) = Ok tt /\
                 R (world (body x wx)) (world (for_ xs body w)) /\
                 incl (trace (body x wx)) (trace (for_ xs body w)).
Proof.
  intros Hrefl Htrans HR. induction xs as [| x1 xs IH]; intros w Hok x Hin;
    [destruct Hin |].
  assert (Hrest : forall w0, R w0 (world (for_ xs body w0))).
  { intros w0. apply (for_invariant (R w0) body xs); [| apply Hrefl].
    intros y wy _ Hy. eapply Htrans; [exact Hy | apply HR]. }
  rewrite for_cons in Hok |- *.
  destruct (value (body x1 w)) as [[] |] eqn:H1; cbn [value world trace] in *;
    [| discriminate].
  destruct Hin as [-> | Hin].
  - exists w. split; [apply Hrefl |]. split; [exact H1 |].
    split; [apply Hrest | apply incl_appl, incl_refl].
  - destruct (IH _ Hok x Hin) as (wx & Hw & Hv & Hafter & Hincl).
    exists wx. split; [eapply Htrans; [apply HR | exact Hw] |].
    split; [exact Hv |]. split; [exact Hafter | apply incl_appr; exact Hincl].
Qed.

Lemma shrunk_refl (w : World) : shrunk w w.
Proof. unfold shrunk, same_host. repeat split; auto. Qed.

Lemma shrunk_trans (w1 w2 w3 : World) : shrunk w1 w2 -> shrunk w2 w3 -> shrunk w1 w3.
Proof.
  intros ((A0 & A0') & A1 & A2 & A3 & A4 & A5) ((B0 & B0') & B1 & B2 & B3 & B4 & B5).
  unfold shrunk, same_host. repeat split; try congruence.
  - intros H. apply A5, B5, H.
  - intros H. apply A5, B5, H.
Qed.

Lemma shrunk_remove_ref (w : World) (repo r : string) : shrunk w (remove_ref w repo r).
Proof.
  unfold shrunk, same_host.
  repeat split; try reflexivity; cbn [remove_ref git_refs];
    destruct (repo0 =? repo)%string; auto.
  - intros H. apply filter_In in H. apply H.
  - apply lookup_ref_filter.
Qed.

Lemma shrunk_none (w w' : World) (repo k : string) :
  shrunk w w' -> lookup_ref (git_refs w repo) k = None ->
  lookup_ref (git_refs w' repo) k = None.
Proof.
  intros (_ & _ & _ & _ & _ & H) Hnone.
  destruct (lookup_ref (git_refs w' repo) k) as [s |] eqn:Hl; [| reflexivity].
  apply H in Hl. congruence.
Qed.

Lemma shrunk_same_issues (w w' : World) : shrunk w w' -> same_issues w w'.
Proof.
  intros ((Ha & Hb) & _ & _ & Hn & Hat & _).
  split; [split; congruence |]. split; [congruence |].
  intros repo n. rewrite Hat. apply same_entry_refl.
Qed.

Lemma stale_branch_shrunk (self : GithubBranchManager) (w w' : World) (repo b : string) :
  shrunk w w' -> stale_branch self w' repo b <-> stale_branch self w repo b.
Proof.
  intros (_ & _ & _ & Hn & Hat & _). unfold stale_branch, is_candidate.
  rewrite Hn, Hat. reflexivity.
Qed.

Lemma lookup_ref_removed (w : World) (repo r : string) :
  lookup_ref (git_refs (remove_ref w repo r) repo) r = None.
Proof.
  cbn [remove_ref git_refs]. rewrite String.eqb_refl. apply lookup_ref_filter_same.
Qed.

Lemma delete_one_shrunk (self : GithubBranchManager) (repo : Repository)
    (b : string) (w : World) :
  shrunk w (world (delete_one self repo b w)).
Proof.
  rewrite delete_one_run.
  destruct (lookup_ref (git_refs w (full_name repo)) ("heads/" ++ b));
    [destruct (dry_run self);
     [| destruct (refusal w (DeleteGitRef (full_name repo) ("heads/" ++ b)))] |];
    cbn [world]; auto using shrunk_refl, shrunk_remove_ref.
Qed.

Lemma delete_loop_shrunk (self : GithubBranchManager) (repo : Repository)
    (bs : list string) (w : World) :
  shrunk w (world (for_ bs (delete_one self repo) w)).
Proof.
  apply (for_invariant (shrunk w)); [| apply shrunk_refl].
  intros b wb _ Hb. eapply shrunk_trans; [exact Hb | apply delete_one_shrunk].
Qed.

Lemma delete_repo_shrunk (self : GithubBranchManager) (repo : Repository) (w : World) :
  shrunk w (world (delete_repo self repo w)).
Proof.
  rewrite delete_repo_run. cbv zeta.
  destruct (value (get_prs_branches_to_be_deleted self repo w)) as [[ps bs] |];
    cbn [world]; [apply delete_loop_shrunk | apply shrunk_refl].
Qed.

(** The branches the filter returns are the heads of the candidates. *)
Lemma returned_branches (self : GithubBranchManager) (repo : Repository) (w : World)
    (ps : list PullRequest) (bs : list string) (b : string) :
  value (get_prs_branches_to_be_deleted self repo w) = Ok (ps, bs) ->
  In b bs <-> stale_branch self w (full_name repo) b.
Proof.
  intros Hok. pose proof (returned_numbers _ _ _ _ _ Hok) as Hnum.
  destruct (get_prs_ok _ _ _ _ _ Hok) as [-> Hall].
  assert (Hp : forall p, In p ps ->
             issue_at w (full_name repo) (number p) = Some (pr_item p) /\
             head (pr_item p) = Some (head_ref p)).
  { intros p Hin. destruct (Forall2_in_r _ _ _ _ Hall Hin) as (x & Hx & Hpull).
    apply find_pull_some in Hpull. destruct Hpull as (_ & Hn & Hat & Hh).
    apply in_candidates in Hx. destruct Hx as (Hr & _).
    rewrite Hr, <- Hn in Hat. split; assumption. }
  split.
  - intros Hin. apply in_map_iff in Hin. destruct Hin as (p & <- & Hin).
    destruct (Hp p Hin) as [Hat Hh].
    assert (Hf : In (number p) (map number ps)) by (apply in_map; exact Hin).
    rewrite Hnum in Hf. apply filter_In in Hf. destruct Hf as [Hl Hc].
    exists (number p), (pr_item p). auto.
  - intros (n & it & Hl & Hc & Hat & Hh).
    assert (Hf : In n (map number ps))
      by (rewrite Hnum; apply filter_In; split; assumption).
    apply in_map_iff in Hf. destruct Hf as (p & <- & Hin).
    destruct (Hp p Hin) as [Hat' Hh']. apply in_map_iff. exists p.
    split; [congruence | exact Hin].
Qed.

Lemma spared_remove_ref (self : GithubBranchManager) (w0 w : World) (repo b : string) :
  dry_run self = false -> listed self w0 repo -> stale_branch self w0 repo b ->
  spared self w0 w -> spared self w0 (remove_ref w repo ("heads/" ++ b)).
Proof.
  intros Hdry Hl Hs Hsp repo' k s Hin.
  destruct (Hsp repo' k s Hin) as [Hkeep | Hgone]; [| right; exact Hgone].
  cbn [remove_ref git_refs].
  destruct (repo' =? repo)%string eqn:Hr; [| left; exact Hkeep].
  apply String.eqb_eq in Hr. subst repo'.
  destruct (k =? "heads/" ++ b)%string eqn:Hk.
  - apply String.eqb_eq in Hk. right. eauto.
  - left. apply filter_In. split; [exact Hkeep |]. cbn [fst]. rewrite Hk. reflexivity.
Qed.

Lemma delete_repo_spared (self : GithubBranchManager) (w0 : World) (repo : Repository)
    (w : World) :
  listed self w0 (full_name repo) -> shrunk w0 w -> spared self w0 w ->
  spared self w0 (world (delete_repo self repo w)).
Proof.
  intros Hl Hsh Hsp. rewrite delete_repo_run. cbv zeta.
  destruct (value (get_prs_branches_to_be_deleted self repo w)) as [[ps bs] |] eqn:Hok;
    cbn [world]; [| exact Hsp].
  apply (for_invariant (fun w' => spared self w0 w')); [| exact Hsp].
  intros b wb Hb Hwb. rewrite delete_one_run.
  destruct (lookup_ref (git_refs wb (full_name repo)) ("heads/" ++ b));
    [destruct (dry_run self) eqn:Hdry;
     [| destruct (refusal wb (DeleteGitRef (full_name repo) ("heads/" ++ b)))] |];
    cbn [world]; try exact Hwb.
  apply spared_remove_ref; try assumption.
  apply (stale_branch_shrunk self w0 w _ _ Hsh).
  apply (returned_branches _ _ _ _ _ _ Hok). exact Hb.
Qed.

Lemma delete_repos_shrunk (self : GithubBranchManager) (repos : list Repository)
    (w : World) :
  shrunk w (world (for_ repos (delete_repo self) w)).
Proof.
  apply (for_invariant (shrunk w)); [| apply shrunk_refl].
  intros r wr _ Hr. eapply shrunk_trans; [exact Hr | apply delete_repo_shrunk].
Qed.

Lemma delete_stale_branches_world (self : GithubBranchManager) (w : World) :
  world (delete_stale_branches self w) =
  match organizations w (org self) with
  | Some repos => world (for_ repos (delete_repo self) w)
  | None => w
  end.
Proof.
  unfold delete_stale_branches, bind. rewrite get_repos_run.
  destruct (organizations w (org self)); reflexivity.
Qed.

(** X6.  What the delete driver can do to the remote state.  It leaves
    the day, the organizations and the issues as they were.  Every
    reference left at the end was there at the start, with the sha it
    had.  A reference that is gone at the end was, in a repository the
    organization lists, the branch [heads/b] of the head [b] of a
    candidate: of an open issue of that repository, older than the
    cutoff and without the protective label; and the run was not a dry
    run.  This holds however the run ends. *)
Theorem delete_driver_deletes_only_stale_heads (self : GithubBranchManager)
    (w : World) :
  let w' := world (delete_stale_branches self w) in
  today w' = today w /\ organizations w' = organizations w /\
  issue_numbers w' = issue_numbers w /\ issue_at w' = issue_at w /\
  forall repo k s,
    (In (k, s) (git_refs w' repo) -> In (k, s) (git_refs w repo)) /\
    (In (k, s) (git_refs w repo) ->
     In (k, s) (git_refs w' repo) \/
     (dry_run self = false /\
      (exists repos r, organizations w (org self) = Some repos /\ In r repos /\
                       full_name r = repo) /\
      exists b n it,
        k = ("heads/" ++ b)%string /\ In n (issue_numbers w repo) /\
        is_candidate self w repo n = true /\
        issue_at w repo n = Some it /\ head it = Some b)).
Proof.
  cbv zeta. rewrite delete_stale_branches_world.
  assert (Hgoal : forall w', shrunk w w' -> spared self w w' ->
            today w' = today w /\ organizations w' = organizations w /\
            issue_numbers w' = issue_numbers w /\ issue_at w' = issue_at w /\
            forall repo k s,
              (In (k, s) (git_refs w' repo) -> In (k, s) (git_refs w repo)) /\
              (In (k, s) (git_refs w repo) ->
               In (k, s) (git_refs w' repo) \/
               (dry_run self = false /\
                (exists repos r, organizations w (org self) = Some repos /\
                                 In r repos /\ full_name r = repo) /\
                exists b n it,
                  k = ("heads/" ++ b)%string /\ In n (issue_numbers w repo) /\
                  is_candidate self w repo n = true /\
                  issue_at w repo n = Some it /\ head it = Some b))).
  { intros w' (_ & H1 & H2 & H3 & H4 & H5) Hsp. repeat split; try assumption.
    - apply H5.
    - intros Hin. destruct (Hsp repo k s Hin) as [Hk | (Hdry & Hl & b & Hb & Hst)];
        [left; exact Hk | right].
      destruct Hst as (n & it & Hst). split; [exact Hdry |]. split; [exact Hl |].
      exists b, n, it. tauto. }
  assert (Hsp0 : spared self w w) by (intros repo k s Hin; left; exact Hin).
  destruct (organizations w (org self)) as [repos |] eqn:Horg;
    [| apply Hgoal; [apply shrunk_refl | exact Hsp0]].
  apply Hgoal; [apply delete_repos_shrunk |].
  apply (for_invariant (fun w' => shrunk w w' /\ spared self w w'));
    [| split; [apply shrunk_refl | exact Hsp0]].
  intros r wr Hr [Hsh Hsp]. split.
  - eapply shrunk_trans; [exact Hsh | apply delete_repo_shrunk].
  - apply delete_repo_spared; try assumption. exists repos, r. auto.
Qed.

Lemma delete_stale_branches_run (self : GithubBranchManager) (w : World) :
  delete_stale_branches self w =
  match organizations w (org self) with
  | Some repos =>
      let l := for_ repos (delete_repo self) w in
      mk_out (value l) (world l) (Sent (ListRepos (org self)) :: trace l)
  | None => mk_out (Raise UnknownObjectException) w [Sent (ListRepos (org self))]
  end.
Proof.
  unfold delete_stale_branches, bind. rewrite get_repos_run.
  destruct (organizations w (org self)); reflexivity.
Qed.

(** What the filter returns of a candidate. *)
Lemma returned_pull_item (self : GithubBranchManager) (repo : Repository) (w : World)
    (ps : list PullRequest) (bs : list string) (p : PullRequest) :
  value (get_prs_branches_to_be_deleted self repo w) = Ok (ps, bs) ->
  In p ps ->
  issue_at w (full_name repo) (number p) = Some (pr_item p) /\
  head (pr_item p) = Some (head_ref p).
Proof.
  intros Hok Hin. destruct (get_prs_ok _ _ _ _ _ Hok) as [_ Hall].
  destruct (Forall2_in_r _ _ _ _ Hall Hin) as (x & Hx & Hpull).
  apply find_pull_some in Hpull. destruct Hpull as (_ & Hn & Hat & Hh).
  apply in_candidates in Hx. destruct Hx as (Hr & _).
  rewrite Hr, <- Hn in Hat. split; assumption.
Qed.

(** X7.  A run of the delete driver that is not a dry run and that
    completes has deleted the branch of every candidate: for every
    repository the organization lists and every open issue of it older
    than the cutoff and without the protective label, the reference
    [heads/b] of its head [b] resolved when the run started, its sha was
    logged, its deletion was requested, and it does not resolve any
    more when the run ends. *)
Theorem completed_delete_removes_stale_heads (self : GithubBranchManager) (w : World)
    (repos : list Repository) (r : Repository) (n : Z) (it : Item) (b : string) :
  dry_run self = false ->
  value (delete_stale_branches self w) = Ok tt ->
  organizations w (org self) = Some repos -> In r repos ->
  In n (issue_numbers w (full_name r)) ->
  is_candidate self w (full_name r) n = true ->
  issue_at w (full_name r) n = Some it -> head it = Some b ->
  let o := delete_stale_branches self w in
  lookup_ref (git_refs (world o) (full_name r)) ("heads/" ++ b) = None /\
  exists s,
    lookup_ref (git_refs w (full_name r)) ("heads/" ++ b) = Some s /\
    In (Logged (log_branch b s)) (trace o) /\
    In (Sent (DeleteGitRef (full_name r) ("heads/" ++ b))) (trace o).
Proof.
  intros Hdry Hok Horg Hr Hn Hc Hat Hh. cbv zeta.
  rewrite delete_stale_branches_run, Horg in Hok |- *. cbv zeta in Hok |- *.
  cbn [value world trace] in Hok |- *.
  destruct (for_ok_around shrunk (delete_repo self) shrunk_refl shrunk_trans
              (delete_repo_shrunk self) repos w Hok r Hr)
    as (wx & Hwx & Hvx & Hafter & Hincl).
  revert Hvx Hafter Hincl. rewrite delete_repo_run. cbv zeta.
  destruct (value (get_prs_branches_to_be_deleted self r wx)) as [[ps bs] |] eqn:Hg;
    cbn [value world trace]; [| discriminate].
  intros Hvl Hafter Hincl.
  assert (Hb : In b bs).
  { apply (returned_branches _ _ _ _ _ _ Hg).
    apply (stale_branch_shrunk self w wx _ _ Hwx). exists n, it. auto. }
  destruct (for_ok_around shrunk (delete_one self r) shrunk_refl shrunk_trans
              (delete_one_shrunk self r) bs wx Hvl b Hb)
    as (wb & Hwb & Hvb & Hafter' & Hincl').
  revert Hvb Hafter' Hincl'. rewrite delete_one_run, Hdry.
  destruct (lookup_ref (git_refs wb (full_name r)) ("heads/" ++ b)) as [s |] eqn:Hl;
    cbn [value world trace]; [| discriminate].
  destruct (refusal wb (DeleteGitRef (full_name r) ("heads/" ++ b)));
    cbn [value world trace]; [discriminate |].
  intros _ Hafter' Hincl'.
  assert (Hin : forall e,
            In e [Sent (GetGitRef (full_name r) ("heads/" ++ b));
                  Logged (log_branch b s);
                  Sent (DeleteGitRef (full_name r) ("heads/" ++ b))] ->
            In e (Sent (ListRepos (org self)) :: trace (for_ repos (delete_repo self) w))).
  { intros e He. right. apply Hincl. apply in_or_app. right.
    apply in_or_app. right. apply in_or_app. right. apply Hincl'. exact He. }
  split; [| exists s; split; [| split]].
  - apply (shrunk_none _ _ _ _ Hafter). apply (shrunk_none _ _ _ _ Hafter').
    apply lookup_ref_removed.
  - destruct (shrunk_trans _ _ _ Hwx Hwb) as (_ & _ & _ & _ & _ & H). apply H. exact Hl.
  - apply Hin. cbn. auto.
  - apply Hin. cbn. auto.
Qed.

Lemma completed_delete_removes_stale_heads_witness :
  lookup_ref
    (git_refs (world (delete_stale_branches (Scenario.manager false) Scenario.world_A))
              "acme/a")
    "heads/feature-1" = None /\
  exists s,
    lookup_ref (git_refs Scenario.world_A "acme/a") "heads/feature-1" = Some s /\
    In (Logged (log_branch "feature-1" s))
       (trace (delete_stale_branches (Scenario.manager false) Scenario.world_A)) /\
    In (Sent (DeleteGitRef "acme/a" "heads/feature-1"))
       (trace (delete_stale_branches (Scenario.manager false) Scenario.world_A)).
Proof.
  apply (completed_delete_removes_stale_heads (Scenario.manager false)
           Scenario.world_A [Scenario.repo_a] Scenario.repo_a 1
           (Scenario.pr [] "feature-1") "feature-1");
    try reflexivity; cbn; auto.
Defined.

Lemma NoDup_map_inj {A B} (f : A -> B) (l : list A) (x y : A) :
  NoDup (map f l) -> In x l -> In y l -> f x = f y -> x = y.
Proof.
  induction l as [| a l IH]; intros Hnd Hx Hy Hf; [destruct Hx |].
  cbn [map] in Hnd. inversion Hnd as [| ? ? Hnot Hnd']; subst.
  destruct Hx as [-> | Hx], Hy as [-> | Hy]; auto.
  - exfalso. apply Hnot. rewrite Hf. apply in_map. exact Hy.
  - exfalso. apply Hnot. rewrite <- Hf. apply in_map. exact Hx.
Qed.

(** A loop of deletions that completes has met each branch once. *)
Lemma completed_delete_loop_nodup (self : GithubBranchManager) (repo : Repository) :
  dry_run self = false ->
  forall (bs : list string) (w : World),
    value (for_ bs (delete_one self repo) w) = Ok tt -> NoDup bs.
Proof.
  intros Hdry. induction bs as [| b bs IH]; intros w Hok; [constructor |].
  rewrite for_cons, delete_one_run, Hdry in Hok.
  destruct (lookup_ref (git_refs w (full_name repo)) ("heads/" ++ b)) as [s |];
    cbn [value world trace] in Hok; [| discriminate].
  destruct (refusal w (DeleteGitRef (full_name repo) ("heads/" ++ b)));
    cbn [value world trace] in Hok; [discriminate |].
  constructor; [| eapply IH; exact Hok].
  intros Hin.
  destruct (for_ok_in shrunk (delete_one self repo) shrunk_refl shrunk_trans
              (delete_one_shrunk self repo) bs _ Hok b Hin) as (wb & Hwb & Hvb & _).
  rewrite delete_one_run in Hvb.
  rewrite (shrunk_none _ _ _ _ Hwb (lookup_ref_removed w _ _)) in Hvb. discriminate.
Qed.

(** X8.  Two candidates of one repository with the same head branch end
    a run of the delete driver that is not a dry run: the run does not
    return, it raises. *)
Theorem shared_head_aborts_delete (self : GithubBranchManager) (w : World)
    (repos : list Repository) (r : Repository) (n1 n2 : Z) (it1 it2 : Item)
    (b : string) :
  dry_run self = false ->
  organizations w (org self) = Some repos -> In r repos ->
  In n1 (issue_numbers w (full_name r)) -> In n2 (issue_numbers w (full_name r)) ->
  is_candidate self w (full_name r) n1 = true ->
  is_candidate self w (full_name r) n2 = true ->
  issue_at w (full_name r) n1 = Some it1 -> issue_at w (full_name r) n2 = Some it2 ->
  head it1 = Some b -> head it2 = Some b ->
  n1 <> n2 ->
  exists e, value (delete_stale_branches self w) = Raise e.
Proof.
  intros Hdry Horg Hr Hn1 Hn2 Hc1 Hc2 Hat1 Hat2 Hh1 Hh2 Hneq.
  destruct (value (delete_stale_branches self w)) as [[] | e] eqn:Hv;
    [| exists e; reflexivity].
  exfalso. apply Hneq.
  rewrite delete_stale_branches_run, Horg in Hv. cbv zeta in Hv. cbn [value] in Hv.
  destruct (for_ok_in shrunk (delete_repo self) shrunk_refl shrunk_trans
              (delete_repo_shrunk self) repos w Hv r Hr) as (wx & Hwx & Hvx & _).
  rewrite delete_repo_run in Hvx. cbv zeta in Hvx.
  destruct (value (get_prs_branches_to_be_deleted self r wx)) as [[ps bs] |] eqn:Hg;
    cbn [value] in Hvx; [| discriminate].
  apply (completed_delete_loop_nodup self r Hdry) in Hvx.
  pose proof (returned_numbers _ _ _ _ _ Hg) as Hnum.
  destruct (get_prs_ok _ _ _ _ _ Hg) as [-> _].
  pose proof Hwx as (_ & _ & _ & Hnums & Hats & _).
  assert (Hfind : forall n it, In n (issue_numbers w (full_name r)) ->
            is_candidate self w (full_name r) n = true ->
            issue_at w (full_name r) n = Some it -> head it = Some b ->
            exists p, In p ps /\ number p = n /\ head_ref p = b).
  { intros n it Hn Hc Hat Hh.
    assert (Hf : In n (map number ps)).
    { rewrite Hnum. apply filter_In. rewrite Hnums. split; [exact Hn |].
      unfold is_candidate in Hc |- *. rewrite Hats. exact Hc. }
    apply in_map_iff in Hf. destruct Hf as (p & Hp & Hin). exists p.
    split; [exact Hin |]. split; [exact Hp |].
    destruct (returned_pull_item _ _ _ _ _ _ Hg Hin) as [Hat' Hh'].
    rewrite Hats, Hp in Hat'. congruence. }
  destruct (Hfind _ _ Hn1 Hc1 Hat1 Hh1) as (p1 & Hp1 & <- & Hb1).
  destruct (Hfind _ _ Hn2 Hc2 Hat2 Hh2) as (p2 & Hp2 & <- & Hb2).
  f_equal. apply (NoDup_map_inj head_ref ps); congruence.
Qed.

Lemma shared_head_aborts_delete_witness :
  exists e,
    value (delete_stale_branches (Scenario.manager false) world_shared_head) = Raise e.
Proof.
  apply (shared_head_aborts_delete (Scenario.manager false) world_shared_head
           [Scenario.repo_a] Scenario.repo_a 1 3
           (Scenario.pr [] "feature-1") (Scenario.pr [] "feature-1") "feature-1");
    try reflexivity; try discriminate; cbn; auto.
Defined.

Lemma in_log_output (l : LogRecord) (t : list Event) :
  In l (log_output t) <-> In (Logged l) t.
Proof.
  unfold log_output. rewrite in_flat_map. split.
  - intros ([r | l' | d] & Hin & Hl); [destruct Hl | | destruct Hl].
    destruct Hl as [<- | []]. exact Hin.
  - intros Hin. exists (Logged l). split; [exact Hin | left; reflexivity].
Qed.

(** A trace that neither mutates nor logs a branch has nothing to
    answer for. *)
Lemma accounted_quiet (self : GithubBranchManager) (w : World) (t : list Event) :
  mutating_calls t = [] ->
  (forall b s, ~ In (log_branch b s) (log_output t)) ->
  Forall (accounted self w) t.
Proof.
  intros Hm Hl. apply Forall_forall. intros e Hin.
  assert (Hr : forall r, e = Sent r -> mutating r = false).
  { intros r ->. destruct (mutating r) eqn:Hmut; [| reflexivity].
    assert (H : In r (mutating_calls t)) by (apply in_mutating_calls; auto).
    rewrite Hm in H. destruct H. }
  destruct e as [r | l | d].
  - specialize (Hr r eq_refl). destruct r; try discriminate; exact Hr.
  - destruct l; try exact I. exfalso. eapply Hl. apply in_log_output. exact Hin.
  - exact I.
Qed.

Lemma delete_one_accounted (self : GithubBranchManager) (w0 : World)
    (repo : Repository) (b : string) (w : World) :
  listed self w0 (full_name repo) -> stale_branch self w0 (full_name repo) b ->
  shrunk w0 w ->
  Forall (accounted self w0) (trace (delete_one self repo b w)).
Proof.
  intros Hl Hs (_ & _ & _ & _ & _ & Hsh). rewrite delete_one_run.
  assert (Hget : accounted self w0 (Sent (GetGitRef (full_name repo) ("heads/" ++ b))))
    by reflexivity.
  destruct (lookup_ref (git_refs w (full_name repo)) ("heads/" ++ b)) as [s |] eqn:Hk;
    [| cbn [trace]; apply Forall_cons; [exact Hget | apply Forall_nil]].
  apply Hsh in Hk.
  assert (Hlog : accounted self w0 (Logged (log_branch b s)))
    by (exists (full_name repo); auto).
  destruct (dry_run self) eqn:Hdry;
    [| destruct (refusal w (DeleteGitRef (full_name repo) ("heads/" ++ b)))];
    cbn [trace];
    repeat (apply Forall_cons; [assumption |]); try apply Forall_nil;
    (apply Forall_cons; [| apply Forall_nil]);
    cbn [accounted]; (split; [exact Hdry |]); (split; [exact Hl |]);
    exists b, s; auto.
Qed.

Lemma delete_repo_accounted (self : GithubBranchManager) (w0 : World)
    (repo : Repository) (w : World) :
  listed self w0 (full_name repo) -> shrunk w0 w ->
  Forall (accounted self w0) (trace (delete_repo self repo w)).
Proof.
  intros Hl Hsh. rewrite delete_repo_run. cbv zeta.
  destruct (get_prs_run self repo w) as (_ & Hm & _ & Hlog & _).
  assert (Hg : Forall (accounted self w0)
                 (trace (get_prs_branches_to_be_deleted self repo w))).
  { apply accounted_quiet; [exact Hm |]. intros b s Hin.
    apply Hlog in Hin. destruct Hin as [H | []]. discriminate. }
  assert (Hpre : Forall (accounted self w0)
                   [Logged (log_processing (name repo));
                    Sent (CountBranches (full_name repo));
                    Logged (log_total_branches (name repo)
                              (count_branches w (full_name repo)))])
    by (repeat constructor).
  destruct (value (get_prs_branches_to_be_deleted self repo w)) as [[ps bs] |] eqn:Hok;
    cbn [trace]; (apply Forall_app; split; [exact Hpre |]);
    [| exact Hg].
  apply Forall_app; split; [exact Hg |].
  apply Forall_app; split; [apply Forall_cons; [exact I | apply Forall_nil] |].
  apply Forall_forall. intros e He.
  destruct (for_in_trace shrunk (delete_one self repo) shrunk_refl shrunk_trans
              (delete_one_shrunk self repo) bs w e He) as (b & wb & Hb & Hwb & Hin).
  assert (Hall : Forall (accounted self w0) (trace (delete_one self repo b wb))).
  { apply delete_one_accounted; [exact Hl | | eapply shrunk_trans; eassumption].
    apply (stale_branch_shrunk self w0 w _ _ Hsh).
    apply (returned_branches _ _ _ _ _ _ Hok). exact Hb. }
  rewrite Forall_forall in Hall. apply Hall. exact Hin.
Qed.

(** X9.  Every event of a run of the delete driver is accounted for by
    the state the run started from, however the run ends.  A log line
    [branch_name=b, sha=s] names the head of a candidate of a repository
    the organization lists, and [s] is the sha the reference [heads/b]
    of that repository had at the start.  A deletion is requested only
    when the run is not a dry run, and only for such a reference.  Every
    other request is a read. *)
Theorem delete_driver_events_accounted (self : GithubBranchManager) (w : World) :
  Forall (accounted self w) (trace (delete_stale_branches self w)).
Proof.
  rewrite delete_stale_branches_run.
  destruct (organizations w (org self)) as [repos |] eqn:Horg; cbv zeta; cbn [trace];
    constructor; try reflexivity; [| constructor].
  apply Forall_forall. intros e He.
  destruct (for_in_trace shrunk (delete_repo self) shrunk_refl shrunk_trans
              (delete_repo_shrunk self) repos w e He) as (r & wr & Hr & Hwr & Hin).
  assert (Hall : Forall (accounted self w) (trace (delete_repo self r wr))).
  { apply delete_repo_accounted; [| exact Hwr]. exists repos, r. auto. }
  rewrite Forall_forall in Hall. apply Hall. exact Hin.
Qed.

(** ** The script *)

Lemma init_quiet (tok org_name : string) (p : Z) (dry : bool) (w : World) :
  world (__init__ tok org_name p dry w) = w /\
  mutating_calls (trace (__init__ tok org_name p dry w)) = [] /\
  forall self, value (__init__ tok org_name p dry w) = Ok self -> dry_run self = dry.
Proof.
  rewrite init_run.
  destruct (accepts_token w tok); [| repeat split; discriminate].
  destruct (refusal w (GetOrganization org_name)); [repeat split; discriminate |].
  destruct (organizations w org_name) as [repos |]; [| repeat split; discriminate].
  destruct (rsub (new_relativedelta 0 p) (date (today w))) as [d | e];
    repeat split; try discriminate.
  intros self H. apply Ok_inj in H. subst self. reflexivity.
Qed.

Lemma delete_stale_branches_only_deletes (self : GithubBranchManager) (w : World)
    (r : Request) :
  In r (mutating_calls (trace (delete_stale_branches self w))) ->
  dry_run self = false /\ exists repo k, r = DeleteGitRef repo k.
Proof.
  intros Hin. apply in_mutating_calls in Hin. destruct Hin as [Hin Hm].
  set (P := fun e => match e with
                     | Sent r => mutating r = true ->
                                 dry_run self = false /\
                                 exists repo k, r = DeleteGitRef repo k
                     | _ => True
                     end).
  assert (Hrefl : forall w, any_world w w) by exact (fun _ => I).
  assert (Htrans : forall w1 w2 w3, any_world w1 w2 -> any_world w2 w3 -> any_world w1 w3)
    by exact (fun _ _ _ _ _ => I).
  assert (Hob : obeys P any_world (delete_stale_branches self)).
  { apply (obeys_delete_stale_branches P any_world Hrefl Htrans).
    - intros l. exact I.
    - intros r' Hr' _. cbn. congruence.
    - intros repo. split; cbn; discriminate.
    - intros Hdry g. apply (obeys_delete P any_world Hrefl Htrans).
      + cbn. intros _. split; [exact Hdry |]. eexists _, _. reflexivity.
      + intros w'. exact I. }
  destruct (Hob w) as [Ht _]. rewrite Forall_forall in Ht. exact (Ht _ Hin Hm).
Qed.

(** X10.  What the script can change depends on the action and on the
    dry-run flag alone.  Whatever the arguments, every mutating request
    of a run is either, for the action [label], the replacement of the
    labels of an issue by [will-be-deleted-within-a-week], or, for the
    action [delete], the deletion of a git reference, and none is sent
    in a dry run.  For any other action the script raises nothing of
    its own: it initializes the manager and stops, the remote state
    untouched. *)
Theorem main_mutates_by_action (tok action org_name : string) (date_period : Z)
    (dry : bool) (w : World) :
  let o := main tok action org_name date_period dry w in
  let i := __init__ tok org_name date_period dry w in
  Forall (fun r =>
            dry = false /\
            ((action = "label"%string /\
              exists repo n, r = PutLabels repo n ["will-be-deleted-within-a-week"]) \/
             (action = "delete"%string /\ exists repo k, r = DeleteGitRef repo k)))
         (mutating_calls (trace o)) /\
  ((action =? "label")%string || (action =? "delete")%string = false ->
   world o = w /\ trace o = trace i /\
   value o = match value i with Ok _ => Ok tt | Raise e => Raise e end).
Proof.
  cbv zeta. unfold main.
  destruct (init_quiet tok org_name date_period dry w) as (Hw & Hm & Hself).
  destruct (value (__init__ tok org_name date_period dry w)) as [self | e] eqn:Hv.
  - rewrite (bind_ok _ _ _ _ Hv). cbn [value world trace]. rewrite Hw.
    specialize (Hself self eq_refl). split.
    + rewrite mutating_calls_app, Hm. cbn [app]. apply Forall_forall. intros r Hin.
      destruct (action =? "label")%string eqn:Hl;
        [| destruct (action =? "delete")%string eqn:Hd].
      * apply String.eqb_eq in Hl.
        assert (Hdry : dry = false).
        { destruct dry; [| reflexivity]. exfalso.
          destruct (dry_run_reads_only self Hself) as [Hro _].
          destruct (Hro w) as [Ht _]. apply reads_only_no_mutation in Ht.
          rewrite Ht in Hin. destruct Hin. }
        split; [exact Hdry |]. left. split; [exact Hl |].
        destruct (label_stale_branches_only_labels self w) as [Ht _].
        rewrite Forall_forall in Ht. apply in_mutating_calls in Hin.
        destruct Hin as [Hin Hmut]. exact (Ht _ Hin Hmut).
      * apply String.eqb_eq in Hd.
        destruct (delete_stale_branches_only_deletes _ _ _ Hin) as [Hdry Hr].
        split; [congruence |]. right. split; [exact Hd | exact Hr].
      * destruct Hin.
    + intros Hother. apply orb_false_elim in Hother. destruct Hother as [-> ->].
      cbn [ret value world trace]. rewrite app_nil_r. auto.
  - rewrite (bind_raise _ _ _ _ Hv). cbn [value world trace]. rewrite Hm.
    split; [constructor | auto].
Qed.

(** ** When the label driver completes *)

Lemma label_stale_branches_run (self : GithubBranchManager) (w : World) :
  label_stale_branches self w =
  match organizations w (org self) with
  | Some repos =>
      let l := for_ repos (label_repo self) w in
      mk_out (value l) (world l) (Sent (ListRepos (org self)) :: trace l)
  | None => mk_out (Raise UnknownObjectException) w [Sent (ListRepos (org self))]
  end.
Proof.
  unfold label_stale_branches, bind. rewrite get_repos_run.
  destruct (organizations w (org self)); reflexivity.
Qed.

(** X11.  What a completed run of the label driver tells.  When a run,
    dry or not, returns, the organization was there, and every candidate
    of every repository it lists (every open issue older than the
    cutoff and without the protective label) is a pull request, with a
    head branch; and when the run is not a dry run, the host refused
    the application of the label to none of them.  So a plain issue
    among the candidates, or one refused label write, keeps the run
    from returning. *)
Theorem label_driver_completes (self : GithubBranchManager) (w : World) :
  value (label_stale_branches self w) = Ok tt ->
  exists repos,
    organizations w (org self) = Some repos /\
    forall r n it,
      In r repos -> In n (issue_numbers w (full_name r)) ->
      is_candidate self w (full_name r) n = true ->
      issue_at w (full_name r) n = Some it ->
      head it <> None /\
      (dry_run self = false ->
       refusal w (PutLabels (full_name r) n ["will-be-deleted-within-a-week"]) = None).
Proof.
  rewrite label_stale_branches_run.
  destruct (organizations w (org self)) as [repos |] eqn:Horg; cbv zeta; cbn [value];
    [| discriminate].
  intros Hok. exists repos. split; [reflexivity |].
  intros r n it Hr Hn Hc Hat.
  destruct (for_ok_in relabelled (label_repo self) relabelled_refl relabelled_trans
              (label_repo_relabelled self) repos w Hok r Hr) as (wx & Hwx & Hvx & _).
  rewrite label_repo_run in Hvx. cbv zeta in Hvx.
  destruct (value (get_prs_branches_to_be_deleted self r wx)) as [[ps bs] |] eqn:Hg;
    cbn [value] in Hvx; [| discriminate].
  destruct (value (foldM (label_one self r) ps [] wx)) as [done |] eqn:Hloop;
    cbn [value] in Hvx; [| discriminate].
  pose proof (relabelled_issues _ _ Hwx) as Hsame.
  pose proof Hsame as ((_ & Href) & Hnums & Hent).
  assert (Hf : In n (map number ps)).
  { rewrite (returned_numbers _ _ _ _ _ Hg). apply filter_In.
    rewrite <- Hnums. split; [exact Hn |].
    rewrite <- (is_candidate_relabelled self w wx _ _ Hsame). exact Hc. }
  apply in_map_iff in Hf. destruct Hf as (p & Hp & Hin). split.
  - destruct (returned_pull_item _ _ _ _ _ _ Hg Hin) as [Hat' Hh'].
    specialize (Hent (full_name r) n). rewrite Hat, <- Hp, Hat' in Hent.
    destruct Hent as (_ & _ & Hh & _). rewrite Hh, Hh'. discriminate.
  - intros Hdry.
    destruct (label_loop_puts self r ps Hdry [] wx done Hloop p Hin) as [_ Hnone].
    rewrite Href, <- Hp. exact Hnone.
Qed.

Lemma label_driver_completes_witness :
  exists repos,
    organizations Scenario.world_A "acme" = Some repos /\
    forall r n it,
      In r repos -> In n (issue_numbers Scenario.world_A (full_name r)) ->
      is_candidate (Scenario.manager false) Scenario.world_A (full_name r) n = true ->
      issue_at Scenario.world_A (full_name r) n = Some it ->
      head it <> None /\
      (false = false ->
       refusal Scenario.world_A
               (PutLabels (full_name r) n ["will-be-deleted-within-a-week"]) = None).
Proof.
  apply (label_driver_completes (Scenario.manager false) Scenario.world_A).
  reflexivity.
Defined.

(** ** When the delete driver completes *)

(** X12.  What a completed run of the delete driver tells.  When a run,
    dry or not, returns, the organization was there, and every candidate
    of every repository it lists is a pull request whose head branch
    resolved in the state the run started from; and when the run is not
    a dry run, the host refused the deletion of none of these
    references. *)
Theorem delete_driver_completes (self : GithubBranchManager) (w : World) :
  value (delete_stale_branches self w) = Ok tt ->
  exists repos,
    organizations w (org self) = Some repos /\
    forall r n it,
      In r repos -> In n (issue_numbers w (full_name r)) ->
      is_candidate self w (full_name r) n = true ->
      issue_at w (full_name r) n = Some it ->
      exists b s,
        head it = Some b /\
        lookup_ref (git_refs w (full_name r)) ("heads/" ++ b) = Some s /\
        (dry_run self = false ->
         refusal w (DeleteGitRef (full_name r) ("heads/" ++ b)) = None).
Proof.
  rewrite delete_stale_branches_run.
  destruct (organizations w (org self)) as [repos |] eqn:Horg; cbv zeta; cbn [value];
    [| discriminate].
  intros Hok. exists repos. split; [reflexivity |].
  intros r n it Hr Hn Hc Hat.
  destruct (for_ok_in shrunk (delete_repo self) shrunk_refl shrunk_trans
              (delete_repo_shrunk self) repos w Hok r Hr) as (wx & Hwx & Hvx & _).
  rewrite delete_repo_run in Hvx. cbv zeta in Hvx.
  destruct (value (get_prs_branches_to_be_deleted self r wx)) as [[ps bs] |] eqn:Hg;
    cbn [value] in Hvx; [| discriminate].
  pose proof Hwx as (_ & _ & _ & Hnums & Hats & _).
  assert (Hf : In n (map number ps)).
  { rewrite (returned_numbers _ _ _ _ _ Hg). apply filter_In.
    rewrite Hnums. split; [exact Hn |].
    unfold is_candidate in Hc |- *. rewrite Hats. exact Hc. }
  apply in_map_iff in Hf. destruct Hf as (p & Hp & Hin).
  destruct (returned_pull_item _ _ _ _ _ _ Hg Hin) as [Hat' Hh'].
  rewrite Hats, Hp, Hat in Hat'. apply (f_equal (fun o => match o with
                                                          | Some i => i
                                                          | None => it
                                                          end)) in Hat'.
  subst it. exists (head_ref p).
  assert (Hb : In (head_ref p) bs).
  { destruct (get_prs_ok _ _ _ _ _ Hg) as [-> _]. apply in_map. exact Hin. }
  destruct (for_ok_in shrunk (delete_one self r) shrunk_refl shrunk_trans
              (delete_one_shrunk self r) bs wx Hvx _ Hb) as (wb & Hwb & Hvb & _).
  rewrite delete_one_run in Hvb.
  destruct (lookup_ref (git_refs wb (full_name r)) ("heads/" ++ head_ref p))
    as [s |] eqn:Hl; [| discriminate].
  exists s. split; [exact Hh' |].
  destruct (shrunk_trans _ _ _ Hwx Hwb) as ((_ & Href) & _ & _ & _ & _ & H).
  split; [apply H; exact Hl |].
  intros Hdry. rewrite Hdry in Hvb. rewrite Href.
  destruct (refusal wb (DeleteGitRef (full_name r) ("heads/" ++ head_ref p)));
    [discriminate | reflexivity].
Qed.

Lemma delete_driver_completes_witness :
  exists repos,
    organizations Scenario.world_A "acme" = Some repos /\
    forall r n it,
      In r repos -> In n (issue_numbers Scenario.world_A (full_name r)) ->
      is_candidate (Scenario.manager false) Scenario.world_A (full_name r) n = true ->
      issue_at Scenario.world_A (full_name r) n = Some it ->
      exists b s,
        head it = Some b /\
        lookup_ref (git_refs Scenario.world_A (full_name r)) ("heads/" ++ b) = Some s /\
        (false = false ->
         refusal Scenario.world_A (DeleteGitRef (full_name r) ("heads/" ++ b)) = None).
Proof.
  apply (delete_driver_completes (Scenario.manager false) Scenario.world_A).
  reflexivity.
Defined.

(** ** The summary line of the label driver *)

Lemma find_pull_head_relabelled (w w' : World) (repo : string) (n : Z) :
  same_issues w w' ->
  match find_pull w repo n with Some p => [head_ref p] | None => [] end =
  match find_pull w' repo n with Some p => [head_ref p] | None => [] end.
Proof.
  intros Hrel. pose proof (find_pull_relabelled w w' repo n Hrel) as H.
  destruct (find_pull w repo n), (find_pull w' repo n); try contradiction;
    [destruct H as [_ ->] |]; reflexivity.
Qed.

Lemma stale_heads_relabelled (self : GithubBranchManager) (w w' : World)
    (repo : string) :
  same_issues w w' -> stale_heads self w repo = stale_heads self w' repo.
Proof.
  intros Hrel. unfold stale_heads. pose proof Hrel as (_ & Hnums & _).
  rewrite <- Hnums.
  rewrite (filter_ext (is_candidate self w repo) (is_candidate self w' repo))
    by (intros n; apply is_candidate_relabelled; exact Hrel).
  apply flat_map_ext. intros n. apply find_pull_head_relabelled. exact Hrel.
Qed.

(** The list the labeling loop returns: in a dry run what it was given,
    otherwise the heads of the pull requests it labeled, appended. *)
Lemma label_loop_value (self : GithubBranchManager) (repo : Repository)
    (prs : list PullRequest) :
  forall (acc : list string) (w : World) (b : list string),
    Forall (fun pr => unprotected w (full_name repo) (number pr)) prs ->
    value (foldM (label_one self repo) prs acc w) = Ok b ->
    b = if dry_run self then acc
        else (acc ++ flat_map (fun pr =>
                                 match find_pull w (full_name repo) (number pr) with
                                 | Some p => [head_ref p]
                                 | None => []
                                 end) prs)%list.
Proof.
  induction prs as [| pr prs IH]; intros acc w b Hall Hok.
  - cbn in Hok. apply Ok_inj in Hok. subst b. cbn [flat_map].
    rewrite app_nil_r. destruct (dry_run self); reflexivity.
  - inversion Hall as [| ? ? Hpr Hrest]; subst.
    rewrite foldM_cons in Hok. unfold bind in Hok. rewrite label_one_run in Hok.
    cbn [flat_map].
    destruct (find_pull w (full_name repo) (number pr)) as [p |];
      cbn [value world trace] in Hok; [| discriminate].
    destruct (dry_run self) eqn:Hdry; cbn [value world trace] in Hok.
    + specialize (IH _ _ _ Hrest Hok). rewrite ?Hdry in IH. exact IH.
    + destruct (refusal w (PutLabels (full_name repo) (number pr) stale_label));
        cbn [value world trace] in Hok; [discriminate |].
      pose proof (put_labels_relabelled w _ _ Hpr) as Hstep.
      assert (Hrest' : Forall (fun q => unprotected
                                  (put_labels w (full_name repo) (number pr) stale_label)
                                  (full_name repo) (number q)) prs).
      { eapply Forall_impl; [| exact Hrest].
        intros q Hq. eapply unprotected_relabelled; eassumption. }
      specialize (IH _ _ _ Hrest' Hok). rewrite ?Hdry in IH. rewrite IH, <- app_assoc.
      f_equal. f_equal. apply flat_map_ext. intros q. symmetry.
      apply find_pull_head_relabelled, relabelled_issues, Hstep.
Qed.

Lemma flat_map_map {A B C} (f : A -> B) (g : B -> list C) (l : list A) :
  flat_map g (map f l) = flat_map (fun x => g (f x)) l.
Proof. induction l as [| a l IH]; [reflexivity |]. cbn. rewrite IH. reflexivity. Qed.

(** X13.  The summary line of the label driver is accurate.  In a run
    that completes, the line [Branches labeled in repo ...] of every
    repository the organization lists carries, when the run is not a
    dry run, the head branches of the candidates of the repository as
    they were when the run started, one for each candidate and in the
    order of the search result; in a dry run it carries the empty
    list. *)
Theorem label_summary_lists_stale_heads (self : GithubBranchManager) (w : World)
    (repos : list Repository) (r : Repository) :
  value (label_stale_branches self w) = Ok tt ->
  organizations w (org self) = Some repos -> In r repos ->
  In (Logged (log_branches_labeled (name r)
                (if dry_run self then [] else stale_heads self w (full_name r))))
     (trace (label_stale_branches self w)).
Proof.
  intros Hok Horg Hr. rewrite label_stale_branches_run, Horg in Hok |- *.
  cbv zeta in Hok |- *. cbn [value trace] in Hok |- *. right.
  destruct (for_ok_in relabelled (label_repo self) relabelled_refl relabelled_trans
              (label_repo_relabelled self) repos w Hok r Hr) as (wx & Hwx & Hvx & Hincl).
  apply Hincl. revert Hvx. rewrite label_repo_run. cbv zeta.
  destruct (value (get_prs_branches_to_be_deleted self r wx)) as [[ps bs] |] eqn:Hg;
    [| discriminate].
  destruct (value (foldM (label_one self r) ps [] wx)) as [b |] eqn:Hl;
    [| discriminate].
  intros _. cbn [trace].
  apply in_or_app. right. apply in_or_app. right. apply in_or_app. right.
  left. f_equal. f_equal.
  apply (label_loop_value self r ps [] wx b (returned_unprotected _ _ _ _ _ Hg)) in Hl.
  rewrite Hl. destruct (dry_run self); [reflexivity |]. cbn [app].
  rewrite (stale_heads_relabelled self w wx _ (relabelled_issues _ _ Hwx)).
  unfold stale_heads. rewrite <- (returned_numbers _ _ _ _ _ Hg), flat_map_map.
  reflexivity.
Qed.

Lemma label_summary_lists_stale_heads_witness :
  In (Logged (log_branches_labeled "a" ["feature-1"; "feature-3"]))
     (trace (label_stale_branches (Scenario.manager false) Scenario.world_B)).
Proof.
  apply (label_summary_lists_stale_heads (Scenario.manager false) Scenario.world_B
           [Scenario.repo_a] Scenario.repo_a); [reflexivity | reflexivity |].
  left. reflexivity.
Defined.
